(** * NanoBanana PRO: the poster-generation orchestrator

    A shallow embedding of [src/main.ts] (class [NanoBananaPlugin]), of
    the option-collecting part of [src/quickOptionsModal.ts] and of the
    state of the modal of [src/progressModal.ts], together with the
    properties of the retry controller, the single-flight guard, the
    regenerate-last-poster shortcut, the progress milestones, the error
    coercion and the cartoon panel count, and with further properties of
    the three entry points, of the two modals and of the helpers.

    Conventions of the embedding.
    - JavaScript strings are [string], in UTF-8 as the string literals of
      this file are; truthiness of a string is non-emptiness.
    - A JavaScript [number] that holds a panel count is [number]: an
      integer or [NaN].  Non-integral and infinite doubles are outside the
      model.
    - [async] methods are computations in the monad [M]: a world is
      threaded through, an outcome is a value, a thrown JavaScript value or
      exhaustion of the fuel that bounds the preview loop.
    - Every [await] on the host, on a modal or on a provider client is an
      [invoke]: its answer comes from an environment [Env] (one oracle per
      service, indexed by the number of earlier calls to that service) and
      it leaves a [Suspend] entry in the trace, which also records the
      value of [isGenerating] that any other callback would observe while
      the method is suspended there.
    - One entry point runs at a time; runs that interleave at their
      suspension points are not modelled. *)

From Stdlib Require Import ZArith List String Ascii Bool Lia Arith.
From Stdlib Require DecimalString DecimalZ DecimalPos.
Import ListNotations.

Local Open Scope string_scope.
Local Open Scope list_scope.
Local Open Scope Z_scope.

(** ** Numbers and [parseInt] *)

Inductive number : Type :=
| Num (z : Z)
| NaN.

(** Truthiness of a number: [NaN] and [0] are falsy. *)
Definition truthy (n : number) : bool :=
  match n with
  | Num z => negb (z =? 0)
  | NaN => false
  end.

(** [a || b] on numbers. *)
Definition or_else (a b : number) : number :=
  if truthy a then a else b.

Definition Math_min (a b : number) : number :=
  match a, b with
  | Num x, Num y => Num (Z.min x y)
  | _, _ => NaN
  end.

Definition Math_max (a b : number) : number :=
  match a, b with
  | Num x, Num y => Num (Z.max x y)
  | _, _ => NaN
  end.

(** White space as [parseInt] and [trim] strip it: the characters of
    WhiteSpace and of LineTerminator.  Those of one byte: TAB, LF, VT, FF,
    CR, SP. *)
Definition is_white (c : ascii) : bool :=
  let n := nat_of_ascii c in
  ((n =? 9) || (n =? 10) || (n =? 11) || (n =? 12) || (n =? 13) || (n =? 32))%nat.

(** Of two bytes: U+00A0, the no-break space. *)
Definition is_white2 (c1 c2 : ascii) : bool :=
  ((nat_of_ascii c1 =? 194) && (nat_of_ascii c2 =? 160))%nat.

(** Of three bytes: U+1680, U+2000 to U+200A, U+2028, U+2029, U+202F,
    U+205F, U+3000 and U+FEFF. *)
Definition is_white3 (c1 c2 c3 : ascii) : bool :=
  let n1 := nat_of_ascii c1 in
  let n2 := nat_of_ascii c2 in
  let n3 := nat_of_ascii c3 in
  ((n1 =? 225) && ((n2 =? 154) && (n3 =? 128)) ||
   (n1 =? 226) &&
     ((n2 =? 128) &&
        ((128 <=? n3) && (n3 <=? 138) || (n3 =? 168) || (n3 =? 169) || (n3 =? 175)) ||
      (n2 =? 129) && (n3 =? 159)) ||
   (n1 =? 227) && ((n2 =? 128) && (n3 =? 128)) ||
   (n1 =? 239) && ((n2 =? 187) && (n3 =? 191)))%nat.

(** The string without its leading white space. *)
Fixpoint skip_white (s : string) : string :=
  match s with
  | String c1 r1 =>
      if is_white c1 then skip_white r1
      else
        match r1 with
        | String c2 r2 =>
            if is_white2 c1 c2 then skip_white r2
            else
              match r2 with
              | String c3 r3 => if is_white3 c1 c2 c3 then skip_white r3 else s
              | EmptyString => s
              end
        | EmptyString => s
        end
  | EmptyString => s
  end.

(** [!s.trim()] : nothing is left of the string once it is trimmed, that
    is, it is white space throughout. *)
Definition trim_is_empty (s : string) : bool :=
  match skip_white s with
  | EmptyString => true
  | String _ _ => false
  end.

(** Value of a character as a digit: 0-9, then a-z / A-Z from 10. *)
Definition digit_value (c : ascii) : option Z :=
  let n := Z.of_nat (nat_of_ascii c) in
  if (48 <=? n) && (n <=? 57) then Some (n - 48)
  else if (97 <=? n) && (n <=? 122) then Some (n - 87)
  else if (65 <=? n) && (n <=? 90) then Some (n - 55)
  else None.

(** Longest prefix of radix-[radix] digits, as an integer; [None] when the
    prefix is empty. *)
Fixpoint digits (radix : Z) (s : string) (acc : option Z) : option Z :=
  match s with
  | String c r =>
      match digit_value c with
      | Some d =>
          if d <? radix
          then digits radix r (Some (match acc with Some a => a | None => 0 end * radix + d))
          else acc
      | None => acc
      end
  | EmptyString => acc
  end.

(** [parseInt(s)] with no radix argument: leading white space, an optional
    sign, an optional [0x]/[0X] prefix selecting radix 16, then digits. *)
Definition parseInt (s : string) : number :=
  let s1 := skip_white s in
  let '(sign, s2) :=
    match s1 with
    | String "-" r => (-1, r)
    | String "+" r => (1, r)
    | _ => (1, s1)
    end in
  let '(radix, s3) :=
    match s2 with
    | String "0" (String "x" r) => (16, r)
    | String "0" (String "X" r) => (16, r)
    | _ => (10, s2)
    end in
  match digits radix s3 None with
  | Some v => Num (sign * v)
  | None => NaN
  end.

(** ** Types of [types.ts] used by the orchestrator *)

Inductive ImageStyle : Type :=
| infographic | poster | diagram | mindmap | timeline | cartoon.

Inductive ImageSize : Type := size_1K | size_2K | size_4K.

(** ['4' | '6' | '8' | 'custom'] *)
Inductive CartoonCuts : Type := cuts_4 | cuts_6 | cuts_8 | cuts_custom.

(** The string a [CartoonCuts] value is at run time. *)
Definition CartoonCuts_str (c : CartoonCuts) : string :=
  match c with
  | cuts_4 => "4"
  | cuts_6 => "6"
  | cuts_8 => "8"
  | cuts_custom => "custom"
  end.

Definition ImageStyle_eqb (a b : ImageStyle) : bool :=
  match a, b with
  | infographic, infographic | poster, poster | diagram, diagram
  | mindmap, mindmap | timeline, timeline | cartoon, cartoon => true
  | _, _ => false
  end.

Inductive ErrorType : Type :=
| INVALID_API_KEY | RATE_LIMIT | NETWORK_ERROR
| GENERATION_FAILED | CONTENT_FILTERED | NO_CONTENT.

(** The [GenerationError] interface; [details] is optional. *)
Record GenerationError : Type := mkGenerationError {
  ge_type : ErrorType;
  ge_message : string;
  ge_retryable : bool;
  ge_details : option string
}.

(** A value caught by [catch (error)].  [GenerationErrorClass] is declared
    in [types.ts] as a subclass of [Error] carrying the fields of
    [GenerationError].  A value that is not an [Error] is one that
    [String] and [JSON.stringify] accept. *)
Inductive Thrown : Type :=
| GenErrorObj (e : GenerationError)   (* instanceof GenerationErrorClass *)
| ErrorObj (message : string)         (* any other instanceof Error *)
| OtherValue (asString : string).     (* not an Error; String(v) = asString *)

Inductive ProgressStep : Type :=
| analyzing | generating_prompt | generating_image | saving | embedding | complete.

(** What reading a property of one of the message tables of
    [getProgressMessage] gives: a text of the table or, under a name that
    the table does not have but every object inherits from
    [Object.prototype], the inherited member (a function, or the prototype
    itself under [__proto__]): a value that is neither a string nor
    nullish. *)
Inductive Message : Type :=
| Text (s : string)
| Inherited (name : string).

(** [message] is declared a string; it holds what [getProgressMessage]
    returned. *)
Record ProgressState : Type := mkProgressState {
  step : ProgressStep;
  progress : Z;
  message : Message
}.

Record TFile : Type := mkTFile { path : string }.

(** What [vault.getAbstractFileByPath] can return besides [null]. *)
Inductive AbstractFile : Type :=
| IsFile (f : TFile)
| IsFolder (p : string).

Record PromptResult : Type := mkPromptResult { prompt : string }.

Record ImageResult : Type := mkImageResult {
  imageData : string;
  mimeType : string
}.

Record PreviewModalResult : Type := mkPreviewModalResult {
  pv_confirmed : bool;
  pv_regenerate : bool;
  pv_prompt : string
}.

Record NanoBananaSettings : Type := mkSettings {
  selectedProvider : string;
  promptModel : string;
  imageModel : string;
  openaiApiKey : string;
  googleApiKey : string;
  anthropicApiKey : string;
  xaiApiKey : string;
  imageStyle : ImageStyle;
  imageSize : ImageSize;
  cartoonCuts : CartoonCuts;
  customCartoonCuts : number;
  preferredLanguage : string;
  showProgressModal : bool;
  showPreviewBeforeGeneration : bool;
  customPromptPrefix : string;
  attachmentFolder : string;
  autoRetryCount : Z
}.

(** ** [quickOptionsModal.ts] *)

Record QuickOptionsResult : Type := mkQuickOptionsResult {
  confirmed : bool;
  qo_imageStyle : ImageStyle;
  qo_imageSize : ImageSize;
  qo_cartoonCuts : CartoonCuts;
  qo_customCartoonCuts : number
}.

(** The fields of the modal that the user's choices update. *)
Record QuickOptionsModal : Type := mkQuickOptionsModal {
  selectedStyle : ImageStyle;
  selectedSize : ImageSize;
  selectedCartoonCuts : CartoonCuts;
  selectedCustomCuts : number
}.

(** The constructor copies the current settings. *)
Definition newQuickOptionsModal (currentStyle : ImageStyle) (currentSize : ImageSize)
    (currentCartoonCuts : CartoonCuts) (currentCustomCuts : number) : QuickOptionsModal :=
  mkQuickOptionsModal currentStyle currentSize currentCartoonCuts currentCustomCuts.

(** What the user can do before pressing a button.  The panel drop-down
    exists only while the style is cartoon, the custom text field only
    while moreover the selector is 'custom' ([updateCartoonSettings]). *)
Inductive OptionsAction : Type :=
| ChooseStyle (s : ImageStyle)
| ChooseSize (z : ImageSize)
| ChooseCuts (c : CartoonCuts)
| TypeCustomCuts (text : string).

(** The [onChange] handler of the custom panel count field. *)
Definition customCuts_onChange (value : string) : number :=
  let numValue := or_else (parseInt value) (Num 4) in
  Math_max (Num 2) (Math_min (Num 12) numValue).

Definition cartoonSettingsShown (m : QuickOptionsModal) : bool :=
  ImageStyle_eqb (selectedStyle m) cartoon.

Definition customFieldShown (m : QuickOptionsModal) : bool :=
  cartoonSettingsShown m &&
  match selectedCartoonCuts m with cuts_custom => true | _ => false end.

Definition optionsStep (m : QuickOptionsModal) (a : OptionsAction) : QuickOptionsModal :=
  match a with
  | ChooseStyle s =>
      mkQuickOptionsModal s (selectedSize m) (selectedCartoonCuts m) (selectedCustomCuts m)
  | ChooseSize z =>
      mkQuickOptionsModal (selectedStyle m) z (selectedCartoonCuts m) (selectedCustomCuts m)
  | ChooseCuts c =>
      if cartoonSettingsShown m
      then mkQuickOptionsModal (selectedStyle m) (selectedSize m) c (selectedCustomCuts m)
      else m
  | TypeCustomCuts text =>
      if customFieldShown m
      then mkQuickOptionsModal (selectedStyle m) (selectedSize m) (selectedCartoonCuts m)
             (customCuts_onChange text)
      else m
  end.

(** The Generate button ([generate = true]) or the Cancel button. *)
Definition submitOptions (m : QuickOptionsModal) (generate : bool) : QuickOptionsResult :=
  mkQuickOptionsResult generate (selectedStyle m) (selectedSize m)
    (selectedCartoonCuts m) (selectedCustomCuts m).

(** A whole interaction: the user's actions in order, then a button. *)
Definition runQuickOptions (m : QuickOptionsModal) (actions : list OptionsAction)
    (generate : bool) : QuickOptionsResult :=
  submitOptions (fold_left optionsStep actions m) generate.

(** ** Pure helpers of [main.ts] *)

Definition getCartoonCutsNumber (cartoonCuts : CartoonCuts) (customCuts : number) : number :=
  match cartoonCuts with
  | cuts_custom => customCuts
  | _ => parseInt (CartoonCuts_str cartoonCuts)
  end.

Definition getProviderApiKey (s : NanoBananaSettings) : string :=
  if (selectedProvider s =? "openai")%string then openaiApiKey s
  else if (selectedProvider s =? "google")%string then googleApiKey s
  else if (selectedProvider s =? "anthropic")%string then anthropicApiKey s
  else if (selectedProvider s =? "xai")%string then xaiApiKey s
  else "".

Definition toGenerationError (error : Thrown) : GenerationError :=
  match error with
  | GenErrorObj e =>
      mkGenerationError (ge_type e) (ge_message e) (ge_retryable e) (ge_details e)
  | ErrorObj message => mkGenerationError GENERATION_FAILED message false None
  | OtherValue asString => mkGenerationError GENERATION_FAILED asString false None
  end.

(** [getProgressMessage]: the localized message tables.  A step without
    a table, or a language without an entry, falls back to English and
    then to the step's own key. *)
Definition step_key (st : ProgressStep) : string :=
  match st with
  | analyzing => "analyzing"
  | generating_prompt => "generating-prompt"
  | generating_image => "generating-image"
  | saving => "saving"
  | embedding => "embedding"
  | complete => "complete"
  end.

(** [messages[step]]: the table of the step, [None] for [undefined]. *)
Definition messages (st : ProgressStep) : option (list (string * string)) :=
  match st with
  | analyzing => None
  | generating_prompt =>
      Some [("ko", "프롬프트 생성 중..."); ("en", "Generating prompt...");
            ("ja", "プロンプトを生成中..."); ("zh", "正在生成提示...");
            ("es", "Generando prompt..."); ("fr", "Génération du prompt...");
            ("de", "Prompt wird generiert...")]
  | generating_image =>
      Some [("ko", "이미지 생성 중..."); ("en", "Generating image...");
            ("ja", "画像を生成中..."); ("zh", "正在生成图像...");
            ("es", "Generando imagen..."); ("fr", "Génération de l'image...");
            ("de", "Bild wird generiert...")]
  | saving =>
      Some [("ko", "파일 저장 중..."); ("en", "Saving file...");
            ("ja", "ファイルを保存中..."); ("zh", "正在保存文件...");
            ("es", "Guardando archivo..."); ("fr", "Sauvegarde du fichier...");
            ("de", "Datei wird gespeichert...")]
  | embedding =>
      Some [("ko", "노트에 삽입 중..."); ("en", "Embedding in note...");
            ("ja", "ノートに挿入中..."); ("zh", "正在嵌入笔记...");
            ("es", "Insertando en nota..."); ("fr", "Insertion dans la note...");
            ("de", "In Notiz einbetten...")]
  | complete =>
      Some [("ko", "완료!"); ("en", "Complete!"); ("ja", "完了！"); ("zh", "完成！");
            ("es", "¡Completado!"); ("fr", "Terminé !"); ("de", "Fertig!")]
  end.

(** The own properties of a table. *)
Fixpoint lookup (key : string) (table : list (string * string)) : option string :=
  match table with
  | [] => None
  | (k, v) :: rest => if (k =? key)%string then Some v else lookup key rest
  end.

(** The properties of [Object.prototype], which an object literal
    inherits. *)
Definition Object_prototype_members : list string :=
  ["constructor"; "hasOwnProperty"; "isPrototypeOf"; "propertyIsEnumerable";
   "toLocaleString"; "toString"; "valueOf"; "__proto__"; "__defineGetter__";
   "__defineSetter__"; "__lookupGetter__"; "__lookupSetter__"].

Definition inherited (key : string) : bool :=
  existsb (String.eqb key) Object_prototype_members.

(** [table[key]] on a table written as an object literal: an own property
    first, then the prototype; [None] for [undefined]. *)
Definition property (key : string) (table : list (string * string)) : option Message :=
  match lookup key table with
  | Some v => Some (Text v)
  | None => if inherited key then Some (Inherited key) else None
  end.

(** [messages[step]?.[lang] ?? messages[step]?.['en'] ?? step] *)
Definition getProgressMessage (s : NanoBananaSettings) (st : ProgressStep) : Message :=
  let lang := if (preferredLanguage s =? "")%string then "en" else preferredLanguage s in
  match messages st with
  | None => Text (step_key st)
  | Some table =>
      match property lang table with
      | Some m => m
      | None =>
          match property "en" table with
          | Some m => m
          | None => Text (step_key st)
          end
      end
  end.

(** ** The world the plugin runs in *)

(** Fields of the plugin instance. *)
Record Plugin : Type := mkPlugin {
  settings : NanoBananaSettings;
  lastPrompt : string;
  lastNoteFile : option TFile;
  isGenerating : bool
}.

Record ProgressModal : Type := mkProgressModal { pm_language : string }.

(** The services a method awaits; each has its own call counter. *)
Inductive Service : Type :=
| SvcVaultRead | SvcOptions | SvcPrompt | SvcPreview
| SvcImage | SvcSave | SvcEmbed | SvcClipboard.

Definition Service_index (s : Service) : nat :=
  match s with
  | SvcVaultRead => 0 | SvcOptions => 1 | SvcPrompt => 2 | SvcPreview => 3
  | SvcImage => 4 | SvcSave => 5 | SvcEmbed => 6 | SvcClipboard => 7
  end%nat.

Definition Service_eqb (a b : Service) : bool :=
  (Service_index a =? Service_index b)%nat.

(** What a method is suspended on, with the arguments it passed. *)
Inductive Awaited : Type :=
| VaultRead (f : TFile)
| QuickOptionsShown (m : QuickOptionsModal)
| GeneratePrompt (noteContent provider model apiKey : string)
| PreviewShown (shownPrompt : string)
| GenerateImage (imagePrompt apiKey model : string) (style : ImageStyle)
    (language : string) (size : ImageSize) (panelCount : number)
| SaveImage (data mime : string) (note : TFile) (folder : string)
| EmbedImage (note : TFile) (imagePath : string)
| ClipboardWrite (text : string)
| Sleep (ms : Z).

(** What a run leaves behind, in order.  [Suspend busy a]: the method
    awaited [a] while [isGenerating] was [busy].  [UpdateProgress modal st]:
    the plugin's [updateProgress(modal, st)]; the modal's own
    [updateProgress] runs when [modal] is not null. *)
Inductive Event : Type :=
| Suspend (busy : bool) (a : Awaited)
| Notice (msg : string)
| ModalOpen (m : ProgressModal)
| ModalClose
| UpdateProgress (modal : option ProgressModal) (st : ProgressState)
| ShowSuccess (imagePath : string)
| ShowError (e : GenerationError).

(** How an awaited promise settles. *)
Inductive Answer (A : Type) : Type :=
| Resolves (a : A)
| Rejects (t : Thrown).
Arguments Resolves {A} a.
Arguments Rejects {A} t.

(** The host, the user and the providers.  [optionsUser i] is what the
    user does in the [i]-th options modal: some choices, then Generate
    ([true]) or Cancel ([false]).  A modal that is dismissed without a
    button never settles its promise; the method then stays suspended for
    good, and such runs are not part of the model.  [previewResult i] is
    what the [i]-th preview modal resolves to. *)
Record Env : Type := mkEnv {
  activeFile : option TFile;
  getAbstractFileByPath : string -> option AbstractFile;
  readResult : nat -> Answer string;
  optionsUser : nat -> list OptionsAction * bool;
  promptResult : nat -> Answer PromptResult;
  previewResult : nat -> PreviewModalResult;
  imageResult : nat -> Answer ImageResult;
  saveResult : nat -> Answer string;
  embedResult : nat -> Answer unit;
  clipboardResult : nat -> Answer unit
}.

(** [progressModal] is the local variable of that name of the entry point
    that is running; it is shared between its [try] and [catch] blocks. *)
Record World : Type := mkWorld {
  plugin : Plugin;
  progressModal : option ProgressModal;
  calls : Service -> nat
}.

Definition bump (s : Service) (c : Service -> nat) : Service -> nat :=
  fun s' => if Service_eqb s s' then S (c s') else c s'.

(** ** The monad of [async] methods *)

(** How a method ends: it returns, it throws (its promise rejects), or
    ([Stuck]) the preview loop is still going round when the fuel is used
    up. *)
Inductive Outcome (A : Type) : Type :=
| Done (a : A)
| Raise (t : Thrown)
| Stuck.
Arguments Done {A} a.
Arguments Raise {A} t.
Arguments Stuck {A}.

Definition M (A : Type) : Type := World -> Outcome A * World * list Event.

Definition ret {A} (a : A) : M A := fun w => (Done a, w, []).

Definition bind {A B} (m : M A) (k : A -> M B) : M B :=
  fun w =>
    match m w with
    | (Done a, w1, es1) => let '(o, w2, es2) := k a w1 in (o, w2, es1 ++ es2)
    | (Raise t, w1, es1) => (Raise t, w1, es1)
    | (Stuck, w1, es1) => (Stuck, w1, es1)
    end.

Notation "x <- m ;; k" := (bind m (fun x => k))
  (at level 61, m at next level, right associativity).
Notation "m ;;; k" := (bind m (fun _ => k))
  (at level 61, right associativity).

Definition throw {A} (t : Thrown) : M A := fun w => (Raise t, w, []).

(** [try { body } catch (error) { handler }] *)
Definition try_catch {A} (body : M A) (handler : Thrown -> M A) : M A :=
  fun w =>
    match body w with
    | (Raise t, w1, es1) => let '(o, w2, es2) := handler t w1 in (o, w2, es1 ++ es2)
    | r => r
    end.

(** [try { body } finally { cleanup }] for a cleanup that only assigns. *)
Definition finally {A} (body : M A) (cleanup : World -> World) : M A :=
  fun w =>
    match body w with
    | (Stuck, w1, es1) => (Stuck, w1, es1)
    | (o, w1, es1) => (o, cleanup w1, es1)
    end.

Definition emit (e : Event) : M unit := fun w => (Done tt, w, [e]).

Definition getPlugin : M Plugin := fun w => (Done (plugin w), w, []).

Definition getSettings : M NanoBananaSettings :=
  fun w => (Done (settings (plugin w)), w, []).

Definition getModal : M (option ProgressModal) :=
  fun w => (Done (progressModal w), w, []).

Definition setModal (m : option ProgressModal) : M unit :=
  fun w => (Done tt, mkWorld (plugin w) m (calls w), []).

Definition with_isGenerating (b : bool) (w : World) : World :=
  mkWorld (mkPlugin (settings (plugin w)) (lastPrompt (plugin w))
             (lastNoteFile (plugin w)) b)
    (progressModal w) (calls w).

Definition setIsGenerating (b : bool) : M unit :=
  fun w => (Done tt, with_isGenerating b w, []).

Definition setLastPrompt (p : string) : M unit :=
  fun w => (Done tt,
            mkWorld (mkPlugin (settings (plugin w)) p (lastNoteFile (plugin w))
                       (isGenerating (plugin w)))
              (progressModal w) (calls w), []).

Definition setLastNoteFile (f : option TFile) : M unit :=
  fun w => (Done tt,
            mkWorld (mkPlugin (settings (plugin w)) (lastPrompt (plugin w)) f
                       (isGenerating (plugin w)))
              (progressModal w) (calls w), []).

(** An awaited call to service [svc]: the answer is the oracle's at the
    service's call count, which it advances. *)
Definition invoke {A} (svc : Service) (a : Awaited) (oracle : nat -> Answer A) : M A :=
  fun w =>
    (match oracle (calls w svc) with
     | Resolves x => Done x
     | Rejects t => Raise t
     end,
     mkWorld (plugin w) (progressModal w) (bump svc (calls w)),
     [Suspend (isGenerating (plugin w)) a]).

(** [sleep(ms)] *)
Definition sleep (ms : Z) : M unit :=
  fun w => (Done tt, w, [Suspend (isGenerating (plugin w)) (Sleep ms)]).

Definition notice (msg : string) : M unit := emit (Notice msg).

(** ** [executeWithRetry] *)

Definition isError (t : Thrown) : bool :=
  match t with
  | OtherValue _ => false
  | _ => true
  end.

(** [error instanceof Error ? error : new Error(String(error))] *)
Definition as_Error (t : Thrown) : Thrown :=
  match t with
  | OtherValue asString => ErrorObj asString
  | _ => t
  end.

(** [error instanceof GenerationErrorClass && error.retryable] *)
Definition retryable (t : Thrown) : bool :=
  match t with
  | GenErrorObj e => ge_retryable e
  | _ => false
  end.

(** The [for] loop.  [fuel] bounds the iterations left; the loop test reads
    [settings.autoRetryCount] anew each time round. *)
Fixpoint retryLoop {T} (operation : M T) (fuel : nat) (attempt : Z)
    (lastError : option Thrown) : M T :=
  fun w =>
    if attempt <=? autoRetryCount (settings (plugin w)) then
      match fuel with
      | O => (Stuck, w, [])
      | S fuel' =>
          try_catch operation
            (fun error =>
               let lastError' := as_Error error in
               s <- getSettings ;;
               if negb (retryable error) || (attempt =? autoRetryCount s)
               then throw lastError'
               else
                 sleep (2 ^ attempt * 1000) ;;;
                 retryLoop operation fuel' (attempt + 1) (Some lastError')) w
      end
    else
      throw (match lastError with
             | Some e => e
             | None => ErrorObj "Operation failed with no error details"
             end) w.

Definition executeWithRetry {T} (operation : M T) : M T :=
  fun w =>
    retryLoop operation (Z.to_nat (autoRetryCount (settings (plugin w)) + 1)) 0 None w.

(** ** The entry points of [NanoBananaPlugin] *)

Section Orchestrator.

Variable env : Env.

(** [this.updateProgress(modal, state)] *)
Definition updateProgress (modal : option ProgressModal) (state : ProgressState) : M unit :=
  emit (UpdateProgress modal state).

(** [this.updateProgress(progressModal, { step, progress, message:
    this.getProgressMessage(step) })] *)
Definition reportProgress (st : ProgressStep) (pct : Z) : M unit :=
  modal <- getModal ;;
  s <- getSettings ;;
  updateProgress modal (mkProgressState st pct (getProgressMessage s st)).

(** [progressModal = new ProgressModal(app, preferredLanguage);
    progressModal.open()] *)
Definition openProgressModal : M unit :=
  s <- getSettings ;;
  let m := mkProgressModal (preferredLanguage s) in
  setModal (Some m) ;;;
  emit (ModalOpen m).

Definition showPreviewModal (shown : string) : M PreviewModalResult :=
  invoke SvcPreview (PreviewShown shown) (fun i => Resolves (previewResult env i)).

Definition showQuickOptionsModal : M QuickOptionsResult :=
  s <- getSettings ;;
  let modal := newQuickOptionsModal (imageStyle s) (imageSize s)
                 (cartoonCuts s) (customCartoonCuts s) in
  invoke SvcOptions (QuickOptionsShown modal)
    (fun i => let '(actions, generate) := optionsUser env i in
              Resolves (runQuickOptions modal actions generate)).

(** The closure given to [executeWithRetry] for the prompt step:
    [promptService.generatePrompt(noteContent, settings.selectedProvider,
    settings.promptModel, providerKey)]. *)
Definition promptOperation (noteContent providerKey : string) : M PromptResult :=
  s <- getSettings ;;
  invoke SvcPrompt
    (GeneratePrompt noteContent (selectedProvider s) (promptModel s) providerKey)
    (promptResult env).

(** The closure given to [executeWithRetry] for the image step of
    [generatePoster]. *)
Definition imageOperation (finalPrompt : string) (selectedStyle : ImageStyle)
    (selectedSize : ImageSize) (selectedCartoonCuts : number) : M ImageResult :=
  s <- getSettings ;;
  invoke SvcImage
    (GenerateImage finalPrompt (googleApiKey s) (imageModel s) selectedStyle
       (preferredLanguage s) selectedSize selectedCartoonCuts)
    (imageResult env).

(** The closure given to [executeWithRetry] in [regenerateLastPoster]:
    every argument is read from the plugin when the call is made. *)
Definition regenerateOperation : M ImageResult :=
  p <- getPlugin ;;
  let s := settings p in
  invoke SvcImage
    (GenerateImage (lastPrompt p) (googleApiKey s) (imageModel s) (imageStyle s)
       (preferredLanguage s) (imageSize s)
       (getCartoonCutsNumber (cartoonCuts s) (customCartoonCuts s)))
    (imageResult env).

Definition saveImage (data mime : string) (note : TFile) (folder : string) : M string :=
  invoke SvcSave (SaveImage data mime note folder) (saveResult env).

Definition embedImageInNote (note : TFile) (imagePath : string) : M unit :=
  invoke SvcEmbed (EmbedImage note imagePath) (embedResult env).

(** Steps 3 to 5 of the loop body of [generatePoster], and its success
    report. *)
Definition posterImageSteps (noteFile : TFile) (finalPrompt : string)
    (selectedStyle : ImageStyle) (selectedSize : ImageSize)
    (selectedCartoonCuts : number) : M unit :=
  reportProgress generating_image 50 ;;;
  imageResult <- executeWithRetry
    (imageOperation finalPrompt selectedStyle selectedSize selectedCartoonCuts) ;;
  reportProgress saving 80 ;;;
  s <- getSettings ;;
  imagePath <- saveImage (imageData imageResult) (mimeType imageResult) noteFile
                 (attachmentFolder s) ;;
  reportProgress embedding 95 ;;;
  embedImageInNote noteFile imagePath ;;;
  reportProgress complete 100 ;;;
  modal <- getModal ;;
  match modal with
  | Some _ => emit (ShowSuccess imagePath)
  | None => notice "✅ knowledge poster generated successfully!"
  end.

(** The [while (shouldRegenerate)] loop of [generatePoster]; one unit of
    [fuel] per round.  A round ends the loop unless the preview asks for a
    regeneration. *)
Fixpoint posterLoop (fuel : nat) (noteFile : TFile) (noteContent providerKey : string)
    (selectedStyle : ImageStyle) (selectedSize : ImageSize)
    (selectedCartoonCuts : number) : M unit :=
  match fuel with
  | O => fun w => (Stuck, w, [])
  | S fuel' =>
      s <- getSettings ;;
      (if showProgressModal s then openProgressModal else ret tt) ;;;
      reportProgress generating_prompt 20 ;;;
      promptResult <- executeWithRetry (promptOperation noteContent providerKey) ;;
      let finalPrompt := prompt promptResult in
      setLastPrompt finalPrompt ;;;
      s <- getSettings ;;
      let finalPrompt :=
        if (customPromptPrefix s =? "")%string then finalPrompt
        else (customPromptPrefix s ++ String "010" (String "010" finalPrompt))%string in
      s <- getSettings ;;
      if showPreviewBeforeGeneration s then
        modal <- getModal ;;
        match modal with
        | Some _ => emit ModalClose ;;; setModal None
        | None => ret tt
        end ;;;
        previewResult <- showPreviewModal finalPrompt ;;
        if negb (pv_confirmed previewResult) then
          setIsGenerating false
        else if pv_regenerate previewResult then
          posterLoop fuel' noteFile noteContent providerKey
            selectedStyle selectedSize selectedCartoonCuts
        else
          let finalPrompt := pv_prompt previewResult in
          s <- getSettings ;;
          (if showProgressModal s then openProgressModal else ret tt) ;;;
          posterImageSteps noteFile finalPrompt selectedStyle selectedSize
            selectedCartoonCuts
      else
        posterImageSteps noteFile finalPrompt selectedStyle selectedSize
          selectedCartoonCuts
  end.

(** The [catch] block of [generatePoster].  Its console logging, which
    comes after the report, is left out: the thrown values of the model
    are those it can print. *)
Definition posterCatch (error : Thrown) : M unit :=
  let genError := toGenerationError error in
  modal <- getModal ;;
  match modal with
  | Some _ => emit (ShowError genError)
  | None => notice ("❌ generation failed: " ++ ge_message genError)%string
  end.

Definition generatePoster (fuel : nat) : M unit :=
  p <- getPlugin ;;
  if isGenerating p then notice "Generation already in progress"
  else
    match activeFile env with
    | None => notice "Please open a note first"
    | Some noteFile =>
        noteContent <- invoke SvcVaultRead (VaultRead noteFile) (readResult env) ;;
        if trim_is_empty noteContent then
          notice "Note is empty. Please add some content first."
        else
          s <- getSettings ;;
          let providerKey := getProviderApiKey s in
          if (providerKey =? "")%string then
            notice (selectedProvider s ++
                    " API key is not configured. Please check settings.")%string
          else
            s <- getSettings ;;
            if (googleApiKey s =? "")%string then
              notice "Google API key is required for image generation. Please configure it in settings."
            else
              quickOptions <- showQuickOptionsModal ;;
              if negb (confirmed quickOptions) then ret tt
              else
                let selectedStyle := qo_imageStyle quickOptions in
                let selectedSize := qo_imageSize quickOptions in
                let selectedCartoonCuts :=
                  getCartoonCutsNumber (qo_cartoonCuts quickOptions)
                    (qo_customCartoonCuts quickOptions) in
                setIsGenerating true ;;;
                setLastNoteFile (Some noteFile) ;;;
                setModal None ;;;
                finally
                  (try_catch
                     (posterLoop fuel noteFile noteContent providerKey
                        selectedStyle selectedSize selectedCartoonCuts)
                     posterCatch)
                  (with_isGenerating false)
    end.

Definition generatePromptOnly : M unit :=
  match activeFile env with
  | None => notice "Please open a note first"
  | Some noteFile =>
      noteContent <- invoke SvcVaultRead (VaultRead noteFile) (readResult env) ;;
      if trim_is_empty noteContent then notice "Note is empty"
      else
        s <- getSettings ;;
        let providerKey := getProviderApiKey s in
        if (providerKey =? "")%string then
          notice (selectedProvider s ++ " API key is not configured")%string
        else
          try_catch
            (notice "Generating prompt..." ;;;
             result <- promptOperation noteContent providerKey ;;
             invoke SvcClipboard (ClipboardWrite (prompt result)) (clipboardResult env) ;;;
             setLastPrompt (prompt result) ;;;
             notice "✅ prompt copied to clipboard!")
            (fun error =>
               let genError := toGenerationError error in
               notice ("❌ failed: " ++ ge_message genError)%string)
  end.

(** The [try] block of [regenerateLastPoster].  [noteFile] is
    [this.lastNoteFile], which the guards found non-null and which nothing
    in the block assigns. *)
Definition regenerateBody (noteFile : TFile) : M unit :=
  s <- getSettings ;;
  (if showProgressModal s then openProgressModal else ret tt) ;;;
  reportProgress generating_image 40 ;;;
  imageResult <- executeWithRetry regenerateOperation ;;
  reportProgress saving 80 ;;;
  s <- getSettings ;;
  imagePath <- saveImage (imageData imageResult) (mimeType imageResult) noteFile
                 (attachmentFolder s) ;;
  reportProgress embedding 95 ;;;
  embedImageInNote noteFile imagePath ;;;
  modal <- getModal ;;
  match modal with
  | Some _ => emit (ShowSuccess imagePath)
  | None => notice "✅ poster regenerated successfully!"
  end.

Definition regenerateCatch (error : Thrown) : M unit :=
  let genError := toGenerationError error in
  modal <- getModal ;;
  match modal with
  | Some _ => emit (ShowError genError)
  | None => notice ("❌ regeneration failed: " ++ ge_message genError)%string
  end.

Definition regenerateLastPoster : M unit :=
  p <- getPlugin ;;
  if (lastPrompt p =? "")%string then
    notice "No previous generation found. Please generate a poster first."
  else
    match lastNoteFile p with
    | None => notice "Original note not found. Please generate a new poster."
    | Some noteFile =>
        match getAbstractFileByPath env (path noteFile) with
        | Some (IsFile _) =>
            p <- getPlugin ;;
            if isGenerating p then notice "Generation already in progress"
            else
              setIsGenerating true ;;;
              setModal None ;;;
              finally (try_catch (regenerateBody noteFile) regenerateCatch)
                (with_isGenerating false)
        | _ => notice "Original note was moved or deleted"
        end
    end.

End Orchestrator.

(** ** Observations on a run *)

(** A call to one of the two provider clients. *)
Definition is_provider_call (e : Event) : bool :=
  match e with
  | Suspend _ (GeneratePrompt _ _ _ _) => true
  | Suspend _ (GenerateImage _ _ _ _ _ _ _) => true
  | _ => false
  end.

Definition provider_calls (es : list Event) : list Event :=
  filter is_provider_call es.

(** Percentage passed to the plugin's [updateProgress]. *)
Definition milestone_of (e : Event) : list Z :=
  match e with
  | UpdateProgress _ st => [progress st]
  | _ => []
  end.

(** Percentages passed to the plugin's [updateProgress], in order. *)
Definition milestones (es : list Event) : list Z := flat_map milestone_of es.

(** Percentage that reached a progress modal's [updateProgress]. *)
Definition delivered_of (e : Event) : list Z :=
  match e with
  | UpdateProgress (Some _) st => [progress st]
  | _ => []
  end.

Definition delivered (es : list Event) : list Z := flat_map delivered_of es.

(** Style and panel count of a call to the image client. *)
Definition image_request_of (e : Event) : list (ImageStyle * number) :=
  match e with
  | Suspend _ (GenerateImage _ _ _ style _ _ cuts) => [(style, cuts)]
  | _ => []
  end.

Definition image_requests (es : list Event) : list (ImageStyle * number) :=
  flat_map image_request_of es.

(** Prompt of a call to the image client. *)
Definition image_prompt_of (e : Event) : list string :=
  match e with
  | Suspend _ (GenerateImage p _ _ _ _ _ _) => [p]
  | _ => []
  end.

Definition image_prompts (es : list Event) : list string := flat_map image_prompt_of es.

(** Credential of a call to the image client. *)
Definition image_key_of (e : Event) : list string :=
  match e with
  | Suspend _ (GenerateImage _ k _ _ _ _ _) => [k]
  | _ => []
  end.

Definition image_keys (es : list Event) : list string := flat_map image_key_of es.

(** The value of [isGenerating] at a suspension inside a session: a
    provider call, a sleep, the preview, the save or the embed (every await
    but the note read and the options modal, which precede the entry). *)
Definition session_flag_of (e : Event) : list bool :=
  match e with
  | Suspend _ (VaultRead _) => []
  | Suspend _ (QuickOptionsShown _) => []
  | Suspend b _ => [b]
  | _ => []
  end.

Definition session_flags (es : list Event) : list bool := flat_map session_flag_of es.




(** A showing of the preview modal. *)
Definition preview_of (e : Event) : list string :=
  match e with
  | Suspend _ (PreviewShown p) => [p]
  | _ => []
  end.

Definition previews (es : list Event) : list string := flat_map preview_of es.

(** The run reported success: [showSuccess] on the modal, or the success
    notice of either entry point. *)
Definition is_success (e : Event) : bool :=
  match e with
  | ShowSuccess _ => true
  | Notice msg =>
      (msg =? "✅ knowledge poster generated successfully!")%string
      || (msg =? "✅ poster regenerated successfully!")%string
  | _ => false
  end.

Definition succeeded (es : list Event) : bool := existsb is_success es.

Definition in_panel_range (n : number) : Prop :=
  match n with
  | Num z => 2 <= z <= 12
  | NaN => False
  end.

(** The trace of [k] failed attempts each followed by its back-off delay,
    then one more attempt; [attempt] is the index of the first. *)
Fixpoint retry_events (b : bool) (a : Awaited) (attempt : Z) (k : nat) : list Event :=
  match k with
  | O => [Suspend b a]
  | S k' =>
      Suspend b a :: Suspend b (Sleep (2 ^ attempt * 1000))
        :: retry_events b a (attempt + 1) k'
  end.

(** The world after [k] answered calls to [svc]. *)
Definition after_calls (svc : Service) (k : nat) (w : World) : World :=
  mkWorld (plugin w) (progressModal w) (Nat.iter k (bump svc) (calls w)).

(** [op] is one remote call: a call to [svc] whose arguments are read from
    the plugin when it is made. *)
Definition single_call {T} (op : M T) (svc : Service) (args : Plugin -> Awaited)
    (oracle : nat -> Answer T) : Prop :=
  forall w, op w = invoke svc (args (plugin w)) oracle w.

(** The three parts of the result of a run. *)
Definition outcome_of {A} (r : Outcome A * World * list Event) : Outcome A := fst (fst r).
Definition world_of {A} (r : Outcome A * World * list Event) : World := snd (fst r).
Definition events_of {A} (r : Outcome A * World * list Event) : list Event := snd r.

(** Arguments of the three operations that are retried. *)
Definition promptArgs (noteContent providerKey : string) (p : Plugin) : Awaited :=
  GeneratePrompt noteContent (selectedProvider (settings p)) (promptModel (settings p))
    providerKey.

Definition imageArgs (finalPrompt : string) (selectedStyle : ImageStyle)
    (selectedSize : ImageSize) (selectedCartoonCuts : number) (p : Plugin) : Awaited :=
  GenerateImage finalPrompt (googleApiKey (settings p)) (imageModel (settings p))
    selectedStyle (preferredLanguage (settings p)) selectedSize selectedCartoonCuts.

Definition regenerateArgs (p : Plugin) : Awaited :=
  GenerateImage (lastPrompt p) (googleApiKey (settings p)) (imageModel (settings p))
    (imageStyle (settings p)) (preferredLanguage (settings p)) (imageSize (settings p))
    (getCartoonCutsNumber (cartoonCuts (settings p)) (customCartoonCuts (settings p))).


(** The cached prompt is a raw answer of the prompt client (or still the
    empty string the plugin starts with). *)
Definition cache_is_raw (env : Env) (w : World) : Prop :=
  lastPrompt (plugin w) = "" \/
  exists (i : nat) (r : PromptResult),
    (i < calls w SvcPrompt)%nat /\
    promptResult env i = Resolves r /\
    lastPrompt (plugin w) = prompt r.

(** From [w] to [w']: the cached prompt was left alone, or it now is the
    prompt answered by one of the prompt-client calls made in between. *)
Definition cache_update (env : Env) (w w' : World) : Prop :=
  (calls w SvcPrompt <= calls w' SvcPrompt)%nat /\
  (lastPrompt (plugin w') = lastPrompt (plugin w) \/
   exists (i : nat) (r : PromptResult),
     (calls w SvcPrompt <= i < calls w' SvcPrompt)%nat /\
     promptResult env i = Resolves r /\
     lastPrompt (plugin w') = prompt r).

(** Last character of a string. *)
Fixpoint last_char (s : string) : option ascii :=
  match s with
  | EmptyString => None
  | String c EmptyString => Some c
  | String _ r => last_char r
  end.

(** A trace made only of calls [a] and sleeps, all under flag [b]. *)
Definition retry_trace (b : bool) (a : Awaited) (es : list Event) : Prop :=
  Forall (fun e => e = Suspend b a \/ exists ms, e = Suspend b (Sleep ms)) es.

(** The cached note reference still names a file of the vault. *)
Definition resolves_to_file (env : Env) (f : TFile) : bool :=
  match getAbstractFileByPath env (path f) with
  | Some (IsFile _) => true
  | _ => false
  end.

(** Number of prompt-generation rounds of a fresh run: one per preview
    shown when the preview is enabled, one otherwise. *)
Definition rounds (s : NanoBananaSettings) (es : list Event) : nat :=
  if showPreviewBeforeGeneration s then List.length (previews es) else 1%nat.


(** ** Scenarios *)

Definition tcp_note : TFile := mkTFile "notes/tcp.md".

Definition scenario_settings (googleKey : string) (style : ImageStyle)
    (cuts : CartoonCuts) (custom : number) (showProgress showPreview : bool)
    (prefix : string) (retries : Z) : NanoBananaSettings :=
  mkSettings "google" "prompt-model" "image-model" "" googleKey "" ""
    style size_2K cuts custom "en" showProgress showPreview prefix "attachments" retries.

Definition scenario_env (actions : list OptionsAction)
    (prompts : nat -> Answer PromptResult) (previewAnswers : nat -> PreviewModalResult)
    (images : nat -> Answer ImageResult) : Env :=
  mkEnv (Some tcp_note)
    (fun p => if (p =? "notes/tcp.md")%string then Some (IsFile tcp_note) else None)
    (fun _ => Resolves "Explain TCP handshake")
    (fun _ => (actions, true))
    prompts previewAnswers images
    (fun _ => Resolves "attachments/poster.png")
    (fun _ => Resolves tt)
    (fun _ => Resolves tt).

(** A plugin that has just been loaded. *)
Definition fresh_world (s : NanoBananaSettings) : World :=
  mkWorld (mkPlugin s "" None false) None (fun _ => O).

(** A plugin after an earlier generation from [tcp_note] cached [p]. *)
Definition world_with_cache (s : NanoBananaSettings) (p : string) (busy : bool) : World :=
  mkWorld (mkPlugin s p (Some tcp_note) busy) None (fun _ => O).

Definition accept_preview : PreviewModalResult := mkPreviewModalResult true false "edited prompt".
Definition ask_regeneration : PreviewModalResult := mkPreviewModalResult true true "".

Definition a_poster : Answer ImageResult := Resolves (mkImageResult "bytes" "image/png").
Definition a_prompt : Answer PromptResult := Resolves (mkPromptResult "A diagram of SYN, SYN-ACK, ACK").

Definition rate_limited : GenerationError :=
  mkGenerationError RATE_LIMIT "Rate limit exceeded" true None.
Definition bad_key : GenerationError :=
  mkGenerationError INVALID_API_KEY "Invalid API key" false None.

(** Scenario A of the specification: diagram, 2K, no preview. *)
Definition settings_A : NanoBananaSettings :=
  scenario_settings "g-key" diagram cuts_4 (Num 4) true false "" 2.
Definition env_A : Env :=
  scenario_env [] (fun _ => a_prompt) (fun _ => accept_preview) (fun _ => a_poster).

(** Scenario A with the progress modal disabled. *)
Definition settings_no_modal : NanoBananaSettings :=
  scenario_settings "g-key" diagram cuts_4 (Num 4) false false "" 2.

(** The preview is on, a prefix is configured; the user asks for one
    regeneration, then edits the prompt and accepts. *)
Definition settings_preview : NanoBananaSettings :=
  scenario_settings "g-key" diagram cuts_4 (Num 4) true true "Poster:" 2.
Definition env_regenerate_once : Env :=
  scenario_env [] (fun _ => a_prompt)
    (fun i => match i with O => ask_regeneration | _ => accept_preview end)
    (fun _ => a_poster).

(** Cartoon style with a configured custom panel count of 15. *)
Definition settings_15_panels : NanoBananaSettings :=
  scenario_settings "g-key" cartoon cuts_custom (Num 15) true false "" 2.

(** Scenario B: the user types 15 in the custom panel count field. *)
Definition env_types_15 : Env :=
  scenario_env [TypeCustomCuts "15"] (fun _ => a_prompt) (fun _ => accept_preview)
    (fun _ => a_poster).

(** Scenario C: the prompt client rejects the key on its first call. *)
Definition env_bad_key_once : Env :=
  scenario_env []
    (fun i => match i with O => Rejects (GenErrorObj bad_key) | _ => a_prompt end)
    (fun _ => accept_preview) (fun _ => a_poster).

(** The prompt client is rate limited on every call. *)
Definition env_rate_limited : Env :=
  scenario_env [] (fun _ => Rejects (GenErrorObj rate_limited)) (fun _ => accept_preview)
    (fun _ => a_poster).

(** Scenario B: cartoon style, custom selector, configured count 4. *)
Definition settings_cartoon_custom : NanoBananaSettings :=
  scenario_settings "g-key" cartoon cuts_custom (Num 4) true false "" 2.

(** The Google key has been removed from the settings after a poster was
    generated; the image client rejects the empty key. *)
Definition settings_no_google_key : NanoBananaSettings :=
  scenario_settings "" diagram cuts_4 (Num 4) true false "" 2.
Definition env_image_rejects_key : Env :=
  scenario_env [] (fun _ => a_prompt) (fun _ => accept_preview)
    (fun _ => Rejects (GenErrorObj bad_key)).

(** ** Further observations on a run *)

(** Milliseconds passed to [sleep]. *)
Definition delay_of (e : Event) : list Z :=
  match e with
  | Suspend _ (Sleep ms) => [ms]
  | _ => []
  end.

Definition delays (es : list Event) : list Z := flat_map delay_of es.

Definition total (l : list Z) : Z := fold_right Z.add 0 l.

(** The trace of [k] attempts, the first of index [attempt], with a
    back-off delay between one attempt and the next. *)
Definition attempts_from (b : bool) (a : Awaited) (attempt : Z) (k : nat) : list Event :=
  match k with
  | O => []
  | S k' => retry_events b a attempt k'
  end.

(** A read of a note. *)
Definition read_of (e : Event) : list TFile :=
  match e with
  | Suspend _ (VaultRead f) => [f]
  | _ => []
  end.

Definition reads (es : list Event) : list TFile := flat_map read_of es.

(** Style, size and panel count of a call to the image client. *)
Definition image_option_of (e : Event) : list (ImageStyle * ImageSize * number) :=
  match e with
  | Suspend _ (GenerateImage _ _ _ style _ size cuts) => [(style, size, cuts)]
  | _ => []
  end.

Definition image_options (es : list Event) : list (ImageStyle * ImageSize * number) :=
  flat_map image_option_of es.

(** Arguments of a call to the prompt client. *)
Definition prompt_request_of (e : Event) : list (string * string * string * string) :=
  match e with
  | Suspend _ (GeneratePrompt noteContent provider model apiKey) =>
      [(noteContent, provider, model, apiKey)]
  | _ => []
  end.

Definition prompt_requests (es : list Event) : list (string * string * string * string) :=
  flat_map prompt_request_of es.

(** Credential of a call to either provider client. *)
Definition provider_key_of (e : Event) : list string :=
  match e with
  | Suspend _ (GeneratePrompt _ _ _ apiKey) => [apiKey]
  | Suspend _ (GenerateImage _ apiKey _ _ _ _ _) => [apiKey]
  | _ => []
  end.

Definition provider_keys (es : list Event) : list string := flat_map provider_key_of es.

(** Arguments of a call to [fileService.saveImage]. *)
Definition save_of (e : Event) : list (string * string * TFile * string) :=
  match e with
  | Suspend _ (SaveImage data mime note folder) => [(data, mime, note, folder)]
  | _ => []
  end.

Definition saves (es : list Event) : list (string * string * TFile * string) :=
  flat_map save_of es.

(** Arguments of a call to [fileService.embedImageInNote]. *)
Definition embed_of (e : Event) : list (TFile * string) :=
  match e with
  | Suspend _ (EmbedImage note imagePath) => [(note, imagePath)]
  | _ => []
  end.

Definition embeds (es : list Event) : list (TFile * string) := flat_map embed_of es.

(** Text written to the clipboard. *)
Definition copied_of (e : Event) : list string :=
  match e with
  | Suspend _ (ClipboardWrite text) => [text]
  | _ => []
  end.

Definition copied (es : list Event) : list string := flat_map copied_of es.

(** [s] begins with [p]. *)
Fixpoint starts_with (p s : string) : bool :=
  match p, s with
  | EmptyString, _ => true
  | String a p', String b s' => Ascii.eqb a b && starts_with p' s'
  | String _ _, EmptyString => false
  end.

(** The run reported a failure: [showError] on the modal, or one of the
    failure notices of the three entry points (they begin with a cross
    mark). *)
Definition is_failure (e : Event) : bool :=
  match e with
  | ShowError _ => true
  | Notice msg => starts_with "❌ " msg
  | _ => false
  end.

Definition failed (es : list Event) : bool := existsb is_failure es.

(** The final reports of a run, of success or of failure. *)
Definition report_of (e : Event) : list Event :=
  if is_success e || is_failure e then [e] else [].

Definition reports (es : list Event) : list Event := flat_map report_of es.

(** The event as it is recorded when [isGenerating] is [b]. *)
Definition with_busy (b : bool) (e : Event) : Event :=
  match e with
  | Suspend _ a => Suspend b a
  | _ => e
  end.

(** The guards of [generatePoster] let the request through: no generation
    in progress, an active note whose content is read and is not blank,
    both credentials present, the options modal confirmed. *)
Definition poster_entry_ok (env : Env) (w : World) : bool :=
  negb (isGenerating (plugin w)) &&
  match activeFile env with
  | None => false
  | Some _ =>
      match readResult env (calls w SvcVaultRead) with
      | Rejects _ => false
      | Resolves noteContent =>
          negb (trim_is_empty noteContent) &&
          negb (getProviderApiKey (settings (plugin w)) =? "")%string &&
          negb (googleApiKey (settings (plugin w)) =? "")%string &&
          snd (optionsUser env (calls w SvcOptions))
      end
  end.

(** The guards of [regenerateLastPoster] let the request through. *)
Definition regenerate_entry_ok (env : Env) (w : World) : bool :=
  negb (lastPrompt (plugin w) =? "")%string &&
  match lastNoteFile (plugin w) with
  | None => false
  | Some noteFile => resolves_to_file env noteFile
  end &&
  negb (isGenerating (plugin w)).

(** What the options modal of a fresh run resolves to. *)
Definition optionsResult (env : Env) (w : World) : QuickOptionsResult :=
  let s := settings (plugin w) in
  runQuickOptions
    (newQuickOptionsModal (imageStyle s) (imageSize s) (cartoonCuts s) (customCartoonCuts s))
    (fst (optionsUser env (calls w SvcOptions)))
    (snd (optionsUser env (calls w SvcOptions))).


(** The file service is given what the image client returned and the note
    of the session; the path it returns is what is embedded; and success
    is reported only once both have resolved. *)
Definition storage_follows (env : Env) (noteFile : TFile) (w : World)
    (es : list Event) : Prop :=
  (saves es = [] \/
   exists (i : nat) (img : ImageResult),
     imageResult env i = Resolves img /\
     saves es =
       [(imageData img, mimeType img, noteFile, attachmentFolder (settings (plugin w)))]) /\
  (embeds es = [] \/
   exists imagePath : string,
     saveResult env (calls w SvcSave) = Resolves imagePath /\
     embeds es = [(noteFile, imagePath)] /\
     saves es <> []) /\
  (succeeded es = true ->
   exists imagePath : string,
     saveResult env (calls w SvcSave) = Resolves imagePath /\
     embedResult env (calls w SvcEmbed) = Resolves tt /\
     embeds es = [(noteFile, imagePath)]).

(** ** The text shown in the custom panel count field *)

(** [String(n)] for a panel count: the decimal numeral of an integer, and
    'NaN'.  That is the text JavaScript gives for the integers up to [2^53]
    in magnitude.  A larger integer that a double holds prints as the
    shortest digits that read back as the same double, filled up with
    zeros, which is another text for the same number; from [10^21] on
    JavaScript uses the exponent notation. *)
Definition String_of_number (n : number) : string :=
  match n with
  | Num z => DecimalString.NilZero.string_of_int (Z.to_int z)
  | NaN => "NaN"
  end.

(** The custom field as [updateCartoonSettings] fills it in: the text of
    the current count. *)
Definition customFieldText (m : QuickOptionsModal) : string :=
  String_of_number (selectedCustomCuts m).

(** None of the user's choices selects the cartoon style. *)
Fixpoint never_cartoon (actions : list OptionsAction) : bool :=
  match actions with
  | [] => true
  | ChooseStyle s :: rest => negb (ImageStyle_eqb s cartoon) && never_cartoon rest
  | _ :: rest => never_cartoon rest
  end.

(** ** [progressModal.ts] *)

Module ProgressModalView.

(** The texts of [i18n.ts] that [getErrorSuggestions] chooses from. *)
Record UIMessages : Type := mkUIMessages {
  suggestionCheckApiKey : string;
  suggestionVerifyApiKey : string;
  suggestionActivateApiKey : string;
  suggestionWaitAndRetry : string;
  suggestionCheckQuota : string;
  suggestionCheckInternet : string;
  suggestionCheckVPN : string;
  suggestionTryDifferentStyle : string;
  suggestionModifyContent : string;
  suggestionContentMayBeSensitive : string;
  suggestionAddContent : string
}.

(** How a step element is marked: the hourglass and no class, the
    'active' class, the 'completed' class. *)
Inductive StepMark : Type := Pending | Active | Completed.

(** What [contentEl] holds. *)
Inductive Content : Type :=
| Blank
| ProgressView
| ErrorView (message : string) (details : option string) (suggestions : list string)
    (retryButton : bool)
| SuccessView (imagePath : string).

(** The elements [onOpen] creates and [updateProgress] writes to: the
    width of the bar and the percentage shown, and the mark of each
    step element. *)
Record Widgets : Type := mkWidgets {
  barWidth : option Z;
  progressText : Z;
  stepMarks : list StepMark
}.

(** A callback given to [setOnCancel], by name. *)
Definition Callback : Type := string.

Record t : Type := mk {
  messages : UIMessages;
  onCancel : option Callback;
  isCancelled : bool;
  isOpen : bool;
  content : Content;
  widgets : option Widgets;     (* undefined until [onOpen] *)
  pendingTimers : nat;          (* auto-close timers not yet fired *)
  callbacksRun : list Callback  (* [onCancel] callbacks run so far *)
}.

(** The keys of [this.steps], in order. *)
Definition steps : list ProgressStep :=
  [analyzing; generating_prompt; generating_image; saving; embedding].

Definition ProgressStep_eqb (a b : ProgressStep) : bool :=
  (step_key a =? step_key b)%string.

(** [steps.findIndex(s => s.key === key)], from index [i]. *)
Fixpoint findIndex_from (i : Z) (key : ProgressStep) (l : list ProgressStep) : Z :=
  match l with
  | [] => -1
  | k :: rest => if ProgressStep_eqb k key then i else findIndex_from (i + 1) key rest
  end.

Definition findIndex (key : ProgressStep) : Z := findIndex_from 0 key steps.

(** [new ProgressModal(app, language)]; [msgs] is [getMessages(language)]. *)
Definition new_ (msgs : UIMessages) : t :=
  mk msgs None false false Blank None O [].

(** [close()] of the host class, which runs [onClose]. *)
Definition close (m : t) : t :=
  mk (messages m) (onCancel m) (isCancelled m) false Blank (widgets m)
    (pendingTimers m) (callbacksRun m).

(** [open()] of the host class, which runs [onOpen]; [renderSteps] marks
    every step with the hourglass. *)
Definition open (m : t) : t :=
  mk (messages m) (onCancel m) (isCancelled m) true ProgressView
    (Some (mkWidgets None 0 (map (fun _ => Pending) steps)))
    (pendingTimers m) (callbacksRun m).

Definition setOnCancel (callback : Callback) (m : t) : t :=
  mk (messages m) (Some callback) (isCancelled m) (isOpen m) (content m) (widgets m)
    (pendingTimers m) (callbacksRun m).

(** The body of the [forEach] over the step elements, from index [index]. *)
Fixpoint markSteps (index stepIndex : Z) (els : list StepMark) : list StepMark :=
  match els with
  | [] => []
  | _ :: rest =>
      (if index <? stepIndex then Completed
       else if index =? stepIndex then Active
       else Pending) :: markSteps (index + 1) stepIndex rest
  end.

(** [updateProgress(state)]; [None] is the [TypeError] of writing to the
    bar before [onOpen] has created it. *)
Definition updateProgress (m : t) (state : ProgressState) : option t :=
  if isCancelled m then Some m
  else
    match widgets m with
    | None => None
    | Some wd =>
        let stepIndex := findIndex (step state) in
        Some (mk (messages m) (onCancel m) (isCancelled m) (isOpen m) (content m)
                (Some (mkWidgets (Some (progress state)) (progress state)
                         (markSteps 0 stepIndex (stepMarks wd))))
                (pendingTimers m) (callbacksRun m))
    end.

Definition getErrorSuggestions (msgs : UIMessages) (error : GenerationError) : list string :=
  match ge_type error with
  | INVALID_API_KEY =>
      [suggestionCheckApiKey msgs; suggestionVerifyApiKey msgs; suggestionActivateApiKey msgs]
  | RATE_LIMIT => [suggestionWaitAndRetry msgs; suggestionCheckQuota msgs]
  | NETWORK_ERROR => [suggestionCheckInternet msgs; suggestionCheckVPN msgs]
  | GENERATION_FAILED => [suggestionTryDifferentStyle msgs; suggestionModifyContent msgs]
  | CONTENT_FILTERED => [suggestionModifyContent msgs; suggestionContentMayBeSensitive msgs]
  | NO_CONTENT => [suggestionAddContent msgs]
  end.

(** [showError(error)]: the details paragraph exists when [error.details]
    is truthy, the suggestion box when there is a suggestion, the retry
    button when the error is retryable. *)
Definition showError (m : t) (error : GenerationError) : t :=
  mk (messages m) (onCancel m) (isCancelled m) (isOpen m)
    (ErrorView (ge_message error)
       (match ge_details error with
        | Some d => if (d =? "")%string then None else Some d
        | None => None
        end)
       (getErrorSuggestions (messages m) error)
       (ge_retryable error))
    (widgets m) (pendingTimers m) (callbacksRun m).

(** [showSuccess(imagePath)]; it starts the auto-close timer. *)
Definition showSuccess (m : t) (imagePath : string) : t :=
  mk (messages m) (onCancel m) (isCancelled m) (isOpen m) (SuccessView imagePath)
    (widgets m) (S (pendingTimers m)) (callbacksRun m).

(** The listener of the Cancel button. *)
Definition clickCancel (m : t) : t :=
  close (mk (messages m) (onCancel m) true (isOpen m) (content m) (widgets m)
           (pendingTimers m)
           (match onCancel m with
            | Some cb => callbacksRun m ++ [cb]
            | None => callbacksRun m
            end)).

(** The listener of the Retry button of the error view. *)
Definition clickRetry (m : t) : t :=
  match onCancel m with
  | Some _ => close m
  | None => m
  end.

(** The listener of the Close button of the error and success views. *)
Definition clickClose (m : t) : t := close m.

(** The auto-close timer of [showSuccess] fires. *)
Definition timerFires (m : t) : t :=
  let m' := mk (messages m) (onCancel m) (isCancelled m) (isOpen m) (content m) (widgets m)
              (Nat.pred (pendingTimers m)) (callbacksRun m) in
  if isCancelled m then m' else close m'.

(** What happens to a modal that [main.ts] has created: the calls the
    plugin makes on it, and what the user and the timer can do.  A button
    can be clicked while the modal is open and shows it. *)
Inductive Op : Type :=
| CallOpen
| CallClose
| CallUpdateProgress (state : ProgressState)
| CallShowError (error : GenerationError)
| CallShowSuccess (imagePath : string)
| UserCancel
| UserRetry
| UserClose
| TimerFires.

Definition perform (m : t) (op : Op) : option t :=
  match op with
  | CallOpen => Some (open m)
  | CallClose => Some (close m)
  | CallUpdateProgress state => updateProgress m state
  | CallShowError error => Some (showError m error)
  | CallShowSuccess imagePath => Some (showSuccess m imagePath)
  | UserCancel =>
      match isOpen m, content m with
      | true, ProgressView => Some (clickCancel m)
      | _, _ => Some m
      end
  | UserRetry =>
      match isOpen m, content m with
      | true, ErrorView _ _ _ true => Some (clickRetry m)
      | _, _ => Some m
      end
  | UserClose =>
      match isOpen m, content m with
      | true, ErrorView _ _ _ _ => Some (clickClose m)
      | true, SuccessView _ => Some (clickClose m)
      | _, _ => Some m
      end
  | TimerFires =>
      match pendingTimers m with
      | O => Some m
      | S _ => Some (timerFires m)
      end
  end.

Fixpoint run (m : t) (ops : list Op) : option t :=
  match ops with
  | [] => Some m
  | op :: rest =>
      match perform m op with
      | Some m' => run m' rest
      | None => None
      end
  end.

(** The marks [updateProgress] leaves for a step. *)
Definition marksFor (st : ProgressStep) : list StepMark :=
  markSteps 0 (findIndex st) (map (fun _ => Pending) steps).

End ProgressModalView.

Module PMV := ProgressModalView.

(** ** The progress modal as a run drives it *)

(** The modal held by the variable [progressModal] of an entry point, as
    the trace of the run drives it; the user does not touch it.
    [getMessages] is the function of that name of [i18n.ts].  The result is
    [None] when a method is called on a modal that is not there, or when
    [updateProgress] raises. *)
Fixpoint replay (getMessages : string -> PMV.UIMessages) (current : option PMV.t)
    (es : list Event) : option (option PMV.t) :=
  match es with
  | [] => Some current
  | e :: rest =>
      match e with
      | ModalOpen m =>
          replay getMessages (Some (PMV.open (PMV.new_ (getMessages (pm_language m))))) rest
      | ModalClose =>
          match current with
          | Some m => replay getMessages (Some (PMV.close m)) rest
          | None => None
          end
      | UpdateProgress (Some _) state =>
          match current with
          | Some m =>
              match PMV.updateProgress m state with
              | Some m' => replay getMessages (Some m') rest
              | None => None
              end
          | None => None
          end
      | ShowSuccess imagePath =>
          match current with
          | Some m => replay getMessages (Some (PMV.showSuccess m imagePath)) rest
          | None => None
          end
      | ShowError error =>
          match current with
          | Some m => replay getMessages (Some (PMV.showError m error)) rest
          | None => None
          end
      | _ => replay getMessages current rest
      end
  end.

(** The modal the variable [progressModal] of world [w] refers to is
    [current], opened and not cancelled; when the variable is null, no
    modal is left showing the progress view. *)
Definition modal_in_step (w : World) (current : option PMV.t) : Prop :=
  match progressModal w with
  | Some _ =>
      exists (m : PMV.t) (wd : PMV.Widgets),
        current = Some m /\ PMV.isCancelled m = false /\ PMV.widgets m = Some wd
  | None => forall m, current = Some m -> PMV.content m <> PMV.ProgressView
  end.

(** ** Further scenarios *)

(** The prompt client is rate limited on its first call only. *)
Definition env_rate_limited_once : Env :=
  scenario_env []
    (fun i => match i with O => Rejects (GenErrorObj rate_limited) | _ => a_prompt end)
    (fun _ => accept_preview) (fun _ => a_poster).

(** Scenario A with a negative retry count. *)
Definition settings_negative_retries : NanoBananaSettings :=
  scenario_settings "g-key" diagram cuts_4 (Num 4) true false "" (-1).

(** The error [executeWithRetry] throws when it makes no attempt. *)
Definition no_attempt_error : GenerationError :=
  mkGenerationError GENERATION_FAILED "Operation failed with no error details" false None.

(** The user cancels the options modal. *)
Definition env_options_cancelled : Env :=
  mkEnv (Some tcp_note)
    (fun p => if (p =? "notes/tcp.md")%string then Some (IsFile tcp_note) else None)
    (fun _ => Resolves "Explain TCP handshake")
    (fun _ => ([ChooseStyle cartoon], false))
    (fun _ => a_prompt) (fun _ => accept_preview) (fun _ => a_poster)
    (fun _ => Resolves "attachments/poster.png")
    (fun _ => Resolves tt)
    (fun _ => Resolves tt).

(** The clipboard refuses the write. *)
Definition env_clipboard_denied : Env :=
  mkEnv (Some tcp_note)
    (fun p => if (p =? "notes/tcp.md")%string then Some (IsFile tcp_note) else None)
    (fun _ => Resolves "Explain TCP handshake")
    (fun _ => ([], true))
    (fun _ => a_prompt) (fun _ => accept_preview) (fun _ => a_poster)
    (fun _ => Resolves "attachments/poster.png")
    (fun _ => Resolves tt)
    (fun _ => Rejects (ErrorObj "Document is not focused.")).

(** The user cancels in the preview. *)
Definition cancel_preview : PreviewModalResult := mkPreviewModalResult false false "".
Definition env_preview_cancelled : Env :=
  scenario_env [] (fun _ => a_prompt) (fun _ => cancel_preview) (fun _ => a_poster).

(** The note cannot be embedded once the image is saved. *)
Definition env_embed_fails : Env :=
  mkEnv (Some tcp_note)
    (fun p => if (p =? "notes/tcp.md")%string then Some (IsFile tcp_note) else None)
    (fun _ => Resolves "Explain TCP handshake")
    (fun _ => ([], true))
    (fun _ => a_prompt) (fun _ => accept_preview) (fun _ => a_poster)
    (fun _ => Resolves "attachments/poster.png")
    (fun _ => Rejects (ErrorObj "File is read-only"))
    (fun _ => Resolves tt).

(** The provider name is not in the letter case the code expects. *)
Definition settings_capitalised : NanoBananaSettings :=
  mkSettings "OpenAI" "prompt-model" "image-model" "sk-key" "g-key" "" ""
    diagram size_2K cuts_4 (Num 4) "en" true false "" "attachments" 2.

(** Stand-in texts for the suggestions of [i18n.ts]. *)
Definition sample_messages : ProgressModalView.UIMessages :=
  ProgressModalView.mkUIMessages
    "Check your API key in settings" "Verify the API key is valid"
    "Make sure the API key is activated" "Wait a moment and try again"
    "Check your API quota" "Check your internet connection" "Try disabling your VPN"
    "Try a different style" "Modify the note content"
    "The content may be sensitive" "Add more content to the note".

(** * Properties *)

(** ** Pure helpers *)

(** C8. [getCartoonCutsNumber] gives 4, 6 and 8 for the selectors '4', '6'
    and '8' whatever the custom value is, and for the selector 'custom' it
    gives the custom value as it is, with no clamping to [2,12]. *)
Theorem getCartoonCutsNumber_spec :
  forall customCuts : number,
    getCartoonCutsNumber cuts_4 customCuts = Num 4 /\
    getCartoonCutsNumber cuts_6 customCuts = Num 6 /\
    getCartoonCutsNumber cuts_8 customCuts = Num 8 /\
    getCartoonCutsNumber cuts_custom customCuts = customCuts.
Proof.
  intro customCuts. repeat split; reflexivity.
Qed.

Example getCartoonCutsNumber_custom_15 :
  getCartoonCutsNumber cuts_custom (Num 15) = Num 15.
Proof. reflexivity. Qed.




(** ** Entry guards *)

(** C2. While [isGenerating] is set, [generatePoster] and
    [regenerateLastPoster] both return at once: the world is unchanged, the
    only thing that happens is one notice, and no provider client is
    called. *)
Theorem single_flight_rejects :
  forall (env : Env) (fuel : nat) (w : World),
    isGenerating (plugin w) = true ->
    generatePoster env fuel w = (Done tt, w, [Notice "Generation already in progress"]) /\
    (exists msg : string,
       regenerateLastPoster env w = (Done tt, w, [Notice msg]) /\
       provider_calls [Notice msg] = []).
Proof.
  intros env fuel w Hbusy. split.
  - unfold generatePoster, bind, getPlugin. rewrite Hbusy. reflexivity.
  - unfold regenerateLastPoster, bind, getPlugin.
    destruct (lastPrompt (plugin w) =? "")%string; [ eexists; split; reflexivity | ].
    destruct (lastNoteFile (plugin w)) as [noteFile | ]; [ | eexists; split; reflexivity ].
    destruct (getAbstractFileByPath env (path noteFile)) as [ [ f | p ] | ];
      try (eexists; split; reflexivity).
    rewrite Hbusy. eexists; split; reflexivity.
Qed.

Lemma single_flight_rejects_witness :
  isGenerating (plugin (world_with_cache settings_A "a cached prompt" true)) = true /\
  events_of (generatePoster env_A 3 (world_with_cache settings_A "a cached prompt" true)) =
    [Notice "Generation already in progress"] /\
  events_of (regenerateLastPoster env_A (world_with_cache settings_A "a cached prompt" true)) =
    [Notice "Generation already in progress"].
Proof.
  destruct (single_flight_rejects env_A 3 (world_with_cache settings_A "a cached prompt" true)
              eq_refl) as [Hgen (msg & Hregen & _)].
  split; [ reflexivity | ]. split.
  - rewrite Hgen. reflexivity.
  - vm_compute. reflexivity.
Defined.

(** C4. [regenerateLastPoster] returns at once, with one notice, the world
    unchanged and no provider client called, when no prompt is cached, when
    no note reference is cached, and when the cached reference does not
    resolve to a file any more. *)
Theorem regenerate_fails_fast :
  forall (env : Env) (w : World),
    (lastPrompt (plugin w) = "" \/
     lastNoteFile (plugin w) = None \/
     exists f, lastNoteFile (plugin w) = Some f /\ resolves_to_file env f = false) ->
    exists msg : string,
      regenerateLastPoster env w = (Done tt, w, [Notice msg]) /\
      provider_calls [Notice msg] = [] /\
      (msg = "No previous generation found. Please generate a poster first." \/
       msg = "Original note not found. Please generate a new poster." \/
       msg = "Original note was moved or deleted").
Proof.
  intros env w H. unfold regenerateLastPoster, bind, getPlugin.
  destruct (lastPrompt (plugin w) =? "")%string eqn:Hp.
  { eexists; repeat split; auto. }
  destruct H as [H | H].
  { rewrite H in Hp. discriminate. }
  destruct (lastNoteFile (plugin w)) as [noteFile | ] eqn:Hf.
  2:{ eexists; repeat split; auto. }
  destruct H as [H | (f & Hf' & Hres)]; [ discriminate | ].
  injection Hf' as <-. unfold resolves_to_file in Hres.
  destruct (getAbstractFileByPath env (path noteFile)) as [ [ f | p ] | ];
    try discriminate; eexists; repeat split; auto.
Qed.

Lemma regenerate_fails_fast_witness :
  exists msg : string,
    regenerateLastPoster env_A (fresh_world settings_A) =
      (Done tt, fresh_world settings_A, [Notice msg]) /\
    provider_calls [Notice msg] = [] /\
    (msg = "No previous generation found. Please generate a poster first." \/
     msg = "Original note not found. Please generate a new poster." \/
     msg = "Original note was moved or deleted").
Proof.
  apply (regenerate_fails_fast env_A (fresh_world settings_A)). left. reflexivity.
Defined.

(** ** The retried operations are single remote calls *)

Lemma promptOperation_single_call :
  forall (env : Env) (noteContent providerKey : string),
    single_call (promptOperation env noteContent providerKey) SvcPrompt
      (promptArgs noteContent providerKey) (promptResult env).
Proof. intros env noteContent providerKey w. reflexivity. Qed.

Lemma imageOperation_single_call :
  forall (env : Env) (finalPrompt : string) (style : ImageStyle) (size : ImageSize)
         (cuts : number),
    single_call (imageOperation env finalPrompt style size cuts) SvcImage
      (imageArgs finalPrompt style size cuts) (imageResult env).
Proof. intros env finalPrompt style size cuts w. reflexivity. Qed.

Lemma regenerateOperation_single_call :
  forall env : Env,
    single_call (regenerateOperation env) SvcImage regenerateArgs (imageResult env).
Proof. intros env w. reflexivity. Qed.

(** ** The retry controller *)

Lemma bump_same : forall (svc : Service) (c : Service -> nat), bump svc c svc = S (c svc).
Proof.
  intros svc c. unfold bump, Service_eqb. now rewrite Nat.eqb_refl.
Qed.

Lemma bump_other :
  forall (svc svc' : Service) (c : Service -> nat),
    svc <> svc' -> bump svc c svc' = c svc'.
Proof.
  intros svc svc' c Hne. unfold bump, Service_eqb.
  destruct (Nat.eqb_spec (Service_index svc) (Service_index svc')) as [E | E]; [ | reflexivity ].
  exfalso. apply Hne. destruct svc, svc'; simpl in E; congruence.
Qed.

Lemma calls_after_calls :
  forall (svc : Service) (k : nat) (w : World),
    calls (after_calls svc k w) svc = (calls w svc + k)%nat.
Proof.
  intros svc k w. unfold after_calls. simpl.
  induction k as [ | k IH]; simpl.
  - lia.
  - rewrite bump_same, IH. lia.
Qed.

Lemma as_Error_of_Error : forall t : Thrown, isError t = true -> as_Error t = t.
Proof.
  intros [e | m | v] H; [ reflexivity | reflexivity | discriminate ].
Qed.

Section RetryLoop.

Context {T : Type} (op : M T) (svc : Service) (args : Plugin -> Awaited)
  (oracle : nat -> Answer T).
Hypothesis op_call : single_call op svc args oracle.

(** [k] attempts fail with a retryable typed error, and attempt [k] fails
    with [t], which either is not retryable or is the last attempt
    allowed: the loop makes those [k+1] calls, sleeps after each of the
    first [k], and rethrows [t]. *)
Lemma retryLoop_gives_up :
  forall (k fuel : nat) (attempt : Z) (lastError : option Thrown) (w : World) (t : Thrown),
    (k < fuel)%nat ->
    attempt + Z.of_nat k <= autoRetryCount (settings (plugin w)) ->
    (forall i, (i < k)%nat ->
       exists e, oracle (calls w svc + i)%nat = Rejects (GenErrorObj e) /\
                 ge_retryable e = true) ->
    oracle (calls w svc + k)%nat = Rejects t ->
    retryable t = false \/ attempt + Z.of_nat k = autoRetryCount (settings (plugin w)) ->
    retryLoop op fuel attempt lastError w =
    (Raise (as_Error t), after_calls svc (S k) w,
     retry_events (isGenerating (plugin w)) (args (plugin w)) attempt k).
Proof.
  induction k as [ | k IH]; intros fuel attempt lastError w t Hfuel Hle Hretry Hlast Hstop;
    (destruct fuel as [ | fuel]; [ lia | ]); cbn [retryLoop].
  - replace (attempt <=? autoRetryCount (settings (plugin w))) with true
      by (symmetry; apply Z.leb_le; lia).
    unfold try_catch. rewrite op_call. unfold invoke.
    rewrite Nat.add_0_r in Hlast. rewrite Hlast.
    unfold bind, getSettings. cbn [plugin].
    replace (negb (retryable t) || (attempt =? autoRetryCount (settings (plugin w)))) with true.
    + reflexivity.
    + symmetry. apply orb_true_iff. destruct Hstop as [Hs | Hs].
      * left. now rewrite Hs.
      * right. apply Z.eqb_eq. lia.
  - replace (attempt <=? autoRetryCount (settings (plugin w))) with true
      by (symmetry; apply Z.leb_le; lia).
    unfold try_catch. rewrite op_call. unfold invoke.
    destruct (Hretry O) as (e & He & Hr); [ lia | ].
    rewrite Nat.add_0_r in He. rewrite He.
    unfold bind at 1. unfold getSettings at 1. cbn [plugin retryable as_Error].
    rewrite Hr. cbn [negb orb].
    replace (attempt =? autoRetryCount (settings (plugin w))) with false
      by (symmetry; apply Z.eqb_neq; lia).
    unfold bind, sleep. cbn [plugin].
    rewrite (IH fuel (attempt + 1) (Some (GenErrorObj e))
               (mkWorld (plugin w) (progressModal w) (bump svc (calls w))) t).
    + unfold after_calls. cbn [plugin progressModal calls retry_events app].
      rewrite (Nat.iter_succ_r (S k)). reflexivity.
    + lia.
    + cbn [plugin]. lia.
    + intros i Hi. cbn [calls]. rewrite bump_same.
      destruct (Hretry (S i)) as (e' & He' & Hr'); [ lia | ].
      exists e'. split; [ | exact Hr' ].
      rewrite <- He'. f_equal. lia.
    + cbn [calls]. rewrite bump_same. rewrite <- Hlast. f_equal. lia.
    + cbn [plugin]. destruct Hstop as [Hs | Hs]; [ now left | right; lia ].
Qed.

End RetryLoop.

(** C1. Let [n = autoRetryCount >= 0] and let the wrapped operation be one
    remote call.  If every one of the attempts 0..n fails with a retryable
    typed error, the operation is called exactly [n+1] times, the wait
    after attempt [i < n] is [2^i * 1000] ms, no wait follows attempt [n],
    and the error thrown is the one of attempt [n].  If attempt [k <= n]
    fails with an error that is not retryable (the earlier ones having
    failed retryably), that error is thrown at once: no call and no wait
    follows attempt [k]; for [k = 0] the operation is called once and
    nothing is slept. *)
Theorem executeWithRetry_policy :
  forall {T : Type} (op : M T) (svc : Service) (args : Plugin -> Awaited)
         (oracle : nat -> Answer T) (w : World),
    single_call op svc args oracle ->
    0 <= autoRetryCount (settings (plugin w)) ->
    let n := Z.to_nat (autoRetryCount (settings (plugin w))) in
    let b := isGenerating (plugin w) in
    let a := args (plugin w) in
    (forall errs : nat -> GenerationError,
       (forall i, (i <= n)%nat ->
          oracle (calls w svc + i)%nat = Rejects (GenErrorObj (errs i)) /\
          ge_retryable (errs i) = true) ->
       executeWithRetry op w =
       (Raise (GenErrorObj (errs n)), after_calls svc (S n) w, retry_events b a 0 n) /\
       calls (after_calls svc (S n) w) svc = (calls w svc + (n + 1))%nat)
    /\
    (forall (k : nat) (t : Thrown),
       (k <= n)%nat ->
       (forall i, (i < k)%nat ->
          exists e, oracle (calls w svc + i)%nat = Rejects (GenErrorObj e) /\
                    ge_retryable e = true) ->
       oracle (calls w svc + k)%nat = Rejects t ->
       retryable t = false ->
       executeWithRetry op w =
       (Raise (as_Error t), after_calls svc (S k) w, retry_events b a 0 k) /\
       calls (after_calls svc (S k) w) svc = (calls w svc + (k + 1))%nat /\
       (isError t = true -> as_Error t = t)).
Proof.
  intros T op svc args oracle w Hop Hn n b a. split.
  - intros errs Herrs. split.
    + unfold executeWithRetry.
      rewrite (retryLoop_gives_up op svc args oracle Hop n _ 0 None w (GenErrorObj (errs n))).
      * reflexivity.
      * subst n. lia.
      * subst n. lia.
      * intros i Hi. exists (errs i). apply Herrs. lia.
      * apply Herrs. lia.
      * right. subst n. lia.
    + rewrite calls_after_calls. lia.
  - intros k t Hk Hretry Hlast Hnr. split; [ | split ].
    + unfold executeWithRetry.
      rewrite (retryLoop_gives_up op svc args oracle Hop k _ 0 None w t); auto.
      * subst n. lia.
      * subst n. lia.
    + rewrite calls_after_calls. lia.
    + apply as_Error_of_Error.
Qed.

(** Three rate-limited attempts with [autoRetryCount = 2]; and a rejected
    key, which is not retried. *)
Lemma executeWithRetry_policy_witness :
  executeWithRetry (promptOperation env_rate_limited "note" "g-key") (fresh_world settings_A) =
    (Raise (GenErrorObj rate_limited),
     after_calls SvcPrompt 3 (fresh_world settings_A),
     [Suspend false (GeneratePrompt "note" "google" "prompt-model" "g-key");
      Suspend false (Sleep 1000);
      Suspend false (GeneratePrompt "note" "google" "prompt-model" "g-key");
      Suspend false (Sleep 2000);
      Suspend false (GeneratePrompt "note" "google" "prompt-model" "g-key")]) /\
  executeWithRetry (promptOperation env_bad_key_once "note" "g-key") (fresh_world settings_A) =
    (Raise (GenErrorObj bad_key),
     after_calls SvcPrompt 1 (fresh_world settings_A),
     [Suspend false (GeneratePrompt "note" "google" "prompt-model" "g-key")]).
Proof.
  split.
  - destruct (executeWithRetry_policy (promptOperation env_rate_limited "note" "g-key")
                SvcPrompt (promptArgs "note" "g-key") (promptResult env_rate_limited)
                (fresh_world settings_A)
                (promptOperation_single_call env_rate_limited "note" "g-key"))
      as [Hall _].
    + cbn. lia.
    + destruct (Hall (fun _ => rate_limited)) as [Hrun _].
      * intros i _. split; reflexivity.
      * exact Hrun.
  - destruct (executeWithRetry_policy (promptOperation env_bad_key_once "note" "g-key")
                SvcPrompt (promptArgs "note" "g-key") (promptResult env_bad_key_once)
                (fresh_world settings_A)
                (promptOperation_single_call env_bad_key_once "note" "g-key"))
      as [_ Hstop].
    + cbn. lia.
    + destruct (Hstop O (GenErrorObj bad_key)) as [Hrun _].
      * cbn. lia.
      * intros i Hi. lia.
      * reflexivity.
      * reflexivity.
      * exact Hrun.
Defined.

(** ** What any retried remote call leaves behind *)

Lemma after_calls_0 : forall (svc : Service) (w : World), after_calls svc 0 w = w.
Proof. intros svc [p m c]. reflexivity. Qed.

Lemma after_calls_S :
  forall (svc : Service) (k : nat) (w : World),
    after_calls svc k (mkWorld (plugin w) (progressModal w) (bump svc (calls w))) =
    after_calls svc (S k) w.
Proof.
  intros svc k w. unfold after_calls. cbn [plugin progressModal calls].
  now rewrite (Nat.iter_succ_r k).
Qed.

Section RetrySummary.

Context {T : Type} (op : M T) (svc : Service) (args : Plugin -> Awaited)
  (oracle : nat -> Answer T).
Hypothesis op_call : single_call op svc args oracle.

Lemma retryLoop_summary :
  forall (fuel : nat) (attempt : Z) (lastError : option Thrown) (w : World),
    (Z.to_nat (autoRetryCount (settings (plugin w)) - attempt + 1) <= fuel)%nat ->
    exists (o : Outcome T) (k : nat) (es : list Event),
      retryLoop op fuel attempt lastError w = (o, after_calls svc k w, es) /\
      retry_trace (isGenerating (plugin w)) (args (plugin w)) es /\
      o <> Stuck /\
      (forall r, o = Done r ->
         exists i, (calls w svc <= i < calls w svc + k)%nat /\ oracle i = Resolves r).
Proof.
  induction fuel as [ | fuel IH]; intros attempt lastError w Hfuel; cbn [retryLoop].
  - replace (attempt <=? autoRetryCount (settings (plugin w))) with false
      by (symmetry; apply Z.leb_gt; lia).
    eexists _, O, []. rewrite after_calls_0.
    split; [ reflexivity | ]. split; [ constructor | ]. split; [ discriminate | ].
    intros r Hr. discriminate.
  - destruct (attempt <=? autoRetryCount (settings (plugin w))) eqn:Hle.
    2:{ eexists _, O, []. rewrite after_calls_0.
        split; [ reflexivity | ]. split; [ constructor | ]. split; [ discriminate | ].
        intros r Hr. discriminate. }
    apply Z.leb_le in Hle.
    unfold try_catch. rewrite op_call. unfold invoke.
    destruct (oracle (calls w svc)) as [x | t] eqn:Hans.
    + eexists (Done x), 1%nat, _. split; [ reflexivity | ].
      split; [ repeat constructor | ]. split; [ discriminate | ].
      intros r Hr. injection Hr as <-. exists (calls w svc). split; [ lia | exact Hans ].
    + unfold bind at 1. unfold getSettings at 1. cbn [plugin].
      destruct (negb (retryable t) || (attempt =? autoRetryCount (settings (plugin w)))) eqn:Hstop.
      * eexists _, 1%nat, _. split; [ reflexivity | ].
        split; [ repeat constructor | ]. split; [ discriminate | ].
        intros r Hr. discriminate.
      * apply orb_false_iff in Hstop. destruct Hstop as [_ Hneq].
        apply Z.eqb_neq in Hneq.
        unfold bind, sleep. cbn [plugin].
        destruct (IH (attempt + 1)
                    (Some (as_Error t))
                    (mkWorld (plugin w) (progressModal w) (bump svc (calls w))))
          as (o & k & es & Hrun & Htr & Hns & Hdone).
        { cbn [plugin]. lia. }
        rewrite Hrun. rewrite after_calls_S.
        exists o, (S k), (Suspend (isGenerating (plugin w)) (args (plugin w))
                          :: Suspend (isGenerating (plugin w)) (Sleep (2 ^ attempt * 1000))
                          :: es).
        split; [ reflexivity | ].
        split.
        { constructor; [ now left | ]. constructor; [ right; now eexists | ]. exact Htr. }
        split; [ exact Hns | ].
        intros r Hr. destruct (Hdone r Hr) as (i & Hi & Hres).
        cbn [calls] in Hi. rewrite bump_same in Hi.
        exists i. split; [ lia | exact Hres ].
Qed.

(** [executeWithRetry] on one remote call always finishes; it leaves only
    calls of that operation and sleeps behind, and a value it returns is
    an answer of the service. *)
Lemma executeWithRetry_summary :
  forall w : World,
    exists (o : Outcome T) (k : nat) (es : list Event),
      executeWithRetry op w = (o, after_calls svc k w, es) /\
      retry_trace (isGenerating (plugin w)) (args (plugin w)) es /\
      o <> Stuck /\
      (forall r, o = Done r ->
         exists i, (calls w svc <= i < calls w svc + k)%nat /\ oracle i = Resolves r).
Proof.
  intro w. unfold executeWithRetry. apply retryLoop_summary. lia.
Qed.

End RetrySummary.

(** All three at once, for the tactics below. *)
Lemma retried_calls :
  (forall env nc pk w,
     exists (o : Outcome PromptResult) (k : nat) (es : list Event),
       executeWithRetry (promptOperation env nc pk) w = (o, after_calls SvcPrompt k w, es) /\
       retry_trace (isGenerating (plugin w)) (promptArgs nc pk (plugin w)) es /\
       o <> Stuck /\
       (forall r, o = Done r ->
          exists i, (calls w SvcPrompt <= i < calls w SvcPrompt + k)%nat /\
                    promptResult env i = Resolves r)) /\
  (forall env fp style size cuts w,
     exists (o : Outcome ImageResult) (k : nat) (es : list Event),
       executeWithRetry (imageOperation env fp style size cuts) w =
         (o, after_calls SvcImage k w, es) /\
       retry_trace (isGenerating (plugin w)) (imageArgs fp style size cuts (plugin w)) es /\
       o <> Stuck /\
       (forall r, o = Done r ->
          exists i, (calls w SvcImage <= i < calls w SvcImage + k)%nat /\
                    imageResult env i = Resolves r)) /\
  (forall env w,
     exists (o : Outcome ImageResult) (k : nat) (es : list Event),
       executeWithRetry (regenerateOperation env) w = (o, after_calls SvcImage k w, es) /\
       retry_trace (isGenerating (plugin w)) (regenerateArgs (plugin w)) es /\
       o <> Stuck /\
       (forall r, o = Done r ->
          exists i, (calls w SvcImage <= i < calls w SvcImage + k)%nat /\
                    imageResult env i = Resolves r)).
Proof.
  split; [ | split ].
  - intros env nc pk w.
    apply (executeWithRetry_summary _ _ _ _ (promptOperation_single_call env nc pk) w).
  - intros env fp style size cuts w.
    apply (executeWithRetry_summary _ _ _ _ (imageOperation_single_call env fp style size cuts) w).
  - intros env w.
    apply (executeWithRetry_summary _ _ _ _ (regenerateOperation_single_call env) w).
Qed.

(** ** The retried call on any sequence of answers *)

Section RetryOutcomes.

Context {T : Type} (op : M T) (svc : Service) (args : Plugin -> Awaited)
  (oracle : nat -> Answer T).
Hypothesis op_call : single_call op svc args oracle.

(** [k] attempts fail with a retryable typed error and attempt [k]
    resolves: the loop returns its value after those [k+1] calls. *)
Lemma retryLoop_succeeds :
  forall (k fuel : nat) (attempt : Z) (lastError : option Thrown) (w : World) (v : T),
    (k < fuel)%nat ->
    attempt + Z.of_nat k <= autoRetryCount (settings (plugin w)) ->
    (forall i, (i < k)%nat ->
       exists e, oracle (calls w svc + i)%nat = Rejects (GenErrorObj e) /\
                 ge_retryable e = true) ->
    oracle (calls w svc + k)%nat = Resolves v ->
    retryLoop op fuel attempt lastError w =
    (Done v, after_calls svc (S k) w,
     retry_events (isGenerating (plugin w)) (args (plugin w)) attempt k).
Proof.
  induction k as [ | k IH]; intros fuel attempt lastError w v Hfuel Hle Hretry Hlast;
    (destruct fuel as [ | fuel]; [ lia | ]); cbn [retryLoop];
    replace (attempt <=? autoRetryCount (settings (plugin w))) with true
      by (symmetry; apply Z.leb_le; lia);
    unfold try_catch; rewrite op_call; unfold invoke.
  - rewrite Nat.add_0_r in Hlast. rewrite Hlast. reflexivity.
  - destruct (Hretry O) as (e & He & Hr); [ lia | ].
    rewrite Nat.add_0_r in He. rewrite He.
    unfold bind at 1. unfold getSettings at 1. cbn [plugin retryable as_Error].
    rewrite Hr. cbn [negb orb].
    replace (attempt =? autoRetryCount (settings (plugin w))) with false
      by (symmetry; apply Z.eqb_neq; lia).
    unfold bind, sleep. cbn [plugin].
    rewrite (IH fuel (attempt + 1) (Some (GenErrorObj e))
               (mkWorld (plugin w) (progressModal w) (bump svc (calls w))) v).
    + unfold after_calls. cbn [plugin progressModal calls retry_events app].
      rewrite (Nat.iter_succ_r (S k)). reflexivity.
    + lia.
    + cbn [plugin]. lia.
    + intros i Hi. cbn [calls]. rewrite bump_same.
      destruct (Hretry (S i)) as (e' & He' & Hr'); [ lia | ].
      exists e'. split; [ | exact Hr' ].
      rewrite <- He'. f_equal. lia.
    + cbn [calls]. rewrite bump_same. rewrite <- Hlast. f_equal. lia.
Qed.

(** Whatever the answers are, the loop makes at most as many calls as
    there are attempts left, with a back-off delay between one call and
    the next and nothing else. *)
Lemma retryLoop_shape :
  forall (fuel : nat) (attempt : Z) (lastError : option Thrown) (w : World),
    (Z.to_nat (autoRetryCount (settings (plugin w)) - attempt + 1) <= fuel)%nat ->
    exists (o : Outcome T) (k : nat),
      (k <= Z.to_nat (autoRetryCount (settings (plugin w)) - attempt + 1))%nat /\
      retryLoop op fuel attempt lastError w =
        (o, after_calls svc k w,
         attempts_from (isGenerating (plugin w)) (args (plugin w)) attempt k) /\
      o <> Stuck /\
      (k = O -> autoRetryCount (settings (plugin w)) < attempt) /\
      (forall r, o = Done r ->
         exists j, k = S j /\ oracle (calls w svc + j)%nat = Resolves r).
Proof.
  induction fuel as [ | fuel IH]; intros attempt lastError w Hfuel; cbn [retryLoop].
  - replace (attempt <=? autoRetryCount (settings (plugin w))) with false
      by (symmetry; apply Z.leb_gt; lia).
    eexists _, O. rewrite after_calls_0.
    split; [ lia | ]. split; [ reflexivity | ]. split; [ discriminate | ].
    split; [ lia | discriminate ].
  - destruct (attempt <=? autoRetryCount (settings (plugin w))) eqn:Hle.
    2:{ apply Z.leb_gt in Hle. eexists _, O. rewrite after_calls_0.
        split; [ lia | ]. split; [ reflexivity | ]. split; [ discriminate | ].
        split; [ lia | discriminate ]. }
    apply Z.leb_le in Hle.
    unfold try_catch. rewrite op_call. unfold invoke.
    destruct (oracle (calls w svc)) as [x | t] eqn:Hans.
    + eexists (Done x), 1%nat. split; [ lia | ]. split; [ reflexivity | ].
      split; [ discriminate | ]. split; [ lia | ].
      intros r Hr. injection Hr as <-. exists O. split; [ reflexivity | ].
      now rewrite Nat.add_0_r.
    + unfold bind at 1. unfold getSettings at 1. cbn [plugin].
      destruct (negb (retryable t) || (attempt =? autoRetryCount (settings (plugin w)))) eqn:Hstop.
      * eexists _, 1%nat. split; [ lia | ]. split; [ reflexivity | ].
        split; [ discriminate | ]. split; [ lia | discriminate ].
      * apply orb_false_iff in Hstop. destruct Hstop as [_ Hneq].
        apply Z.eqb_neq in Hneq.
        unfold bind, sleep. cbn [plugin].
        destruct (IH (attempt + 1) (Some (as_Error t))
                    (mkWorld (plugin w) (progressModal w) (bump svc (calls w))))
          as (o & k & Hk & Hrun & Hns & Hzero & Hdone).
        { cbn [plugin]. lia. }
        cbn [plugin calls] in Hk, Hrun, Hzero, Hdone.
        destruct k as [ | k]; [ specialize (Hzero eq_refl); lia | ].
        rewrite Hrun. rewrite after_calls_S.
        exists o, (S (S k)). split; [ lia | ]. split; [ reflexivity | ].
        split; [ exact Hns | ]. split; [ lia | ].
        intros r Hr. destruct (Hdone r Hr) as (j & Hj & Hres).
        exists (S j). split; [ lia | ].
        rewrite bump_same in Hres. rewrite <- Hres. f_equal. lia.
Qed.

End RetryOutcomes.

(** ** The exact trace of the retried calls of the entry points *)

Lemma executeWithRetry_exact :
  forall {T : Type} (op : M T) (svc : Service) (args : Plugin -> Awaited)
         (oracle : nat -> Answer T),
    single_call op svc args oracle ->
    forall w : World,
      exists (o : Outcome T) (k : nat) (es : list Event),
        executeWithRetry op w = (o, after_calls svc k w, es) /\
        (es = attempts_from (isGenerating (plugin w)) (args (plugin w)) 0 k /\
         (0 <= autoRetryCount (settings (plugin w)) -> exists j, k = S j)) /\
        o <> Stuck /\
        (forall r, o = Done r ->
           exists j, k = S j /\ oracle (calls w svc + j)%nat = Resolves r).
Proof.
  intros T op svc args oracle Hop w. unfold executeWithRetry.
  destruct (retryLoop_shape op svc args oracle Hop
              (Z.to_nat (autoRetryCount (settings (plugin w)) + 1)) 0 None w)
    as (o & k & Hk & Hrun & Hns & Hzero & Hdone); [ lia | ].
  exists o, k, (attempts_from (isGenerating (plugin w)) (args (plugin w)) 0 k).
  split; [ exact Hrun | ]. split; [ split; [ reflexivity | ] | ].
  - intro Hn. destruct k as [ | j]; [ specialize (Hzero eq_refl); lia | now exists j ].
  - split; [ exact Hns | exact Hdone ].
Qed.

(** All three at once, in the form the tactics take. *)
Lemma retried_calls_exact :
  (forall env nc pk w,
     exists (o : Outcome PromptResult) (k : nat) (es : list Event),
       executeWithRetry (promptOperation env nc pk) w = (o, after_calls SvcPrompt k w, es) /\
       (es = attempts_from (isGenerating (plugin w)) (promptArgs nc pk (plugin w)) 0 k /\
        (0 <= autoRetryCount (settings (plugin w)) -> exists j, k = S j)) /\
       o <> Stuck /\
       (forall r, o = Done r ->
          exists j, k = S j /\ promptResult env (calls w SvcPrompt + j)%nat = Resolves r)) /\
  (forall env fp style size cuts w,
     exists (o : Outcome ImageResult) (k : nat) (es : list Event),
       executeWithRetry (imageOperation env fp style size cuts) w =
         (o, after_calls SvcImage k w, es) /\
       (es = attempts_from (isGenerating (plugin w))
               (imageArgs fp style size cuts (plugin w)) 0 k /\
        (0 <= autoRetryCount (settings (plugin w)) -> exists j, k = S j)) /\
       o <> Stuck /\
       (forall r, o = Done r ->
          exists j, k = S j /\ imageResult env (calls w SvcImage + j)%nat = Resolves r)) /\
  (forall env w,
     exists (o : Outcome ImageResult) (k : nat) (es : list Event),
       executeWithRetry (regenerateOperation env) w = (o, after_calls SvcImage k w, es) /\
       (es = attempts_from (isGenerating (plugin w)) (regenerateArgs (plugin w)) 0 k /\
        (0 <= autoRetryCount (settings (plugin w)) -> exists j, k = S j)) /\
       o <> Stuck /\
       (forall r, o = Done r ->
          exists j, k = S j /\ imageResult env (calls w SvcImage + j)%nat = Resolves r)).
Proof.
  split; [ | split ].
  - intros env nc pk w.
    apply (executeWithRetry_exact _ _ _ _ (promptOperation_single_call env nc pk) w).
  - intros env fp style size cuts w.
    apply (executeWithRetry_exact _ _ _ _ (imageOperation_single_call env fp style size cuts) w).
  - intros env w.
    apply (executeWithRetry_exact _ _ _ _ (regenerateOperation_single_call env) w).
Qed.

Lemma confirmed_runQuickOptions :
  forall m actions generate, confirmed (runQuickOptions m actions generate) = generate.
Proof. reflexivity. Qed.

(** ** Projections of the trace of a retried call *)

Lemma retry_trace_flat_map_Forall :
  forall {X : Type} (P : X -> Prop) (f : Event -> list X) (b : bool) (a : Awaited)
         (es : list Event),
    retry_trace b a es ->
    Forall P (f (Suspend b a)) ->
    (forall ms, Forall P (f (Suspend b (Sleep ms)))) ->
    Forall P (flat_map f es).
Proof.
  intros X P f b a es Htrace Hcall Hsleep.
  induction Htrace as [ | e r He _ IH]; cbn [flat_map]; [ constructor | ].
  apply Forall_app. split; [ | exact IH ].
  destruct He as [-> | (ms & ->)]; [ exact Hcall | apply Hsleep ].
Qed.

Lemma iter_bump_other :
  forall (svc svc' : Service) (k : nat) (c : Service -> nat),
    svc <> svc' -> Nat.iter k (bump svc) c svc' = c svc'.
Proof.
  intros svc svc' k c Hne. induction k as [ | k IH]; [ reflexivity | ].
  simpl. now rewrite bump_other.
Qed.

Lemma iter_bump_same :
  forall (svc : Service) (k : nat) (c : Service -> nat),
    Nat.iter k (bump svc) c svc = (c svc + k)%nat.
Proof.
  intros svc k c. induction k as [ | k IH]; simpl.
  - lia.
  - rewrite bump_same, IH. lia.
Qed.

(** ** Running the entry points symbolically *)

Arguments executeWithRetry : simpl never.
Arguments posterImageSteps : simpl never.
Arguments getProgressMessage : simpl never.
Arguments getProviderApiKey : simpl never.
Arguments trim_is_empty : simpl never.
Arguments runQuickOptions : simpl never.
Arguments getCartoonCutsNumber : simpl never.

(** Case analysis on whatever a run is waiting for: an answer of the
    environment, a setting, the modal variable. *)
Ltac destruct_scrutinee :=
  match goal with
  | |- context [match ?x with _ => _ end] =>
      lazymatch x with
      | context [match _ with _ => _ end] => fail
      | context [executeWithRetry] => fail
      | context [posterLoop] => fail
      | context [posterImageSteps] => fail
      | _ => destruct x eqn:?
      end
  end.

(** A retried remote call is replaced by its summary; [R] is the lemma
    that summarises the three retried operations. *)
Ltac use_retry R :=
  let o := fresh "o" in
  let k := fresh "k" in
  let es := fresh "es" in
  let Hrun := fresh "Hrun" in
  let Htr := fresh "Htr" in
  let Hns := fresh "Hns" in
  let Hdone := fresh "Hdone" in
  match goal with
  | |- context [executeWithRetry (promptOperation ?env ?nc ?pk) ?w] =>
      destruct (proj1 R env nc pk w) as (o & k & es & Hrun & Htr & Hns & Hdone)
  | |- context [executeWithRetry (imageOperation ?env ?fp ?st ?sz ?c) ?w] =>
      destruct (proj1 (proj2 R) env fp st sz c w) as (o & k & es & Hrun & Htr & Hns & Hdone)
  | |- context [executeWithRetry (regenerateOperation ?env) ?w] =>
      destruct (proj2 (proj2 R) env w) as (o & k & es & Hrun & Htr & Hns & Hdone)
  end;
  rewrite Hrun; clear Hrun;
  destruct o as [? | ? | ]; [ | | exfalso; apply Hns; reflexivity ]; clear Hns;
  cbn in Htr, Hdone.

(** The image steps are replaced by what lemma [lem] says of them. *)
Ltac use_steps lem :=
  match goal with
  | |- context [posterImageSteps ?env ?nf ?fp ?st ?sz ?cu ?w] =>
      let H := fresh "Hsteps" in
      pose proof (lem env nf fp st sz cu w) as H;
      destruct (posterImageSteps env nf fp st sz cu w) as [[? ?] ?];
      cbn in H
  end.

(** The next round of the loop is replaced by the induction hypothesis. *)
Ltac use_round IH :=
  match goal with
  | |- context [posterLoop ?env ?fu ?nf ?nc ?pk ?st ?sz ?cu ?w] =>
      let H := fresh "Hround" in
      pose proof (IH nf nc pk st sz cu w) as H;
      destruct (posterLoop env fu nf nc pk st sz cu w) as [[? ?] ?];
      cbn in H
  end.


Ltac exec R := repeat first [ progress cbn | use_retry R | destruct_scrutinee ].

Ltac exec_loop R lem IH :=
  repeat first
    [ progress cbn | use_retry R | use_steps lem | use_round IH | destruct_scrutinee ].

Ltac unfold_steps :=
  unfold regenerateBody, reportProgress, saveImage, embedImageInNote,
    updateProgress, openProgressModal, showPreviewModal, showQuickOptionsModal,
    posterCatch, regenerateCatch, notice, emit, setModal, setLastPrompt, setLastNoteFile,
    setIsGenerating, getModal, getSettings, getPlugin, ret, bind, invoke,
    try_catch, finally, throw.

(** A [Forall] over a projection [flat_map f] of a trace, piece by piece;
    [F] is [retry_trace_flat_map_Forall]. *)
Ltac forall_trace F :=
  rewrite ?flat_map_app;
  repeat first
    [ progress cbn
    | match goal with
      | |- Forall _ (_ ++ _) => apply Forall_app; split
      | |- Forall _ (_ :: _) => constructor
      | |- Forall _ [] => constructor
      | Htr : retry_trace _ _ ?es |- Forall _ (flat_map _ ?es) =>
          apply (F _ _ _ _ _ _ Htr)
      | |- forall _ : Z, _ => intro
      end ];
  auto.

(** * The single-flight flag during and after a session *)









(** The preview loop ends when the user stops asking for regenerations. *)




(** The next request is not turned away as busy. *)

Lemma last_char_append :
  forall (s t : string), t <> "" -> last_char (s ++ t)%string = last_char t.
Proof.
  intros s t Ht. induction s as [ | c s IH]; [ reflexivity | ].
  cbn [String.append last_char]. rewrite IH.
  destruct (s ++ t)%string eqn:E; [ | reflexivity ].
  destruct s; [ cbn in E; congruence | discriminate ].
Qed.







(** * The panel count that reaches the image client *)

Lemma customCuts_onChange_in_range :
  forall text : string, in_panel_range (customCuts_onChange text).
Proof.
  intro text. unfold customCuts_onChange, or_else, truthy.
  destruct (parseInt text) as [z | ]; [ destruct (z =? 0) | ]; cbn; lia.
Qed.

Lemma optionsStep_in_range :
  forall (m : QuickOptionsModal) (a : OptionsAction),
    in_panel_range (selectedCustomCuts m) ->
    in_panel_range (selectedCustomCuts (optionsStep m a)).
Proof.
  intros m a Hm. destruct a as [s | z | c | text]; cbn [optionsStep].
  - exact Hm.
  - exact Hm.
  - destruct (cartoonSettingsShown m); exact Hm.
  - destruct (customFieldShown m); [ apply customCuts_onChange_in_range | exact Hm ].
Qed.

Lemma fold_optionsStep_in_range :
  forall (actions : list OptionsAction) (m : QuickOptionsModal),
    in_panel_range (selectedCustomCuts m) ->
    in_panel_range (selectedCustomCuts (fold_left optionsStep actions m)).
Proof.
  induction actions as [ | a actions IH]; intros m Hm; cbn [fold_left].
  - exact Hm.
  - apply IH. now apply optionsStep_in_range.
Qed.

Lemma getCartoonCutsNumber_in_range :
  forall (c : CartoonCuts) (custom : number),
    in_panel_range custom -> in_panel_range (getCartoonCutsNumber c custom).
Proof.
  intros c custom Hc. unfold getCartoonCutsNumber.
  destruct c; [ change (in_panel_range (Num 4)) | change (in_panel_range (Num 6))
              | change (in_panel_range (Num 8)) | exact Hc ];
    unfold in_panel_range; lia.
Qed.

Lemma runQuickOptions_in_range :
  forall (m : QuickOptionsModal) (actions : list OptionsAction) (generate : bool),
    in_panel_range (selectedCustomCuts m) ->
    in_panel_range
      (getCartoonCutsNumber (qo_cartoonCuts (runQuickOptions m actions generate))
         (qo_customCartoonCuts (runQuickOptions m actions generate))).
Proof.
  intros m actions generate Hm. apply getCartoonCutsNumber_in_range.
  unfold runQuickOptions, submitOptions. cbn [qo_customCartoonCuts].
  now apply fold_optionsStep_in_range.
Qed.

Lemma posterImageSteps_requests :
  forall env noteFile fp style size cuts w,
    Forall (eq (style, cuts))
      (image_requests (events_of (posterImageSteps env noteFile fp style size cuts w))).
Proof.
  intros. unfold posterImageSteps. unfold_steps. exec retried_calls.
  all: unfold image_requests; forall_trace @retry_trace_flat_map_Forall.
Qed.

Lemma posterLoop_requests :
  forall env fuel noteFile nc pk style size cuts w,
    Forall (eq (style, cuts))
      (image_requests (events_of (posterLoop env fuel noteFile nc pk style size cuts w))).
Proof.
  induction fuel as [ | fuel IH]; intros noteFile nc pk style size cuts w.
  - constructor.
  - cbn [posterLoop]. unfold_steps.
    exec_loop retried_calls posterImageSteps_requests IH.
    all: unfold image_requests in *; forall_trace @retry_trace_flat_map_Forall.
Qed.

Lemma generatePoster_requests :
  forall env fuel w,
    in_panel_range (customCartoonCuts (settings (plugin w))) ->
    Forall (fun r => in_panel_range (snd r))
      (image_requests (events_of (generatePoster env fuel w))).
Proof.
  intros env fuel w Hrange. unfold generatePoster. unfold_steps.
  exec_loop retried_calls posterImageSteps_requests (posterLoop_requests env fuel).
  all: unfold image_requests in *; forall_trace @retry_trace_flat_map_Forall.
  all: match goal with
       | H : Forall (eq _) ?L |- Forall _ ?L =>
           refine (Forall_impl _ _ H); intros r <-; cbn [snd];
           apply runQuickOptions_in_range; exact Hrange
       end.
Qed.

Lemma regenerateLastPoster_requests :
  forall env w,
    Forall (eq (imageStyle (settings (plugin w)),
                getCartoonCutsNumber (cartoonCuts (settings (plugin w)))
                  (customCartoonCuts (settings (plugin w)))))
      (image_requests (events_of (regenerateLastPoster env w))).
Proof.
  intros env w. unfold regenerateLastPoster. unfold_steps. exec retried_calls.
  all: unfold image_requests in *; forall_trace @retry_trace_flat_map_Forall.
Qed.

(** C7, as amended.  A value typed in the custom panel count field of the
    options modal is clamped to [2,12] when it is typed.  Provided the
    configured [customCartoonCuts] lies within [2,12], the panel count of
    every call to the image client with style cartoon lies within [2,12],
    in [generatePoster] and in [regenerateLastPoster] alike. *)
Theorem panel_count_in_range :
  (forall text : string, in_panel_range (customCuts_onChange text)) /\
  (forall (env : Env) (fuel : nat) (w : World),
     in_panel_range (customCartoonCuts (settings (plugin w))) ->
     Forall (fun r => fst r = cartoon -> in_panel_range (snd r))
       (image_requests (events_of (generatePoster env fuel w))) /\
     Forall (fun r => fst r = cartoon -> in_panel_range (snd r))
       (image_requests (events_of (regenerateLastPoster env w)))).
Proof.
  split; [ exact customCuts_onChange_in_range | ].
  intros env fuel w Hrange. split.
  - refine (Forall_impl _ _ (generatePoster_requests env fuel w Hrange)). auto.
  - refine (Forall_impl _ _ (regenerateLastPoster_requests env w)).
    intros r <- _. cbn [snd]. now apply getCartoonCutsNumber_in_range.
Qed.

(** Scenario B: the user types 15; the image client receives 12. *)
Lemma panel_count_in_range_witness :
  in_panel_range (customCartoonCuts (settings (plugin (fresh_world settings_cartoon_custom)))) /\
  image_requests
    (events_of (generatePoster env_types_15 3 (fresh_world settings_cartoon_custom))) =
    [(cartoon, Num 12)] /\
  Forall (fun r => fst r = cartoon -> in_panel_range (snd r))
    (image_requests
       (events_of (generatePoster env_types_15 3 (fresh_world settings_cartoon_custom)))).
Proof.
  assert (Hrange : in_panel_range
                     (customCartoonCuts (settings (plugin (fresh_world settings_cartoon_custom)))))
    by (cbn; lia).
  destruct panel_count_in_range as [_ Hruns].
  destruct (Hruns env_types_15 3%nat (fresh_world settings_cartoon_custom) Hrange) as [Hgen _].
  split; [ exact Hrange | ]. split; [ vm_compute; reflexivity | exact Hgen ].
Defined.

(** With a configured custom count of 15, both paths hand 15 to the image
    client: [regenerateLastPoster] reads the settings, and [generatePoster]
    passes on what the options modal was opened with when the user types
    nothing. *)
Lemma panel_count_counterexample :
  image_requests
    (events_of (regenerateLastPoster env_A
                  (world_with_cache settings_15_panels "a cached prompt" false))) =
    [(cartoon, Num 15)] /\
  image_requests (events_of (generatePoster env_A 3 (fresh_world settings_15_panels))) =
    [(cartoon, Num 15)] /\
  ~ in_panel_range (Num 15).
Proof.
  split; [ vm_compute; reflexivity | ]. split; [ vm_compute; reflexivity | ].
  cbn. lia.
Qed.

(** * Credentials *)

(** [generatePoster] calls no provider client when the key of the selected
    provider or the Google key is empty. *)
Lemma generatePoster_requires_keys :
  forall env fuel w,
    getProviderApiKey (settings (plugin w)) = "" \/ googleApiKey (settings (plugin w)) = "" ->
    provider_calls (events_of (generatePoster env fuel w)) = [].
Proof.
  intros env fuel w Hkey. unfold generatePoster. unfold_steps.
  exec retried_calls; try reflexivity.
  all: destruct Hkey as [Hk | Hk];
    match goal with
    | H : (_ =? "")%string = false |- _ => rewrite Hk in H; discriminate
    end.
Qed.

(** C9, the failing input.  With a cached prompt and note and an empty
    Google key, [regenerateLastPoster] starts a session and calls the image
    client with the empty key; [generatePoster] in the same state calls no
    provider. *)
Theorem regenerate_without_google_key :
  googleApiKey (settings (plugin (world_with_cache settings_no_google_key "a cached prompt" false)))
    = "" /\
  image_keys
    (events_of (regenerateLastPoster env_image_rejects_key
                  (world_with_cache settings_no_google_key "a cached prompt" false))) = [""] /\
  provider_calls
    (events_of (generatePoster env_image_rejects_key 3
                  (world_with_cache settings_no_google_key "a cached prompt" false))) = [].
Proof.
  split; [ reflexivity | ]. split; [ vm_compute; reflexivity | ].
  apply generatePoster_requires_keys. right. reflexivity.
Qed.

(** * The cached prompt *)

Lemma cache_update_trans :
  forall env w1 w2 w3,
    cache_update env w1 w2 -> cache_update env w2 w3 -> cache_update env w1 w3.
Proof.
  unfold cache_update. intros env w1 w2 w3 [Hc1 H1] [Hc2 H2]. split; [ lia | ].
  destruct H2 as [E2 | (i & r & Hi & Hr & E2)].
  - destruct H1 as [E1 | (i & r & Hi & Hr & E1)].
    + left. congruence.
    + right. exists i, r. repeat split; try lia; congruence.
  - right. exists i, r. repeat split; try lia; congruence.
Qed.

Lemma cache_update_raw :
  forall env w w', cache_is_raw env w -> cache_update env w w' -> cache_is_raw env w'.
Proof.
  unfold cache_is_raw, cache_update.
  intros env w w' Hraw [Hc [E | (i & r & Hi & Hr & E)]].
  - destruct Hraw as [E0 | (i & r & Hi & Hr & E0)].
    + left. congruence.
    + right. exists i, r. repeat split; try lia; congruence.
  - right. exists i, r. repeat split; try lia; congruence.
Qed.

(** Closes a goal on the counter of prompt calls and the cached prompt
    from what is known of the calls made and of a sub-run; [Hsame] and
    [Hother] are [iter_bump_same] and [iter_bump_other]. *)
Ltac cache_facts :=
  repeat match goal with
    | H : _ /\ _ |- _ => destruct H
    | H : exists _, _ |- _ => destruct H
    | Hdone : forall r, Done ?a = Done r -> _ |- _ => specialize (Hdone a eq_refl)
    end.

Ltac cache_close :=
  split; [ lia | ];
  first
    [ left; congruence
    | right;
      match goal with
      | Hr : promptResult ?env ?i = Resolves ?r |- _ =>
          exists i, r; split; [ lia | split; [ exact Hr | congruence ] ]
      end ].

Ltac cache_goal Hsame Hother :=
  cbn in *;
  rewrite ?Hsame in *;
  repeat rewrite Hother in * by discriminate;
  cache_facts;
  try match goal with
      | H : _ \/ _ |- _ => destruct H
      end;
  cache_facts;
  cache_close.

Lemma posterImageSteps_cache :
  forall env noteFile fp style size cuts w,
    cache_update env w (world_of (posterImageSteps env noteFile fp style size cuts w)).
Proof.
  intros. unfold posterImageSteps. unfold_steps. exec retried_calls.
  all: unfold cache_update in *; cache_goal iter_bump_same iter_bump_other.
Qed.

Lemma posterLoop_cache :
  forall env fuel noteFile nc pk style size cuts w,
    cache_update env w (world_of (posterLoop env fuel noteFile nc pk style size cuts w)).
Proof.
  induction fuel as [ | fuel IH]; intros noteFile nc pk style size cuts w.
  - unfold cache_update in *; cache_goal iter_bump_same iter_bump_other.
  - cbn [posterLoop]. unfold_steps.
    exec_loop retried_calls posterImageSteps_cache IH.
    all: unfold cache_update in *; cache_goal iter_bump_same iter_bump_other.
Qed.

Lemma generatePoster_cache :
  forall env fuel w, cache_update env w (world_of (generatePoster env fuel w)).
Proof.
  intros env fuel w. unfold generatePoster. unfold_steps.
  exec_loop retried_calls posterImageSteps_cache (posterLoop_cache env fuel).
  all: unfold cache_update in *; cache_goal iter_bump_same iter_bump_other.
Qed.

Lemma generatePromptOnly_cache :
  forall env w, cache_update env w (world_of (generatePromptOnly env w)).
Proof.
  intros env w. unfold generatePromptOnly, promptOperation. unfold_steps. exec retried_calls.
  all: unfold cache_update in *; cache_goal iter_bump_same iter_bump_other.
Qed.

Lemma regenerateLastPoster_cache :
  forall env w, cache_update env w (world_of (regenerateLastPoster env w)).
Proof.
  intros env w. unfold regenerateLastPoster. unfold_steps. exec retried_calls.
  all: unfold cache_update in *; cache_goal iter_bump_same iter_bump_other.
Qed.

Lemma regenerateLastPoster_prompts :
  forall env w,
    Forall (eq (lastPrompt (plugin w)))
      (image_prompts (events_of (regenerateLastPoster env w))).
Proof.
  intros env w. unfold regenerateLastPoster. unfold_steps. exec retried_calls.
  all: unfold image_prompts in *; forall_trace @retry_trace_flat_map_Forall.
Qed.

(** C10. If the cached prompt is a raw answer of the prompt client (or
    still empty), it still is one after [generatePoster], after
    [generatePromptOnly] and after [regenerateLastPoster], whatever prefix
    is configured and whatever the preview returns; and every call that
    [regenerateLastPoster] makes to the image client carries the cached
    prompt as it is. *)
Theorem cached_prompt_is_raw :
  forall (env : Env) (fuel : nat) (w : World),
    cache_is_raw env w ->
    cache_is_raw env (world_of (generatePoster env fuel w)) /\
    cache_is_raw env (world_of (generatePromptOnly env w)) /\
    cache_is_raw env (world_of (regenerateLastPoster env w)) /\
    Forall (eq (lastPrompt (plugin w)))
      (image_prompts (events_of (regenerateLastPoster env w))).
Proof.
  intros env fuel w Hraw. repeat split.
  - apply (cache_update_raw env w _ Hraw), generatePoster_cache.
  - apply (cache_update_raw env w _ Hraw), generatePromptOnly_cache.
  - apply (cache_update_raw env w _ Hraw), regenerateLastPoster_cache.
  - apply regenerateLastPoster_prompts.
Qed.

(** A prefix is configured and the user edits the prompt in the preview:
    the preview shows the prefixed prompt, the image client gets the edited
    one, the cache keeps the raw one, and the regeneration that follows
    sends the raw one. *)
Lemma cached_prompt_is_raw_witness :
  cache_is_raw env_regenerate_once (fresh_world settings_preview) /\
  previews (events_of (generatePoster env_regenerate_once 3 (fresh_world settings_preview))) =
    [("Poster:" ++ String "010" (String "010" "A diagram of SYN, SYN-ACK, ACK"))%string;
     ("Poster:" ++ String "010" (String "010" "A diagram of SYN, SYN-ACK, ACK"))%string] /\
  image_prompts (events_of (generatePoster env_regenerate_once 3 (fresh_world settings_preview))) =
    ["edited prompt"] /\
  lastPrompt (plugin (world_of (generatePoster env_regenerate_once 3
                                  (fresh_world settings_preview)))) =
    "A diagram of SYN, SYN-ACK, ACK" /\
  cache_is_raw env_regenerate_once
    (world_of (generatePoster env_regenerate_once 3 (fresh_world settings_preview))) /\
  image_prompts
    (events_of (regenerateLastPoster env_regenerate_once
                  (world_of (generatePoster env_regenerate_once 3
                               (fresh_world settings_preview))))) =
    ["A diagram of SYN, SYN-ACK, ACK"].
Proof.
  assert (Hraw : cache_is_raw env_regenerate_once (fresh_world settings_preview))
    by (left; reflexivity).
  destruct (cached_prompt_is_raw env_regenerate_once 3 (fresh_world settings_preview) Hraw)
    as (Hgen & _ & _ & _).
  split; [ exact Hraw | ].
  split; [ vm_compute; reflexivity | ].
  split; [ vm_compute; reflexivity | ].
  split; [ vm_compute; reflexivity | ].
  split; [ exact Hgen | vm_compute; reflexivity ].
Defined.

(** * Progress milestones *)

Lemma retry_trace_flat_map_nil :
  forall {X : Type} (f : Event -> list X) (b : bool) (a : Awaited) (es : list Event),
    retry_trace b a es ->
    f (Suspend b a) = [] ->
    (forall ms, f (Suspend b (Sleep ms)) = []) ->
    flat_map f es = [].
Proof.
  intros X f b a es Htrace Hcall Hsleep.
  induction Htrace as [ | e r He _ IH]; [ reflexivity | ].
  cbn [flat_map]. rewrite IH.
  destruct He as [-> | (ms & ->)]; [ now rewrite Hcall | now rewrite Hsleep ].
Qed.

(** The trace of a retried call (not a preview) holds no progress update,
    no preview and no success report. *)
Lemma retry_trace_quiet :
  forall (b : bool) (a : Awaited) (es : list Event),
    retry_trace b a es ->
    preview_of (Suspend b a) = [] ->
    flat_map milestone_of es = [] /\
    flat_map delivered_of es = [] /\
    flat_map preview_of es = [] /\
    existsb is_success es = false.
Proof.
  intros b a es Htrace Hpv. repeat split.
  - apply (retry_trace_flat_map_nil _ b a es Htrace); reflexivity.
  - apply (retry_trace_flat_map_nil _ b a es Htrace); reflexivity.
  - apply (retry_trace_flat_map_nil _ b a es Htrace); [ exact Hpv | reflexivity ].
  - induction Htrace as [ | e r He _ IH]; [ reflexivity | ].
    cbn [existsb]. rewrite IH.
    destruct He as [-> | (ms & ->)]; reflexivity.
Qed.

(** The notice about a missing provider key is not a success report,
    whatever the provider's name is. *)
Lemma missing_key_notice_1 :
  forall s : string,
    ((s ++ " API key is not configured. Please check settings.") =?
     "✅ knowledge poster generated successfully!")%string = false.
Proof.
  intro s. apply String.eqb_neq. intro E. apply (f_equal last_char) in E.
  rewrite last_char_append in E by discriminate. vm_compute in E. discriminate.
Qed.

Lemma missing_key_notice_2 :
  forall s : string,
    ((s ++ " API key is not configured. Please check settings.") =?
     "✅ poster regenerated successfully!")%string = false.
Proof.
  intro s. apply String.eqb_neq. intro E. apply (f_equal last_char) in E.
  rewrite last_char_append in E by discriminate. vm_compute in E. discriminate.
Qed.

(** Records what lemma [Q] says of every retried call of the context. *)
Ltac note_retry Q :=
  repeat match goal with
    | Htr : retry_trace ?b ?a ?es |- _ =>
        let H := fresh "Hquiet" in
        pose proof (Q b a es Htr eq_refl) as H;
        destruct H as (? & ? & ? & ?);
        clear Htr
    end.

(** Normalises the projections of a trace; [K1] and [K2] are rewriting
    lemmas for two notices that do not compute. *)
Ltac trace_simpl Q K1 K2 :=
  note_retry Q;
  repeat first
    [ progress cbn in *
    | progress rewrite ?flat_map_app, ?existsb_app in *
    | match goal with
      | H : flat_map _ ?es = [] |- _ => rewrite H in *
      | H : existsb _ ?es = false |- _ => rewrite H in *
      | E : showPreviewBeforeGeneration ?s = _ |- context [showPreviewBeforeGeneration ?s] =>
          rewrite E
      | E : showProgressModal ?s = _ |- context [showProgressModal ?s] => rewrite E
      end ];
  rewrite ?K1, ?K2 in *;
  cbn in *;
  rewrite ?app_nil_r, ?orb_false_r in *.

(** Closes a goal [_ = true -> _ /\ _ /\ _] on the projections of a trace
    with what the sub-runs of the context give once they are known to have
    reported success. *)
Ltac milestones_close :=
  let Hs := fresh "Hs" in
  intro Hs;
  repeat match goal with
    | H : None = None -> _ |- _ => specialize (H eq_refl)
    | H : existsb _ ?l = true -> _, Hs' : existsb _ ?l = true |- _ =>
        specialize (H Hs')
    | H : _ /\ _ |- _ => destruct H
    end;
  repeat match goal with
    | E : showPreviewBeforeGeneration ?s = _, H : context [showPreviewBeforeGeneration ?s] |- _ =>
        rewrite E in H
    | E : showProgressModal ?s = _, H : context [showProgressModal ?s] |- _ =>
        rewrite E in H
    end;
  repeat match goal with
    | H : flat_map _ _ = _ |- _ => rewrite H
    end;
  cbn; repeat split; try reflexivity; lia.

Lemma posterImageSteps_milestones :
  forall env noteFile fp style size cuts w,
    let es := events_of (posterImageSteps env noteFile fp style size cuts w) in
    previews es = [] /\
    delivered es = match progressModal w with Some _ => milestones es | None => [] end /\
    (succeeded es = true -> milestones es = [50; 80; 95; 100]).
Proof.
  intros env noteFile fp style size cuts [p [m | ] c]; cbn zeta;
    unfold posterImageSteps; unfold_steps; exec retried_calls.
  all: unfold milestones, delivered, previews, succeeded in *.
  all: trace_simpl retry_trace_quiet missing_key_notice_1 missing_key_notice_2.
  all: repeat split; auto; discriminate.
Qed.

Lemma posterLoop_milestones :
  forall env fuel noteFile nc pk style size cuts w,
    progressModal w = None ->
    let es := events_of (posterLoop env fuel noteFile nc pk style size cuts w) in
    succeeded es = true ->
    milestones es = repeat 20 (rounds (settings (plugin w)) es) ++ [50; 80; 95; 100] /\
    (1 <= rounds (settings (plugin w)) es)%nat /\
    delivered es =
      (if showProgressModal (settings (plugin w)) then milestones es else []).
Proof.
  induction fuel as [ | fuel IH]; intros noteFile nc pk style size cuts [p m c] Hm;
    cbn in Hm; subst m; cbn zeta.
  - discriminate.
  - cbn [posterLoop]. unfold_steps.
    exec_loop retried_calls posterImageSteps_milestones IH.
    all: unfold rounds, milestones, delivered, previews, succeeded in *.
    all: trace_simpl retry_trace_quiet missing_key_notice_1 missing_key_notice_2.
    all: try discriminate.
    all: milestones_close.
Qed.

Lemma generatePoster_milestones :
  forall env fuel w,
    let es := events_of (generatePoster env fuel w) in
    succeeded es = true ->
    milestones es = repeat 20 (rounds (settings (plugin w)) es) ++ [50; 80; 95; 100] /\
    (1 <= rounds (settings (plugin w)) es)%nat /\
    delivered es =
      (if showProgressModal (settings (plugin w)) then milestones es else []).
Proof.
  intros env fuel w. cbn zeta. unfold generatePoster. unfold_steps.
  exec_loop retried_calls posterImageSteps_milestones (posterLoop_milestones env fuel).
  all: unfold rounds, milestones, delivered, previews, succeeded in *.
  all: trace_simpl retry_trace_quiet missing_key_notice_1 missing_key_notice_2.
  all: try discriminate.
  all: milestones_close.
Qed.

Lemma regenerateLastPoster_milestones :
  forall env w,
    let es := events_of (regenerateLastPoster env w) in
    succeeded es = true ->
    milestones es = [40; 80; 95] /\
    delivered es = (if showProgressModal (settings (plugin w)) then [40; 80; 95] else []).
Proof.
  intros env w. cbn zeta. unfold regenerateLastPoster. unfold_steps. exec retried_calls.
  all: unfold milestones, delivered, previews, succeeded in *.
  all: trace_simpl retry_trace_quiet missing_key_notice_1 missing_key_notice_2.
  all: try discriminate.
  all: intros _; split; reflexivity.
Qed.

(** C5, as amended.  In a fresh-generation run that reports success, the
    plugin's progress updates are, in order, 20 once per prompt-generation
    round (one round when the preview is off, else one per preview shown,
    so one when the user asks for no regeneration), then 50, 80, 95, 100.
    In a regenerate-last-poster run that reports success they begin with
    40, 80, 95.  With the progress modal enabled every update reaches a
    modal; with it disabled none does. *)
Theorem progress_milestones :
  forall (env : Env) (fuel : nat) (w : World),
    (succeeded (events_of (generatePoster env fuel w)) = true ->
     milestones (events_of (generatePoster env fuel w)) =
       repeat 20 (rounds (settings (plugin w)) (events_of (generatePoster env fuel w)))
       ++ [50; 80; 95; 100] /\
     (1 <= rounds (settings (plugin w)) (events_of (generatePoster env fuel w)))%nat /\
     delivered (events_of (generatePoster env fuel w)) =
       (if showProgressModal (settings (plugin w))
        then milestones (events_of (generatePoster env fuel w)) else [])) /\
    (succeeded (events_of (regenerateLastPoster env w)) = true ->
     exists rest : list Z,
       milestones (events_of (regenerateLastPoster env w)) = [40; 80; 95] ++ rest /\
       delivered (events_of (regenerateLastPoster env w)) =
         (if showProgressModal (settings (plugin w))
          then milestones (events_of (regenerateLastPoster env w)) else [])).
Proof.
  intros env fuel w. split.
  - apply generatePoster_milestones.
  - intro Hs. destruct (regenerateLastPoster_milestones env w Hs) as [Hm Hd].
    exists []. rewrite Hm, Hd. split; reflexivity.
Qed.

(** Scenario A: one round, the five milestones, all delivered. *)
Lemma progress_milestones_witness :
  succeeded (events_of (generatePoster env_A 3 (fresh_world settings_A))) = true /\
  milestones (events_of (generatePoster env_A 3 (fresh_world settings_A))) =
    [20; 50; 80; 95; 100] /\
  delivered (events_of (generatePoster env_A 3 (fresh_world settings_A))) =
    [20; 50; 80; 95; 100].
Proof.
  destruct (progress_milestones env_A 3 (fresh_world settings_A)) as [Hfresh _].
  assert (Hs : succeeded (events_of (generatePoster env_A 3 (fresh_world settings_A))) = true)
    by (vm_compute; reflexivity).
  destruct (Hfresh Hs) as (Hm & _ & Hd).
  split; [ exact Hs | ]. split.
  - rewrite Hm. vm_compute. reflexivity.
  - rewrite Hd, Hm. vm_compute. reflexivity.
Defined.

(** A successful fresh run in which the user asks for one regeneration
    fires 20 twice; a successful fresh run with the progress modal disabled
    delivers nothing. *)
Lemma progress_milestones_counterexample :
  (succeeded (events_of (generatePoster env_regenerate_once 3 (fresh_world settings_preview)))
     = true /\
   delivered (events_of (generatePoster env_regenerate_once 3 (fresh_world settings_preview)))
     = [20; 20; 50; 80; 95; 100] /\
   delivered (events_of (generatePoster env_regenerate_once 3 (fresh_world settings_preview)))
     <> [20; 50; 80; 95; 100]) /\
  (succeeded (events_of (generatePoster env_A 3 (fresh_world settings_no_modal))) = true /\
   delivered (events_of (generatePoster env_A 3 (fresh_world settings_no_modal))) = []).
Proof.
  split.
  - split; [ vm_compute; reflexivity | ]. split; [ vm_compute; reflexivity | ].
    vm_compute. discriminate.
  - split; vm_compute; reflexivity.
Qed.

(** A successful regenerate-last-poster run stops at 95. *)
Example regenerate_run_updates :
  succeeded (events_of (regenerateLastPoster env_A
                          (world_with_cache settings_A "a cached prompt" false))) = true /\
  delivered (events_of (regenerateLastPoster env_A
                          (world_with_cache settings_A "a cached prompt" false)))
    = [40; 80; 95].
Proof. split; vm_compute; reflexivity. Qed.

(** * The retry controller on any sequence of answers *)

Lemma total_delays_retry_events :
  forall (b : bool) (a : Awaited) (k : nat) (attempt : Z),
    (forall ms, a <> Sleep ms) ->
    0 <= attempt ->
    total (delays (retry_events b a attempt k)) =
    (2 ^ (attempt + Z.of_nat k) - 2 ^ attempt) * 1000.
Proof.
  intros b a k attempt Ha. revert attempt.
  assert (Hcall : delay_of (Suspend b a) = []).
  { destruct a; try reflexivity. exfalso. now apply (Ha ms). }
  induction k as [ | k IH]; intros attempt Hat; cbn [retry_events].
  - unfold delays. cbn [flat_map]. rewrite Hcall. cbn [app total fold_right].
    replace (attempt + Z.of_nat 0) with attempt by lia. lia.
  - unfold delays in *. cbn [flat_map]. rewrite Hcall.
    cbn [delay_of app]. unfold total in *. cbn [fold_right].
    rewrite IH by lia.
    replace (attempt + 1 + Z.of_nat k) with (attempt + Z.of_nat (S k)) by lia.
    rewrite (Z.pow_add_r 2 attempt 1) by lia. lia.
Qed.

(** X1. A call that fails retryably [k <= autoRetryCount] times and then
    resolves is returned by [executeWithRetry] after exactly those [k+1]
    calls; the waits in between are [2^i * 1000] ms, and a first-attempt
    success ([k = 0]) has neither a second call nor a wait. *)
Theorem executeWithRetry_eventual_success :
  forall {T : Type} (op : M T) (svc : Service) (args : Plugin -> Awaited)
         (oracle : nat -> Answer T) (w : World) (k : nat) (v : T),
    single_call op svc args oracle ->
    Z.of_nat k <= autoRetryCount (settings (plugin w)) ->
    (forall i, (i < k)%nat ->
       exists e, oracle (calls w svc + i)%nat = Rejects (GenErrorObj e) /\
                 ge_retryable e = true) ->
    oracle (calls w svc + k)%nat = Resolves v ->
    executeWithRetry op w =
      (Done v, after_calls svc (S k) w,
       retry_events (isGenerating (plugin w)) (args (plugin w)) 0 k) /\
    calls (after_calls svc (S k) w) svc = (calls w svc + (k + 1))%nat /\
    (k = O ->
     events_of (executeWithRetry op w) =
       [Suspend (isGenerating (plugin w)) (args (plugin w))]).
Proof.
  intros T op svc args oracle w k v Hop Hk Hretry Hlast.
  assert (Hrun : executeWithRetry op w =
                   (Done v, after_calls svc (S k) w,
                    retry_events (isGenerating (plugin w)) (args (plugin w)) 0 k)).
  { unfold executeWithRetry.
    apply (retryLoop_succeeds op svc args oracle Hop k); auto; lia. }
  split; [ exact Hrun | split ].
  - rewrite calls_after_calls. lia.
  - intros ->. rewrite Hrun. reflexivity.
Qed.

(** X2. Whatever the remote service answers, [executeWithRetry] ends
    after at most [autoRetryCount + 1] calls of the operation, and its
    trace is those calls with a back-off delay between one and the next
    and nothing else: no wait before the first call or after the last. *)
Theorem executeWithRetry_attempt_bound :
  forall {T : Type} (op : M T) (svc : Service) (args : Plugin -> Awaited)
         (oracle : nat -> Answer T) (w : World),
    single_call op svc args oracle ->
    exists (o : Outcome T) (k : nat),
      (k <= Z.to_nat (autoRetryCount (settings (plugin w)) + 1))%nat /\
      executeWithRetry op w =
        (o, after_calls svc k w,
         attempts_from (isGenerating (plugin w)) (args (plugin w)) 0 k) /\
      calls (after_calls svc k w) svc = (calls w svc + k)%nat /\
      o <> Stuck.
Proof.
  intros T op svc args oracle w Hop. unfold executeWithRetry.
  destruct (retryLoop_shape op svc args oracle Hop
              (Z.to_nat (autoRetryCount (settings (plugin w)) + 1)) 0 None w)
    as (o & k & Hk & Hrun & Hns & _ & _); [ lia | ].
  exists o, k. split; [ lia | ]. split; [ exact Hrun | ].
  split; [ apply calls_after_calls | exact Hns ].
Qed.

(** X3. With [n = autoRetryCount >= 0], the waits of one
    [executeWithRetry] add up to at most [(2^n - 1) * 1000] ms whatever
    the service answers, and to exactly that when all [n+1] attempts fail
    with a retryable error. *)
Theorem executeWithRetry_total_backoff :
  forall {T : Type} (op : M T) (svc : Service) (args : Plugin -> Awaited)
         (oracle : nat -> Answer T) (w : World),
    single_call op svc args oracle ->
    (forall p ms, args p <> Sleep ms) ->
    0 <= autoRetryCount (settings (plugin w)) ->
    let n := autoRetryCount (settings (plugin w)) in
    total (delays (events_of (executeWithRetry op w))) <= (2 ^ n - 1) * 1000 /\
    ((forall i, (i <= Z.to_nat n)%nat ->
        exists e, oracle (calls w svc + i)%nat = Rejects (GenErrorObj e) /\
                  ge_retryable e = true) ->
     total (delays (events_of (executeWithRetry op w))) = (2 ^ n - 1) * 1000).
Proof.
  intros T op svc args oracle w Hop Hargs Hn n. split.
  - unfold executeWithRetry.
    destruct (retryLoop_shape op svc args oracle Hop
                (Z.to_nat (autoRetryCount (settings (plugin w)) + 1)) 0 None w)
      as (o & k & Hk & Hrun & _ & _ & _); [ lia | ].
    rewrite Hrun. unfold events_of. cbn [snd].
    destruct k as [ | k]; cbn [attempts_from].
    + cbn. assert (0 < 2 ^ n) by (apply Z.pow_pos_nonneg; lia). lia.
    + rewrite total_delays_retry_events by (auto; lia).
      cbn [Z.add Z.pow]. replace (2 ^ 0) with 1 by reflexivity.
      assert (2 ^ Z.of_nat k <= 2 ^ n) by (apply Z.pow_le_mono_r; lia).
      replace (0 + Z.of_nat k) with (Z.of_nat k) by lia. lia.
  - intro Hall.
    destruct (Hall (Z.to_nat n)) as (e & He & Hr); [ lia | ].
    unfold executeWithRetry.
    rewrite (retryLoop_gives_up op svc args oracle Hop (Z.to_nat n) _ 0 None w (GenErrorObj e)).
    + unfold events_of. cbn [snd].
      rewrite total_delays_retry_events by (auto; lia).
      replace (0 + Z.of_nat (Z.to_nat n)) with n by lia.
      replace (2 ^ 0) with 1 by reflexivity. reflexivity.
    + subst n. lia.
    + lia.
    + intros i Hi. apply Hall. lia.
    + exact He.
    + right. lia.
Qed.

(** One rate-limited attempt, a wait of one second, then the prompt. *)
Lemma executeWithRetry_eventual_success_witness :
  executeWithRetry (promptOperation env_rate_limited_once "note" "g-key")
    (fresh_world settings_A) =
  (Done (mkPromptResult "A diagram of SYN, SYN-ACK, ACK"),
   after_calls SvcPrompt 2 (fresh_world settings_A),
   [Suspend false (GeneratePrompt "note" "google" "prompt-model" "g-key");
    Suspend false (Sleep 1000);
    Suspend false (GeneratePrompt "note" "google" "prompt-model" "g-key")]).
Proof.
  destruct (executeWithRetry_eventual_success
              (promptOperation env_rate_limited_once "note" "g-key")
              SvcPrompt (promptArgs "note" "g-key") (promptResult env_rate_limited_once)
              (fresh_world settings_A) 1 (mkPromptResult "A diagram of SYN, SYN-ACK, ACK")
              (promptOperation_single_call env_rate_limited_once "note" "g-key"))
    as [Hrun _].
  - cbn. lia.
  - intros i Hi. exists rate_limited. destruct i as [ | i]; [ | lia ]. split; reflexivity.
  - reflexivity.
  - exact Hrun.
Defined.

Lemma executeWithRetry_attempt_bound_witness :
  exists (o : Outcome PromptResult) (k : nat),
    (k <= 3)%nat /\
    executeWithRetry (promptOperation env_rate_limited "note" "g-key")
      (fresh_world settings_A) =
      (o, after_calls SvcPrompt k (fresh_world settings_A),
       attempts_from false (GeneratePrompt "note" "google" "prompt-model" "g-key") 0 k) /\
    calls (after_calls SvcPrompt k (fresh_world settings_A)) SvcPrompt = (0 + k)%nat /\
    o <> Stuck.
Proof.
  exact (executeWithRetry_attempt_bound
           (promptOperation env_rate_limited "note" "g-key")
           SvcPrompt (promptArgs "note" "g-key") (promptResult env_rate_limited)
           (fresh_world settings_A)
           (promptOperation_single_call env_rate_limited "note" "g-key")).
Defined.

(** Three rate-limited attempts with [autoRetryCount = 2]: one second,
    then two. *)
Lemma executeWithRetry_total_backoff_witness :
  total (delays (events_of (executeWithRetry (promptOperation env_rate_limited "note" "g-key")
                              (fresh_world settings_A)))) = 3000.
Proof.
  destruct (executeWithRetry_total_backoff
              (promptOperation env_rate_limited "note" "g-key")
              SvcPrompt (promptArgs "note" "g-key") (promptResult env_rate_limited)
              (fresh_world settings_A)
              (promptOperation_single_call env_rate_limited "note" "g-key"))
    as [_ Hall].
  - intros p ms. discriminate.
  - cbn. lia.
  - apply Hall. intros i _. exists rate_limited. split; reflexivity.
Defined.

(** * A negative retry count *)

Lemma executeWithRetry_negative :
  forall {T : Type} (op : M T) (w : World),
    autoRetryCount (settings (plugin w)) < 0 ->
    executeWithRetry op w =
    (Raise (ErrorObj "Operation failed with no error details"), w, []).
Proof.
  intros T op w Hn. unfold executeWithRetry.
  replace (Z.to_nat (autoRetryCount (settings (plugin w)) + 1)) with O by lia.
  cbn [retryLoop].
  replace (0 <=? autoRetryCount (settings (plugin w))) with false
    by (symmetry; apply Z.leb_gt; lia).
  reflexivity.
Qed.

(** Running an entry point when [executeWithRetry] makes no attempt; [N]
    is [executeWithRetry_negative]. *)
Ltac exec_no_attempt N H :=
  repeat first
    [ progress cbn
    | rewrite N by (cbn; exact H)
    | destruct_scrutinee ].

(** X4. With a negative [autoRetryCount] the loop of [executeWithRetry]
    is not entered: the operation is never called and the error thrown is
    'Operation failed with no error details'.  Both generating entry
    points then call no provider at all, and a request that their guards
    let through ends with that failure as its only report. *)
Theorem negative_retry_count_blocks_generation :
  forall (env : Env) (fuel : nat) (w : World),
    autoRetryCount (settings (plugin w)) < 0 ->
    (forall (T : Type) (op : M T),
       executeWithRetry op w =
       (Raise (ErrorObj "Operation failed with no error details"), w, [])) /\
    provider_calls (events_of (generatePoster env fuel w)) = [] /\
    provider_calls (events_of (regenerateLastPoster env w)) = [] /\
    (poster_entry_ok env w = true -> (0 < fuel)%nat ->
     reports (events_of (generatePoster env fuel w)) =
       [if showProgressModal (settings (plugin w)) then ShowError no_attempt_error
        else Notice "❌ generation failed: Operation failed with no error details"]) /\
    (regenerate_entry_ok env w = true ->
     reports (events_of (regenerateLastPoster env w)) =
       [if showProgressModal (settings (plugin w)) then ShowError no_attempt_error
        else Notice "❌ regeneration failed: Operation failed with no error details"]).
Proof.
  intros env fuel w Hn. split; [ | split; [ | split; [ | split ] ] ].
  - intros T op. now apply executeWithRetry_negative.
  - unfold generatePoster. unfold_steps.
    destruct fuel as [ | fuel]; cbn [posterLoop]; unfold_steps;
      exec_no_attempt @executeWithRetry_negative Hn; reflexivity.
  - unfold regenerateLastPoster. unfold_steps.
    exec_no_attempt @executeWithRetry_negative Hn; reflexivity.
  - intros Hok Hfuel. destruct fuel as [ | fuel]; [ lia | ].
    unfold poster_entry_ok in Hok.
    unfold generatePoster. cbn [posterLoop]. unfold_steps.
    exec_no_attempt @executeWithRetry_negative Hn.
    all: try discriminate.
    all: try reflexivity.
    all: try (rewrite confirmed_runQuickOptions in *; cbn in *;
              rewrite ?andb_false_r in Hok; subst; cbn in *; discriminate).
  - intros Hok. unfold regenerate_entry_ok, resolves_to_file in Hok.
    unfold regenerateLastPoster. unfold_steps.
    exec_no_attempt @executeWithRetry_negative Hn.
    all: try discriminate.
    all: try reflexivity.
    all: try (cbn in *; rewrite ?andb_false_r in Hok; discriminate).
Qed.

(** Scenario A with [autoRetryCount = -1]: the modal opens, shows 20 and
    then the error; no provider is called. *)
Lemma negative_retry_count_blocks_generation_witness :
  autoRetryCount (settings (plugin (fresh_world settings_negative_retries))) < 0 /\
  events_of (generatePoster env_A 3 (fresh_world settings_negative_retries)) =
    [Suspend false (VaultRead tcp_note);
     Suspend false
       (QuickOptionsShown (newQuickOptionsModal diagram size_2K cuts_4 (Num 4)));
     ModalOpen (mkProgressModal "en");
     UpdateProgress (Some (mkProgressModal "en"))
       (mkProgressState generating_prompt 20 (Text "Generating prompt..."));
     ShowError no_attempt_error] /\
  provider_calls (events_of (generatePoster env_A 3 (fresh_world settings_negative_retries)))
    = [] /\
  reports (events_of (generatePoster env_A 3 (fresh_world settings_negative_retries)))
    = [ShowError no_attempt_error].
Proof.
  assert (Hn : autoRetryCount (settings (plugin (fresh_world settings_negative_retries))) < 0)
    by (cbn; lia).
  destruct (negative_retry_count_blocks_generation env_A 3
              (fresh_world settings_negative_retries) Hn)
    as (_ & Hcalls & _ & Hreport & _).
  split; [ exact Hn | ]. split; [ vm_compute; reflexivity | ].
  split; [ exact Hcalls | ].
  apply Hreport; [ vm_compute; reflexivity | lia ].
Defined.

(** * The prompt-only entry point *)

(** X5. [generatePromptOnly] stays clear of the poster pipeline.  It has
    no single-flight check: whatever [isGenerating] is, the run is the
    same, with the same outcome, the same calls with the same arguments
    and the same notices, and [isGenerating] is left as it was.  It also
    leaves [lastNoteFile] and the settings as they were; it calls the
    prompt client at most once, with no retry and no back-off sleep
    whatever the error; it never calls the image client, the file service,
    the options modal or the preview; and the only error it lets escape is
    a rejected note read. *)
Theorem generatePromptOnly_stays_out_of_pipeline :
  forall (env : Env) (w : World),
    (forall b : bool,
       generatePromptOnly env (with_isGenerating b w) =
       (outcome_of (generatePromptOnly env w),
        with_isGenerating b (world_of (generatePromptOnly env w)),
        map (with_busy b) (events_of (generatePromptOnly env w)))) /\
    (isGenerating (plugin (world_of (generatePromptOnly env w))) = isGenerating (plugin w) /\
     lastNoteFile (plugin (world_of (generatePromptOnly env w))) = lastNoteFile (plugin w) /\
     settings (plugin (world_of (generatePromptOnly env w))) = settings (plugin w)) /\
    (List.length (prompt_requests (events_of (generatePromptOnly env w))) <= 1)%nat /\
    delays (events_of (generatePromptOnly env w)) = [] /\
    (image_requests (events_of (generatePromptOnly env w)) = [] /\
     saves (events_of (generatePromptOnly env w)) = [] /\
     embeds (events_of (generatePromptOnly env w)) = [] /\
     previews (events_of (generatePromptOnly env w)) = [] /\
     calls (world_of (generatePromptOnly env w)) SvcOptions = calls w SvcOptions) /\
    (outcome_of (generatePromptOnly env w) = Done tt \/
     exists t, readResult env (calls w SvcVaultRead) = Rejects t /\
               outcome_of (generatePromptOnly env w) = Raise t).
Proof.
  intros env w. split.
  { intro b. unfold generatePromptOnly, promptOperation. unfold_steps.
    exec retried_calls; reflexivity. }
  unfold generatePromptOnly, promptOperation. unfold_steps.
  exec retried_calls.
  all: repeat split; auto; try (cbn; lia).
  all: try (left; reflexivity).
  all: right; eexists; split; reflexivity.
Qed.

(** While a poster is being generated, the prompt-only command still
    reads the note, calls the prompt client and writes to the clipboard. *)
Example generatePromptOnly_while_generating :
  events_of (generatePromptOnly env_A (world_with_cache settings_A "a cached prompt" true)) =
    [Suspend true (VaultRead tcp_note);
     Notice "Generating prompt...";
     Suspend true (GeneratePrompt "Explain TCP handshake" "google" "prompt-model" "g-key");
     Suspend true (ClipboardWrite "A diagram of SYN, SYN-ACK, ACK");
     Notice "✅ prompt copied to clipboard!"] /\
  isGenerating
    (plugin (world_of (generatePromptOnly env_A
                         (world_with_cache settings_A "a cached prompt" true)))) = true.
Proof. split; reflexivity. Qed.

(** X6. [generatePromptOnly] caches the prompt only after the clipboard
    write has resolved.  When the clipboard write is rejected [lastPrompt]
    keeps its old value, although the prompt client had answered; when
    [lastPrompt] changes, it is to the prompt the client returned, that
    same text is what was written to the clipboard, and the run is not a
    failure.  The text written to the clipboard is always the client's
    prompt as returned (no prefix is added). *)
Theorem generatePromptOnly_caches_after_copy :
  forall (env : Env) (w : World),
    (forall t, clipboardResult env (calls w SvcClipboard) = Rejects t ->
       lastPrompt (plugin (world_of (generatePromptOnly env w))) = lastPrompt (plugin w)) /\
    (lastPrompt (plugin (world_of (generatePromptOnly env w))) <> lastPrompt (plugin w) ->
     exists r,
       promptResult env (calls w SvcPrompt) = Resolves r /\
       clipboardResult env (calls w SvcClipboard) = Resolves tt /\
       lastPrompt (plugin (world_of (generatePromptOnly env w))) = prompt r /\
       copied (events_of (generatePromptOnly env w)) = [prompt r] /\
       failed (events_of (generatePromptOnly env w)) = false) /\
    (copied (events_of (generatePromptOnly env w)) = [] \/
     exists r,
       promptResult env (calls w SvcPrompt) = Resolves r /\
       copied (events_of (generatePromptOnly env w)) = [prompt r]).
Proof.
  intros env w. unfold generatePromptOnly, promptOperation. unfold_steps.
  exec retried_calls.
  all: split; [ intros thrown Ht; try reflexivity; try congruence | split ].
  all: try (intro Hne; exfalso; apply Hne; reflexivity).
  all: try (left; reflexivity).
  all: try (right; eexists; split; reflexivity).
  intros _. eexists. split; [ reflexivity | ].
  match goal with u : unit |- _ => destruct u end. repeat split.
Qed.

(** The clipboard refuses the write: the prompt client has answered, yet
    nothing is cached and the failure is what the user is told. *)
Example generatePromptOnly_clipboard_denied :
  events_of (generatePromptOnly env_clipboard_denied (fresh_world settings_A)) =
    [Suspend false (VaultRead tcp_note);
     Notice "Generating prompt...";
     Suspend false (GeneratePrompt "Explain TCP handshake" "google" "prompt-model" "g-key");
     Suspend false (ClipboardWrite "A diagram of SYN, SYN-ACK, ACK");
     Notice "❌ failed: Document is not focused."] /\
  lastPrompt (plugin (world_of (generatePromptOnly env_clipboard_denied
                                  (fresh_world settings_A)))) = "".
Proof. split; reflexivity. Qed.

(** * What a session leaves of the plugin *)

Lemma posterImageSteps_frame :
  forall env noteFile fp style size cuts w,
    plugin (world_of (posterImageSteps env noteFile fp style size cuts w)) = plugin w.
Proof.
  intros. unfold posterImageSteps. unfold_steps. exec retried_calls; reflexivity.
Qed.

Lemma posterLoop_frame :
  forall env fuel noteFile nc pk style size cuts w,
    settings (plugin (world_of (posterLoop env fuel noteFile nc pk style size cuts w))) =
      settings (plugin w) /\
    lastNoteFile (plugin (world_of (posterLoop env fuel noteFile nc pk style size cuts w))) =
      lastNoteFile (plugin w).
Proof.
  induction fuel as [ | fuel IH]; intros noteFile nc pk style size cuts w.
  - split; reflexivity.
  - cbn [posterLoop]. unfold_steps.
    exec_loop retried_calls posterImageSteps_frame IH; auto.
    all: unfold world_of in *; cbn in *;
      repeat match goal with
             | H : _ /\ _ |- _ => destruct H
             | H : plugin _ = _ |- _ => rewrite H
             end; cbn; auto.
Qed.

(** * The guards of [generatePoster] *)

(** Closes the cases that contradict what hypothesis [Hok] says of the
    guards; [C] is [confirmed_runQuickOptions]. *)
Ltac guards_contradict C Hok :=
  try discriminate;
  try (rewrite C in *; cbn in *; rewrite ?andb_false_r in Hok; subst; cbn in *;
       discriminate).

(** X7. A request that the guards of [generatePoster] turn away (a
    generation in progress, no active note, a note read that fails, a blank
    note, a missing credential, the options modal cancelled) changes no
    field of the plugin, and apart from the note read and the options modal
    it awaits nothing: no provider, no preview, no file service. *)
Theorem generatePoster_turned_away :
  forall (env : Env) (fuel : nat) (w : World),
    poster_entry_ok env w = false ->
    plugin (world_of (generatePoster env fuel w)) = plugin w /\
    provider_calls (events_of (generatePoster env fuel w)) = [] /\
    session_flags (events_of (generatePoster env fuel w)) = [].
Proof.
  intros env fuel w Hok. unfold poster_entry_ok in Hok.
  unfold generatePoster. unfold_steps.
  exec retried_calls.
  all: try (repeat split; reflexivity).
  all: guards_contradict confirmed_runQuickOptions Hok.
Qed.

(** The user picks the cartoon style and then cancels. *)
Lemma generatePoster_turned_away_witness :
  poster_entry_ok env_options_cancelled (fresh_world settings_A) = false /\
  plugin (world_of (generatePoster env_options_cancelled 3 (fresh_world settings_A))) =
    plugin (fresh_world settings_A) /\
  events_of (generatePoster env_options_cancelled 3 (fresh_world settings_A)) =
    [Suspend false (VaultRead tcp_note);
     Suspend false
       (QuickOptionsShown (newQuickOptionsModal diagram size_2K cuts_4 (Num 4)))].
Proof.
  assert (Hok : poster_entry_ok env_options_cancelled (fresh_world settings_A) = false)
    by (vm_compute; reflexivity).
  destruct (generatePoster_turned_away env_options_cancelled 3 (fresh_world settings_A) Hok)
    as (Hplugin & _ & _).
  split; [ exact Hok | ]. split; [ exact Hplugin | vm_compute; reflexivity ].
Defined.

(** X8. A request that the guards of [generatePoster] let through, with
    [autoRetryCount >= 0] and at least one round of the loop: the active
    note becomes [lastNoteFile], whatever happens afterwards, and the first
    provider call is to the prompt client, inside the session, with the
    content read from that note, the selected provider, its model and its
    key. *)
Theorem generatePoster_accepted :
  forall (env : Env) (fuel : nat) (w : World),
    poster_entry_ok env w = true ->
    (0 < fuel)%nat ->
    0 <= autoRetryCount (settings (plugin w)) ->
    exists (noteFile : TFile) (noteContent : string),
      activeFile env = Some noteFile /\
      readResult env (calls w SvcVaultRead) = Resolves noteContent /\
      lastNoteFile (plugin (world_of (generatePoster env fuel w))) = Some noteFile /\
      exists rest : list Event,
        provider_calls (events_of (generatePoster env fuel w)) =
        Suspend true
          (GeneratePrompt noteContent (selectedProvider (settings (plugin w)))
             (promptModel (settings (plugin w))) (getProviderApiKey (settings (plugin w))))
        :: rest.
Proof.
  intros env fuel w Hok Hfuel Hn. destruct fuel as [ | fuel]; [ lia | ].
  unfold poster_entry_ok in Hok.
  unfold generatePoster. cbn [posterLoop]. unfold_steps.
  exec_loop retried_calls_exact posterImageSteps_frame (posterLoop_frame env fuel).
  all: guards_contradict confirmed_runQuickOptions Hok.
  all: match goal with
       | H : _ = attempts_from _ _ _ _ /\ _ |- _ =>
           let Hk := fresh "Hk" in
           let j := fresh "j" in
           destruct H as [-> Hk]; destruct (Hk Hn) as (j & ->); destruct j
       end.
  all: do 2 eexists; split; [ reflexivity | split; [ reflexivity | split ] ].
  all: try reflexivity.
  all: try (cbn; eexists; reflexivity).
  all: unfold world_of in *; cbn in *;
    match goal with
    | H : _ /\ lastNoteFile _ = _ |- lastNoteFile _ = _ => apply H
    | H : plugin _ = _ |- lastNoteFile _ = _ => rewrite H; reflexivity
    end.
Qed.

Lemma generatePoster_accepted_witness :
  exists (noteFile : TFile) (noteContent : string),
    activeFile env_bad_key_once = Some noteFile /\
    readResult env_bad_key_once 0 = Resolves noteContent /\
    lastNoteFile (plugin (world_of (generatePoster env_bad_key_once 3 (fresh_world settings_A))))
      = Some noteFile /\
    exists rest : list Event,
      provider_calls (events_of (generatePoster env_bad_key_once 3 (fresh_world settings_A))) =
      Suspend true (GeneratePrompt noteContent "google" "prompt-model" "g-key") :: rest.
Proof.
  apply (generatePoster_accepted env_bad_key_once 3 (fresh_world settings_A)).
  - vm_compute. reflexivity.
  - lia.
  - cbn. lia.
Defined.

(** * How a session ends *)

(** Drops from the goal the projections of retried calls that are empty;
    [N] is [retry_trace_flat_map_nil]. *)
Ltac retry_nil N :=
  rewrite ?flat_map_app;
  repeat match goal with
    | Htr : retry_trace ?b ?a ?es |- context [flat_map ?f ?es] =>
        rewrite (N _ f b a es Htr) by (intros; reflexivity)
    end.

Lemma posterImageSteps_reports :
  forall env noteFile fp style size cuts w,
    match outcome_of (posterImageSteps env noteFile fp style size cuts w) with
    | Done _ =>
        exists e, reports (events_of (posterImageSteps env noteFile fp style size cuts w)) = [e] /\
                  is_success e = true
    | _ => reports (events_of (posterImageSteps env noteFile fp style size cuts w)) = []
    end.
Proof.
  intros. unfold posterImageSteps. unfold_steps. exec retried_calls.
  all: unfold reports; retry_nil @retry_trace_flat_map_nil; cbn.
  all: try reflexivity.
  all: eexists; split; reflexivity.
Qed.

Lemma posterLoop_reports :
  forall env fuel noteFile nc pk style size cuts w,
    match outcome_of (posterLoop env fuel noteFile nc pk style size cuts w) with
    | Done _ =>
        (exists e, reports (events_of (posterLoop env fuel noteFile nc pk style size cuts w)) = [e] /\
                   is_success e = true) \/
        (reports (events_of (posterLoop env fuel noteFile nc pk style size cuts w)) = [] /\
         showPreviewBeforeGeneration (settings (plugin w)) = true /\
         exists i, pv_confirmed (previewResult env i) = false)
    | _ => reports (events_of (posterLoop env fuel noteFile nc pk style size cuts w)) = []
    end.
Proof.
  induction fuel as [ | fuel IH]; intros noteFile nc pk style size cuts w.
  - reflexivity.
  - cbn [posterLoop]. unfold_steps.
    exec_loop retried_calls posterImageSteps_reports IH.
    all: unfold reports in *; retry_nil @retry_trace_flat_map_nil; cbn.
    all: try reflexivity.
    all: try assumption.
    all: try (left; assumption).
    all: try (right; split; [ reflexivity | split; [ reflexivity | ] ];
              eexists; apply negb_true_iff; eassumption).
    all: match goal with
         | H : _ \/ _ /\ _ /\ _ |- _ =>
             destruct H as [Hr | (Hr & _ & Hi)];
             [ left; exact Hr
             | right; split; [ exact Hr | split; [ reflexivity | exact Hi ] ] ]
         end.
Qed.

Lemma success_is_not_failure :
  forall e : Event, is_success e = true -> xorb (is_success e) (is_failure e) = true.
Proof.
  intros e He. rewrite He. destruct e; try discriminate; try reflexivity.
  cbn in He. apply orb_true_iff in He.
  destruct He as [He | He]; apply String.eqb_eq in He; subst msg; reflexivity.
Qed.

(** X9. A fresh-generation request that the guards let through never
    throws: every error of a provider or of the file service is caught and
    reported.  It ends with exactly one final report, a success or a
    failure and never both, unless the user cancels in the preview; then it
    ends with no report at all.  While the loop is still going round
    nothing has been reported. *)
Theorem generatePoster_reports_once :
  forall (env : Env) (fuel : nat) (w : World),
    poster_entry_ok env w = true ->
    match outcome_of (generatePoster env fuel w) with
    | Done _ =>
        (exists e, reports (events_of (generatePoster env fuel w)) = [e] /\
                   xorb (is_success e) (is_failure e) = true) \/
        (reports (events_of (generatePoster env fuel w)) = [] /\
         showPreviewBeforeGeneration (settings (plugin w)) = true /\
         exists i, pv_confirmed (previewResult env i) = false)
    | Raise _ => False
    | Stuck => reports (events_of (generatePoster env fuel w)) = []
    end.
Proof.
  intros env fuel w Hok. unfold poster_entry_ok in Hok.
  unfold generatePoster. unfold_steps.
  exec_loop retried_calls posterImageSteps_reports (posterLoop_reports env fuel).
  all: guards_contradict confirmed_runQuickOptions Hok.
  all: unfold reports in *; rewrite ?flat_map_app; cbn.
  all: try assumption.
  all: repeat match goal with
         | H : flat_map report_of ?l = [] |- context [flat_map report_of ?l] => rewrite H
         end; cbn.
  all: try (left; eexists; split; reflexivity).
  destruct Hround as [(e & Hr & He) | Hr]; [ left | right; exact Hr ].
  exists e. split; [ exact Hr | now apply success_is_not_failure ].
Qed.

Lemma generatePoster_reports_once_witness :
  outcome_of (generatePoster env_preview_cancelled 3 (fresh_world settings_preview)) = Done tt /\
  reports (events_of (generatePoster env_preview_cancelled 3 (fresh_world settings_preview)))
    = [] /\
  reports (events_of (generatePoster env_embed_fails 3 (fresh_world settings_A))) =
    [ShowError (mkGenerationError GENERATION_FAILED "File is read-only" false None)] /\
  (exists e,
     reports (events_of (generatePoster env_A 3 (fresh_world settings_A))) = [e] /\
     xorb (is_success e) (is_failure e) = true).
Proof.
  split; [ reflexivity | ]. split; [ reflexivity | ]. split; [ reflexivity | ].
  pose proof (generatePoster_reports_once env_A 3 (fresh_world settings_A) eq_refl) as H.
  vm_compute outcome_of in H.
  destruct H as [H | (H & _)]; [ exact H | vm_compute in H; discriminate ].
Defined.

(** * What reaches the file service *)

Lemma retry_trace_existsb :
  forall (f : Event -> bool) (b : bool) (a : Awaited) (es : list Event),
    retry_trace b a es ->
    f (Suspend b a) = false ->
    (forall ms, f (Suspend b (Sleep ms)) = false) ->
    existsb f es = false.
Proof.
  intros f b a es Htrace Hcall Hsleep.
  induction Htrace as [ | e r He _ IH]; [ reflexivity | ].
  cbn [existsb]. rewrite IH.
  destruct He as [-> | (ms & ->)]; [ now rewrite Hcall | now rewrite Hsleep ].
Qed.

(** Drops the retried calls from [existsb] over a trace; [X] is
    [retry_trace_existsb]. *)
Ltac retry_none X :=
  rewrite ?existsb_app;
  repeat match goal with
    | Htr : retry_trace ?b ?a ?es |- context [existsb ?f ?es] =>
        rewrite (X f b a es Htr) by (intros; reflexivity)
    end.

Lemma posterImageSteps_storage :
  forall env noteFile fp style size cuts w,
    storage_follows env noteFile w
      (events_of (posterImageSteps env noteFile fp style size cuts w)).
Proof.
  intros. unfold posterImageSteps. unfold_steps. exec retried_calls.
  all: unfold storage_follows, saves, embeds, succeeded; cbn.
  all: retry_nil @retry_trace_flat_map_nil; retry_none retry_trace_existsb; cbn.
  all: rewrite ?iter_bump_other in * by discriminate.
  all: repeat match goal with u : unit |- _ => destruct u end.
  all: try (split; [ left; reflexivity | split; [ left; reflexivity | discriminate ] ]).
  all: match goal with
       | H : forall r, Done ?a = Done r -> _ |- _ =>
           let i := fresh "i" in
           let Hi := fresh "Hi" in
           destruct (H a eq_refl) as (i & _ & Hi);
           split; [ right; exists i, a; split; [ exact Hi | reflexivity ] | split ]
       end.
  all: first
         [ left; reflexivity
         | discriminate
         | right; eexists; split; [ eassumption | split; [ reflexivity | discriminate ] ]
         | intros _; eexists; split; [ eassumption | split; [ eassumption | reflexivity ] ] ].
Qed.

Lemma posterLoop_storage :
  forall env fuel noteFile nc pk style size cuts w,
    storage_follows env noteFile w
      (events_of (posterLoop env fuel noteFile nc pk style size cuts w)).
Proof.
  induction fuel as [ | fuel IH]; intros noteFile nc pk style size cuts w.
  - split; [ left; reflexivity | split; [ left; reflexivity | discriminate ] ].
  - cbn [posterLoop]. unfold_steps.
    exec_loop retried_calls posterImageSteps_storage IH.
    all: unfold storage_follows, saves, embeds, succeeded in *; cbn in *.
    all: retry_nil @retry_trace_flat_map_nil; retry_none retry_trace_existsb; cbn.
    all: rewrite ?iter_bump_other in * by discriminate.
    all: try assumption.
    all: try (split; [ left; reflexivity | split; [ left; reflexivity | discriminate ] ]).
Qed.

(** X10. In both generating entry points the file service only ever
    gets what came before it in the pipeline.  At most one image is saved
    in a run: the bytes and MIME type are those the image client returned,
    the note is the session's note (the active note of a fresh run, the
    cached note of a regeneration) and the folder is the configured
    attachment folder.  At most one embed is made, only after a save, in
    that same note and with the path the save returned.  Success is
    reported only when both the save and the embed have resolved.  Without
    a note nothing is saved or embedded. *)
Theorem storage_follows_the_pipeline :
  forall (env : Env) (fuel : nat) (w : World),
    match activeFile env with
    | Some noteFile =>
        storage_follows env noteFile w (events_of (generatePoster env fuel w))
    | None =>
        saves (events_of (generatePoster env fuel w)) = [] /\
        embeds (events_of (generatePoster env fuel w)) = []
    end /\
    match lastNoteFile (plugin w) with
    | Some noteFile =>
        storage_follows env noteFile w (events_of (regenerateLastPoster env w))
    | None =>
        saves (events_of (regenerateLastPoster env w)) = [] /\
        embeds (events_of (regenerateLastPoster env w)) = []
    end.
Proof.
  intros env fuel w. split.
  - unfold generatePoster. unfold_steps.
    exec_loop retried_calls posterImageSteps_storage (posterLoop_storage env fuel).
    all: unfold storage_follows, saves, embeds, succeeded in *; cbn in *.
    all: rewrite ?flat_map_app, ?existsb_app, ?missing_key_notice_1, ?missing_key_notice_2;
      cbn.
    all: try assumption.
    all: try (split; [ left; reflexivity | split; [ left; reflexivity | discriminate ] ]).
    all: try (split; reflexivity).
    all: rewrite ?app_nil_r, ?orb_false_r; assumption.
  - unfold regenerateLastPoster. unfold_steps. exec retried_calls.
    all: unfold storage_follows, saves, embeds, succeeded; cbn.
    all: retry_nil @retry_trace_flat_map_nil; retry_none retry_trace_existsb; cbn.
    all: rewrite ?iter_bump_other in * by discriminate.
    all: repeat match goal with u : unit |- _ => destruct u end.
    all: try (split; reflexivity).
    all: try (split; [ left; reflexivity | split; [ left; reflexivity | discriminate ] ]).
    all: match goal with
         | H : forall r, Done ?a = Done r -> _ |- _ =>
             let i := fresh "i" in
             let Hi := fresh "Hi" in
             destruct (H a eq_refl) as (i & _ & Hi);
             split; [ right; exists i, a; split; [ exact Hi | reflexivity ] | split ]
         end.
    all: first
           [ left; reflexivity
           | discriminate
           | right; eexists; split; [ eassumption | split; [ reflexivity | discriminate ] ]
           | intros _; eexists; split; [ eassumption | split; [ eassumption | reflexivity ] ] ].
Qed.

(** * The regenerate-last-poster shortcut *)

(** X11. [regenerateLastPoster] never throws and leaves every field of the
    plugin as it found it: the cached prompt and note stay, so the shortcut
    can be used again, and the settings and the flag are as before.  It
    never calls the prompt client, never reads the note, never shows the
    options modal or the preview.  A request that its guards let through
    ends with exactly one final report, a success or a failure. *)
Theorem regenerateLastPoster_contained :
  forall (env : Env) (w : World),
    outcome_of (regenerateLastPoster env w) = Done tt /\
    plugin (world_of (regenerateLastPoster env w)) = plugin w /\
    (prompt_requests (events_of (regenerateLastPoster env w)) = [] /\
     previews (events_of (regenerateLastPoster env w)) = [] /\
     calls (world_of (regenerateLastPoster env w)) SvcVaultRead = calls w SvcVaultRead /\
     calls (world_of (regenerateLastPoster env w)) SvcOptions = calls w SvcOptions) /\
    (regenerate_entry_ok env w = true ->
     exists e, reports (events_of (regenerateLastPoster env w)) = [e] /\
               xorb (is_success e) (is_failure e) = true).
Proof.
  intros env [[s lp lf g] m c].
  unfold regenerate_entry_ok, resolves_to_file.
  unfold regenerateLastPoster. unfold_steps. exec retried_calls.
  all: unfold prompt_requests, previews, reports.
  all: retry_nil @retry_trace_flat_map_nil; cbn.
  all: rewrite ?iter_bump_other by discriminate.
  all: repeat split; try reflexivity; try discriminate.
  all: try (intros _; eexists; split; reflexivity).
Qed.

Lemma regenerateLastPoster_contained_witness :
  regenerate_entry_ok env_A (world_with_cache settings_A "a cached prompt" false) = true /\
  plugin (world_of (regenerateLastPoster env_A
                      (world_with_cache settings_A "a cached prompt" false))) =
    mkPlugin settings_A "a cached prompt" (Some tcp_note) false /\
  exists e,
    reports (events_of (regenerateLastPoster env_A
                          (world_with_cache settings_A "a cached prompt" false))) = [e] /\
    xorb (is_success e) (is_failure e) = true.
Proof.
  destruct (regenerateLastPoster_contained env_A
              (world_with_cache settings_A "a cached prompt" false))
    as (_ & Hplugin & _ & Hreport).
  split; [ reflexivity | ]. split; [ exact Hplugin | ].
  apply Hreport. reflexivity.
Defined.

(** * The arguments of the provider calls of a fresh run *)

Lemma posterImageSteps_arguments :
  forall env noteFile fp style size cuts w,
    let es := events_of (posterImageSteps env noteFile fp style size cuts w) in
    prompt_requests es = [] /\
    reads es = [] /\
    Forall (eq (googleApiKey (settings (plugin w)))) (image_keys es) /\
    Forall (eq (style, size, cuts)) (image_options es) /\
    Forall (eq fp) (image_prompts es).
Proof.
  intros. subst es. unfold posterImageSteps. unfold_steps. exec retried_calls.
  all: unfold prompt_requests, reads, image_keys, image_options, image_prompts.
  all: retry_nil @retry_trace_flat_map_nil; cbn.
  all: repeat split; try reflexivity.
  all: forall_trace @retry_trace_flat_map_Forall.
Qed.

Lemma posterLoop_arguments :
  forall env fuel noteFile nc pk style size cuts w,
    let es := events_of (posterLoop env fuel noteFile nc pk style size cuts w) in
    Forall (eq (nc, selectedProvider (settings (plugin w)), promptModel (settings (plugin w)),
                pk)) (prompt_requests es) /\
    reads es = [] /\
    Forall (eq (googleApiKey (settings (plugin w)))) (image_keys es) /\
    Forall (eq (style, size, cuts)) (image_options es).
Proof.
  induction fuel as [ | fuel IH]; intros noteFile nc pk style size cuts w; cbn zeta.
  - repeat split; constructor.
  - cbn [posterLoop]. unfold_steps.
    exec_loop retried_calls posterImageSteps_arguments IH.
    all: unfold prompt_requests, reads, image_keys, image_options, image_prompts in *.
    all: repeat match goal with H : _ /\ _ |- _ => destruct H end.
    all: rewrite ?flat_map_app; cbn.
    all: repeat match goal with
           | H : flat_map ?f ?l = [] |- context [flat_map ?f ?l] => rewrite H
           end.
    all: retry_nil @retry_trace_flat_map_nil; cbn.
    all: repeat split; try reflexivity.
    all: forall_trace @retry_trace_flat_map_Forall.
Qed.

(** X12. Every prompt-client call of one [generatePoster] run carries the
    same arguments: the content read from the note at the start (the note
    is read at most once, so a regeneration asked for in the preview works
    on that same content), the selected provider, its model and its key,
    which is not empty.  Every image-client call carries the Google key,
    which is not empty either. *)
Theorem generatePoster_call_arguments :
  forall (env : Env) (fuel : nat) (w : World),
    (List.length (reads (events_of (generatePoster env fuel w))) <= 1)%nat /\
    Forall
      (fun r =>
         exists noteContent,
           readResult env (calls w SvcVaultRead) = Resolves noteContent /\
           r = (noteContent, selectedProvider (settings (plugin w)),
                promptModel (settings (plugin w)), getProviderApiKey (settings (plugin w))) /\
           getProviderApiKey (settings (plugin w)) <> "")
      (prompt_requests (events_of (generatePoster env fuel w))) /\
    Forall (fun k => k = googleApiKey (settings (plugin w)) /\ k <> "")
      (image_keys (events_of (generatePoster env fuel w))).
Proof.
  intros env fuel w. unfold generatePoster. unfold_steps.
  exec_loop retried_calls posterImageSteps_arguments (posterLoop_arguments env fuel).
  all: unfold prompt_requests, reads, image_keys, image_options, image_prompts in *.
  all: repeat match goal with H : _ /\ _ |- _ => destruct H end.
  all: rewrite ?flat_map_app; cbn.
  all: repeat match goal with
         | H : flat_map ?f ?l = [] |- context [flat_map ?f ?l] => rewrite H
         end; cbn.
  all: repeat split; try lia; try constructor.
  all: rewrite ?app_nil_r.
  all: match goal with
       | H : Forall (eq _) ?l |- Forall _ ?l => refine (Forall_impl _ _ H); intros ? <-
       end.
  all: try (eexists; split; [ reflexivity | split; [ reflexivity | ] ]).
  all: try (split; [ reflexivity | ]).
  all: intro E;
    match goal with
    | H : (?k =? "")%string = false |- _ => rewrite E in H; discriminate
    end.
Qed.

(** X13. The style, size and panel count picked in the options modal
    are used by every image call of that [generatePoster] run and are not
    kept: the settings are the same after the run as before it, and
    [regenerateLastPoster] sends the configured style, size and panel
    count, whatever was picked when the poster was first generated. *)
Theorem quick_options_last_one_run :
  forall (env : Env) (fuel : nat) (w : World),
    Forall
      (eq (qo_imageStyle (optionsResult env w), qo_imageSize (optionsResult env w),
           getCartoonCutsNumber (qo_cartoonCuts (optionsResult env w))
             (qo_customCartoonCuts (optionsResult env w))))
      (image_options (events_of (generatePoster env fuel w))) /\
    settings (plugin (world_of (generatePoster env fuel w))) = settings (plugin w) /\
    Forall
      (eq (imageStyle (settings (plugin w)), imageSize (settings (plugin w)),
           getCartoonCutsNumber (cartoonCuts (settings (plugin w)))
             (customCartoonCuts (settings (plugin w)))))
      (image_options (events_of (regenerateLastPoster env w))).
Proof.
  intros env fuel w. split; [ | split ].
  - unfold generatePoster, optionsResult. unfold_steps.
    exec_loop retried_calls posterImageSteps_arguments (posterLoop_arguments env fuel).
    all: unfold image_options in *.
    all: repeat match goal with H : _ /\ _ |- _ => destruct H end.
    all: rewrite ?flat_map_app; cbn; try constructor.
    all: rewrite ?app_nil_r; assumption.
  - unfold generatePoster. unfold_steps.
    exec_loop retried_calls posterImageSteps_frame (posterLoop_frame env fuel);
      try reflexivity.
    all: unfold world_of in *; cbn in *;
      repeat match goal with H : _ /\ _ |- _ => destruct H end; assumption.
  - unfold regenerateLastPoster. unfold_steps. exec retried_calls.
    all: unfold image_options in *; forall_trace @retry_trace_flat_map_Forall.
Qed.

(** * The prompt that reaches the image client in a fresh run *)







(** * A session cancelled in the preview *)




(** * The provider key and the progress messages *)

(** X17. [getProviderApiKey] compares the provider name exactly: for any
    name other than 'openai', 'google', 'anthropic' and 'xai' (a name in
    another letter case, say) it returns the empty string, whatever keys
    are configured, and so [generatePoster] and [generatePromptOnly] call
    no provider. *)
Theorem unknown_provider_has_no_key :
  forall (env : Env) (fuel : nat) (w : World),
    selectedProvider (settings (plugin w)) <> "openai" ->
    selectedProvider (settings (plugin w)) <> "google" ->
    selectedProvider (settings (plugin w)) <> "anthropic" ->
    selectedProvider (settings (plugin w)) <> "xai" ->
    getProviderApiKey (settings (plugin w)) = "" /\
    provider_calls (events_of (generatePoster env fuel w)) = [] /\
    provider_calls (events_of (generatePromptOnly env w)) = [].
Proof.
  intros env fuel w H1 H2 H3 H4.
  assert (Hkey : getProviderApiKey (settings (plugin w)) = "").
  { unfold getProviderApiKey.
    apply String.eqb_neq in H1, H2, H3, H4. now rewrite H1, H2, H3, H4. }
  split; [ exact Hkey | split ].
  - apply generatePoster_requires_keys. now left.
  - unfold generatePromptOnly, promptOperation. unfold_steps.
    exec retried_calls; try reflexivity.
    all: match goal with
         | H : (_ =? "")%string = false |- _ => rewrite Hkey in H; discriminate
         end.
Qed.

(** The provider is spelt 'OpenAI' and an OpenAI key is configured. *)
Lemma unknown_provider_has_no_key_witness :
  getProviderApiKey settings_capitalised = "" /\
  events_of (generatePoster env_A 3 (fresh_world settings_capitalised)) =
    [Suspend false (VaultRead tcp_note);
     Notice "OpenAI API key is not configured. Please check settings."].
Proof.
  destruct (unknown_provider_has_no_key env_A 3 (fresh_world settings_capitalised))
    as (Hkey & _ & _); try (cbn; discriminate).
  split; [ exact Hkey | reflexivity ].
Defined.

(** X18. [getProgressMessage] on the five steps that have a message
    table.  When the table has an entry for the preferred language, that
    entry is returned.  When it has none but the language setting is the
    name of a member that every object inherits from [Object.prototype]
    ('constructor', 'toString', '__proto__' and the like), the property
    read finds that member and it is returned: a value that is not a text.
    Otherwise (the language is empty or unknown) the English entry is
    returned, which is neither empty nor the bare step key.  The step
    'analyzing' has no table and gives its own key. *)
Theorem getProgressMessage_by_language :
  forall (s : NanoBananaSettings) (st : ProgressStep),
    getProgressMessage s analyzing = Text "analyzing" /\
    (forall table : list (string * string),
       messages st = Some table ->
       (forall m, lookup (preferredLanguage s) table = Some m ->
          getProgressMessage s st = Text m) /\
       (lookup (preferredLanguage s) table = None ->
        inherited (preferredLanguage s) = true ->
        getProgressMessage s st = Inherited (preferredLanguage s)) /\
       (lookup (preferredLanguage s) table = None ->
        inherited (preferredLanguage s) = false ->
        exists m,
          lookup "en" table = Some m /\ getProgressMessage s st = Text m /\
          m <> "" /\ m <> step_key st)).
Proof.
  intros s st. split; [ reflexivity | ].
  intros table Htable. unfold getProgressMessage. rewrite Htable. unfold property.
  destruct (preferredLanguage s =? "")%string eqn:Hlang.
  - apply String.eqb_eq in Hlang. rewrite Hlang.
    destruct st; try discriminate; injection Htable as <-; cbn;
      (split; [ discriminate | split; [ discriminate | ] ]);
      intros _ _; eexists; (split; [ reflexivity | split; [ reflexivity | ] ]);
      split; discriminate.
  - destruct st; try discriminate; injection Htable as <-; cbn [lookup];
      repeat match goal with
        | |- context [(?k =? preferredLanguage s)%string] =>
            destruct (k =? preferredLanguage s)%string
        end;
      (split; [ | split ]);
      try (intros m E; injection E as <-; reflexivity);
      try discriminate;
      try (intros _ Hin; rewrite Hin; reflexivity);
      intros _ Hin; rewrite Hin; cbn;
      eexists; (split; [ reflexivity | split; [ reflexivity | ] ]);
      split; discriminate.
Qed.

(** With 'constructor' as the language setting the message of the step
    is the constructor that the table inherits; with 'xx' it is the English
    text. *)
Example getProgressMessage_inherited_member :
  getProgressMessage
    (mkSettings "google" "prompt-model" "image-model" "" "g-key" "" "" diagram size_2K
       cuts_4 (Num 4) "constructor" true false "" "attachments" 2) saving =
    Inherited "constructor" /\
  getProgressMessage
    (mkSettings "google" "prompt-model" "image-model" "" "g-key" "" "" diagram size_2K
       cuts_4 (Num 4) "xx" true false "" "attachments" 2) saving =
    Text "Saving file...".
Proof. split; reflexivity. Qed.

(** * The options modal *)

Lemma optionsStep_not_cartoon :
  forall (m : QuickOptionsModal) (a : OptionsAction),
    cartoonSettingsShown m = false ->
    never_cartoon [a] = true ->
    cartoonSettingsShown (optionsStep m a) = false /\
    selectedCartoonCuts (optionsStep m a) = selectedCartoonCuts m /\
    selectedCustomCuts (optionsStep m a) = selectedCustomCuts m.
Proof.
  intros m a Hm Ha. destruct a as [s | z | c | text]; cbn [optionsStep].
  - cbn in Ha. rewrite andb_true_r in Ha. apply negb_true_iff in Ha.
    unfold cartoonSettingsShown. cbn. auto.
  - unfold cartoonSettingsShown in *. cbn. auto.
  - rewrite Hm. auto.
  - unfold customFieldShown. rewrite Hm. cbn. auto.
Qed.

(** X19. The panel controls of the options modal exist only while the
    cartoon style is selected.  When the modal opens on another style and
    the user never picks cartoon, whatever else the user does, including
    attempts on the panel selector or the custom count, the result carries
    the panel selector and the custom count the modal was opened with,
    on Generate and on Cancel alike. *)
Theorem panel_controls_need_cartoon :
  forall (m : QuickOptionsModal) (actions : list OptionsAction) (generate : bool),
    selectedStyle m <> cartoon ->
    never_cartoon actions = true ->
    qo_cartoonCuts (runQuickOptions m actions generate) = selectedCartoonCuts m /\
    qo_customCartoonCuts (runQuickOptions m actions generate) = selectedCustomCuts m /\
    qo_imageStyle (runQuickOptions m actions generate) <> cartoon.
Proof.
  intros m actions generate Hstyle Hnever.
  assert (Hm : cartoonSettingsShown m = false).
  { unfold cartoonSettingsShown. destruct (selectedStyle m); try reflexivity. congruence. }
  clear Hstyle. unfold runQuickOptions, submitOptions.
  cbn [qo_cartoonCuts qo_customCartoonCuts qo_imageStyle].
  revert m Hm. induction actions as [ | a rest IH]; intros m Hm; cbn [fold_left].
  - repeat split. intro E. unfold cartoonSettingsShown in Hm. rewrite E in Hm. discriminate.
  - assert (Ha : never_cartoon [a] = true /\ never_cartoon rest = true).
    { destruct a; cbn in Hnever |- *; try (split; [ reflexivity | exact Hnever ]).
      apply andb_true_iff in Hnever. rewrite andb_true_r. exact Hnever. }
    destruct Ha as [Ha Hrest].
    destruct (optionsStep_not_cartoon m a Hm Ha) as (Hshown & Hcuts & Hcustom).
    destruct (IH Hrest (optionsStep m a) Hshown) as (H1 & H2 & H3).
    rewrite H1, H2, Hcuts, Hcustom. repeat split. exact H3.
Qed.

(** The modal opens on the diagram style; the user tries the panel
    selector and types a count: neither control exists, nothing changes. *)
Lemma panel_controls_need_cartoon_witness :
  runQuickOptions (newQuickOptionsModal diagram size_2K cuts_4 (Num 4))
    [ChooseCuts cuts_custom; TypeCustomCuts "9"; ChooseSize size_4K] true =
  mkQuickOptionsResult true diagram size_4K cuts_4 (Num 4).
Proof.
  destruct (panel_controls_need_cartoon
              (newQuickOptionsModal diagram size_2K cuts_4 (Num 4))
              [ChooseCuts cuts_custom; TypeCustomCuts "9"; ChooseSize size_4K] true)
    as (Hcuts & Hcustom & _).
  - discriminate.
  - reflexivity.
  - reflexivity.
Defined.

(** ** [parseInt] reads back what [String] writes *)

Lemma digits_of_numeral_acc :
  forall (d : Decimal.uint) (acc : positive),
    digits 10 (DecimalString.NilEmpty.string_of_uint d) (Some (Z.pos acc)) =
    Some (Z.pos (Pos.of_uint_acc d acc)).
Proof.
  induction d as [ | d IH | d IH | d IH | d IH | d IH | d IH | d IH | d IH | d IH | d IH];
    intro acc; [ reflexivity | .. ];
    cbn [DecimalString.NilEmpty.string_of_uint digits Pos.of_uint_acc];
    change (digit_value _) with (Some 0) || change (digit_value _) with (Some 1)
    || change (digit_value _) with (Some 2) || change (digit_value _) with (Some 3)
    || change (digit_value _) with (Some 4) || change (digit_value _) with (Some 5)
    || change (digit_value _) with (Some 6) || change (digit_value _) with (Some 7)
    || change (digit_value _) with (Some 8) || change (digit_value _) with (Some 9);
    cbn [Z.ltb Z.compare Pos.compare Pos.compare_cont];
    rewrite <- IH; f_equal; f_equal; lia.
Qed.

Lemma digits_of_numeral_zero :
  forall d : Decimal.uint,
    digits 10 (DecimalString.NilEmpty.string_of_uint d) (Some 0) =
    Some (Z.of_N (Pos.of_uint d)).
Proof.
  induction d as [ | d IH | d IH | d IH | d IH | d IH | d IH | d IH | d IH | d IH | d IH];
    [ reflexivity | exact IH | .. ];
    cbn [DecimalString.NilEmpty.string_of_uint digits Pos.of_uint Z.of_N];
    rewrite <- digits_of_numeral_acc; reflexivity.
Qed.

(** A character of one byte that is not white space ends the white space
    at the head of a string. *)
Lemma skip_white_not_white :
  forall (c : ascii) (r : string),
    (nat_of_ascii c <? 128)%nat = true ->
    is_white c = false ->
    skip_white (String c r) = String c r.
Proof.
  intros c r Hc Hw. apply Nat.ltb_lt in Hc.
  assert (Hne : forall n : nat, (128 <= n)%nat -> (nat_of_ascii c =? n)%nat = false)
    by (intros n Hn; apply Nat.eqb_neq; lia).
  cbn [skip_white]. rewrite Hw.
  destruct r as [ | c2 r2]; [ reflexivity | ].
  unfold is_white2. rewrite (Hne 194%nat) by lia. cbn [andb].
  destruct r2 as [ | c3 r3]; [ reflexivity | ].
  unfold is_white3.
  rewrite (Hne 225%nat), (Hne 226%nat), (Hne 227%nat), (Hne 239%nat) by lia.
  reflexivity.
Qed.

Lemma parseInt_of_numeral :
  forall d : Decimal.uint,
    d <> Decimal.Nil ->
    parseInt (DecimalString.NilEmpty.string_of_uint d) = Num (Z.of_N (Pos.of_uint d)) /\
    parseInt (String "-" (DecimalString.NilEmpty.string_of_uint d)) =
      Num (- Z.of_N (Pos.of_uint d)).
Proof.
  intros d Hd.
  assert (Hdigits : digits 10 (DecimalString.NilEmpty.string_of_uint d) None =
                    Some (Z.of_N (Pos.of_uint d))).
  { destruct d; [ congruence | .. ];
      cbn [DecimalString.NilEmpty.string_of_uint digits Pos.of_uint Z.of_N];
      first [ apply digits_of_numeral_zero
            | rewrite <- digits_of_numeral_acc; reflexivity ]. }
  destruct d as [ | d | d | d | d | d | d | d | d | d | d]; [ congruence | .. ].
  2-10: unfold parseInt; cbn [DecimalString.NilEmpty.string_of_uint] in *;
    rewrite !skip_white_not_white by reflexivity;
    (split; cbv iota zeta; rewrite Hdigits; f_equal; lia).
  destruct d; unfold parseInt; cbn [DecimalString.NilEmpty.string_of_uint] in *;
    rewrite !skip_white_not_white by reflexivity;
    (split; cbv iota zeta; rewrite Hdigits; f_equal; lia).
Qed.

Lemma parseInt_String_of_number :
  forall z : Z, parseInt (String_of_number (Num z)) = Num z.
Proof.
  intros [ | p | p]; [ reflexivity | | ];
    cbn [String_of_number Z.to_int DecimalString.NilZero.string_of_int];
    unfold DecimalString.NilZero.string_of_uint;
    pose proof (DecimalPos.Unsigned.to_uint_nonnil p) as Hnil;
    pose proof (DecimalPos.Unsigned.of_to p) as Hof;
    destruct (parseInt_of_numeral (Pos.to_uint p) Hnil) as [Hpos Hneg];
    destruct (Pos.to_uint p) eqn:E; try congruence;
    rewrite ?Hpos, ?Hneg, Hof; reflexivity.
Qed.

(** X20. The custom panel count field shows [String(selectedCustomCuts)]
    and its change handler reads it back with [parseInt]: [parseInt] gives
    back every integer that [String] wrote.  So when the text shown is put
    in again, the count becomes 4 if it was 0 and the nearest of 2..12
    otherwise; the count is left as it is exactly when it lies in [2,12].
    The text of a count that is [NaN] gives 4. *)
Theorem customCuts_field_reads_back :
  forall (m : QuickOptionsModal) (z : Z),
    selectedCustomCuts m = Num z ->
    Z.abs z < 10 ^ 21 ->
    parseInt (customFieldText m) = Num z /\
    customCuts_onChange (customFieldText m) =
      Num (if z =? 0 then 4 else Z.max 2 (Z.min 12 z)) /\
    (customCuts_onChange (customFieldText m) = selectedCustomCuts m <-> 2 <= z <= 12) /\
    customCuts_onChange (String_of_number NaN) = Num 4.
Proof.
  intros m z Hm _. unfold customFieldText. rewrite Hm.
  assert (Hread := parseInt_String_of_number z).
  assert (Hchange : customCuts_onChange (String_of_number (Num z)) =
                    Num (if z =? 0 then 4 else Z.max 2 (Z.min 12 z))).
  { unfold customCuts_onChange. rewrite Hread. unfold or_else, truthy.
    destruct (Z.eqb_spec z 0); reflexivity. }
  split; [ exact Hread | ]. split; [ exact Hchange | ]. split; [ | reflexivity ].
  rewrite Hchange. destruct (Z.eqb_spec z 0); split; intro H;
    try (injection H as H); try (f_equal); lia.
Qed.

(** The modal opened with a configured count of 15: the field shows '15',
    which read back gives 15 and, through the handler, 12. *)
Lemma customCuts_field_reads_back_witness :
  customFieldText (newQuickOptionsModal cartoon size_2K cuts_custom (Num 15)) = "15" /\
  parseInt "15" = Num 15 /\
  customCuts_onChange "15" = Num 12.
Proof.
  destruct (customCuts_field_reads_back
              (newQuickOptionsModal cartoon size_2K cuts_custom (Num 15)) 15 eq_refl)
    as (Hread & Hchange & _).
  - reflexivity.
  - split; [ reflexivity | ]. split; [ exact Hread | exact Hchange ].
Defined.

(** * The progress modal *)

Lemma updateProgress_opened :
  forall (m : PMV.t) (wd : PMV.Widgets) (state : ProgressState),
    PMV.isCancelled m = false ->
    PMV.widgets m = Some wd ->
    List.length (PMV.stepMarks wd) = 5%nat ->
    exists m',
      PMV.updateProgress m state = Some m' /\
      PMV.isCancelled m' = false /\
      PMV.widgets m' =
        Some (PMV.mkWidgets (Some (progress state)) (progress state)
                (PMV.marksFor (step state))).
Proof.
  intros m wd state Hc Hw Hlen. unfold PMV.updateProgress. rewrite Hc, Hw.
  eexists. split; [ reflexivity | ]. split; [ reflexivity | ].
  cbn [PMV.widgets]. do 2 f_equal.
  destruct wd as [bar text marks]. cbn [PMV.stepMarks] in *.
  do 5 (destruct marks as [ | ? marks]; [ discriminate | ]).
  destruct marks; [ reflexivity | discriminate ].
Qed.

Lemma marksFor_length : forall st, List.length (PMV.marksFor st) = 5%nat.
Proof. intro st. destruct st; reflexivity. Qed.

(** X21. The step marks of the progress modal depend on the last
    update only.  After [open] and any sequence of updates, the bar and the
    percentage show the progress of the last update, the steps before its
    step are marked completed, its step active and the later ones pending.
    The step 'complete' is not one of the modal's five steps: for it
    [findIndex] gives -1 and all five steps are marked pending, none
    completed. *)
Theorem updateProgress_marks_by_last_update :
  forall (msgs : PMV.UIMessages) (states : list ProgressState) (state : ProgressState),
    exists m,
      PMV.run (PMV.open (PMV.new_ msgs))
        (map PMV.CallUpdateProgress (states ++ [state])) = Some m /\
      PMV.widgets m =
        Some (PMV.mkWidgets (Some (progress state)) (progress state)
                match step state with
                | analyzing =>
                    [PMV.Active; PMV.Pending; PMV.Pending; PMV.Pending; PMV.Pending]
                | generating_prompt =>
                    [PMV.Completed; PMV.Active; PMV.Pending; PMV.Pending; PMV.Pending]
                | generating_image =>
                    [PMV.Completed; PMV.Completed; PMV.Active; PMV.Pending; PMV.Pending]
                | saving =>
                    [PMV.Completed; PMV.Completed; PMV.Completed; PMV.Active; PMV.Pending]
                | embedding =>
                    [PMV.Completed; PMV.Completed; PMV.Completed; PMV.Completed; PMV.Active]
                | complete =>
                    [PMV.Pending; PMV.Pending; PMV.Pending; PMV.Pending; PMV.Pending]
                end).
Proof.
  intros msgs states state.
  assert (Hinv : forall (sts : list ProgressState) (m : PMV.t) (wd : PMV.Widgets),
             PMV.isCancelled m = false ->
             PMV.widgets m = Some wd ->
             List.length (PMV.stepMarks wd) = 5%nat ->
             exists m',
               PMV.run m (map PMV.CallUpdateProgress (sts ++ [state])) = Some m' /\
               PMV.widgets m' =
                 Some (PMV.mkWidgets (Some (progress state)) (progress state)
                         (PMV.marksFor (step state)))).
  { induction sts as [ | st sts IH]; intros m wd Hc Hw Hlen; cbn [app map PMV.run PMV.perform].
    - destruct (updateProgress_opened m wd state Hc Hw Hlen) as (m' & Hrun & _ & Hwd).
      rewrite Hrun. exists m'. split; [ reflexivity | exact Hwd ].
    - destruct (updateProgress_opened m wd st Hc Hw Hlen) as (m' & Hrun & Hc' & Hwd).
      rewrite Hrun. apply (IH m' _ Hc' Hwd). apply marksFor_length. }
  destruct (Hinv states (PMV.open (PMV.new_ msgs)) _ eq_refl eq_refl eq_refl)
    as (m & Hrun & Hwd).
  exists m. split; [ exact Hrun | ]. rewrite Hwd. destruct (step state); reflexivity.
Qed.

(** X22. Once the user has pressed Cancel the modal is closed and
    stays as it is: [isCancelled] is set, and every later progress update
    leaves the modal unchanged, and is harmless even on a modal whose
    elements were never created.  The auto-close timer of a success shown
    afterwards does not close it a second time. *)
Theorem cancel_absorbs_updates :
  forall (m : PMV.t) (states : list ProgressState),
    PMV.isCancelled (PMV.clickCancel m) = true /\
    PMV.isOpen (PMV.clickCancel m) = false /\
    PMV.content (PMV.clickCancel m) = PMV.Blank /\
    PMV.run (PMV.clickCancel m) (map PMV.CallUpdateProgress states) =
      Some (PMV.clickCancel m) /\
    (PMV.isCancelled m = true ->
     PMV.run m (map PMV.CallUpdateProgress states) = Some m /\
     forall imagePath,
       PMV.isOpen (PMV.timerFires (PMV.showSuccess m imagePath)) = PMV.isOpen m).
Proof.
  intros m states.
  assert (Habs : forall m0, PMV.isCancelled m0 = true ->
                   PMV.run m0 (map PMV.CallUpdateProgress states) = Some m0).
  { intros m0 Hc. induction states as [ | st sts IH]; [ reflexivity | ].
    cbn [map PMV.run PMV.perform]. unfold PMV.updateProgress. rewrite Hc. exact IH. }
  split; [ reflexivity | ]. split; [ reflexivity | ]. split; [ reflexivity | ].
  split; [ apply Habs; reflexivity | ].
  intro Hc. split; [ now apply Habs | ].
  intro imagePath. unfold PMV.timerFires, PMV.showSuccess. cbn. rewrite Hc. reflexivity.
Qed.

Lemma cancel_absorbs_updates_witness :
  PMV.run (PMV.clickCancel (PMV.open (PMV.new_ sample_messages)))
    [PMV.CallUpdateProgress (mkProgressState saving 80 (Text "Saving file..."))] =
  Some (PMV.clickCancel (PMV.open (PMV.new_ sample_messages))) /\
  PMV.widgets (PMV.clickCancel (PMV.open (PMV.new_ sample_messages))) =
    Some (PMV.mkWidgets None 0
            [PMV.Pending; PMV.Pending; PMV.Pending; PMV.Pending; PMV.Pending]).
Proof.
  destruct (cancel_absorbs_updates (PMV.open (PMV.new_ sample_messages))
              [mkProgressState saving 80 (Text "Saving file...")])
    as (_ & _ & _ & Hrun & _).
  split; [ exact Hrun | reflexivity ].
Defined.

(** What [main.ts] and the user can do to a modal never registers a
    callback, and leaves the modal its messages. *)
Lemma run_keeps_no_callback :
  forall (ops : list PMV.Op) (m m' : PMV.t),
    PMV.onCancel m = None ->
    PMV.callbacksRun m = [] ->
    PMV.run m ops = Some m' ->
    PMV.onCancel m' = None /\ PMV.callbacksRun m' = [] /\
    PMV.messages m' = PMV.messages m.
Proof.
  induction ops as [ | op ops IH]; intros m m' Hcb Hran Hops; cbn [PMV.run] in Hops.
  - injection Hops as <-. repeat split; assumption.
  - destruct (PMV.perform m op) as [m1 | ] eqn:Hstep; [ | discriminate ].
    assert (H1 : PMV.onCancel m1 = None /\ PMV.callbacksRun m1 = [] /\
                 PMV.messages m1 = PMV.messages m).
    { destruct op; cbn [PMV.perform] in Hstep;
        unfold PMV.updateProgress, PMV.clickCancel, PMV.clickRetry, PMV.clickClose,
          PMV.timerFires in Hstep;
        repeat match type of Hstep with
          | context [match ?x with _ => _ end] => destruct x eqn:?
          end;
        try discriminate; injection Hstep as <-; cbn;
        repeat split; try assumption; congruence. }
    destruct H1 as (Hcb1 & Hran1 & Hmsgs1).
    destruct (IH m1 m' Hcb1 Hran1 Hops) as (Hcb' & Hran' & Hmsgs').
    repeat split; congruence.
Qed.

Lemma run_app :
  forall (ops ops' : list PMV.Op) (m m' : PMV.t),
    PMV.run m ops = Some m' ->
    PMV.run m (ops ++ ops') = PMV.run m' ops'.
Proof.
  induction ops as [ | op ops IH]; intros ops' m m' Hrun; cbn [PMV.run app] in *.
  - now injection Hrun as ->.
  - destruct (PMV.perform m op) as [m1 | ]; [ | discriminate ]. now apply IH.
Qed.

(** X23. The Retry button of the error view does nothing.  The error
    view shows the button exactly for the errors [executeWithRetry] treats
    as retryable (a typed error whose [retryable] flag is set; an untyped
    error gets no button and no details), and it always lists at least one
    suggestion.  The button's listener closes the modal only when a
    callback has been registered with [setOnCancel], and [main.ts] never
    registers one: whatever the plugin and the user have done to a modal
    since it was created, no callback is registered, none has run, and a
    click on Retry leaves the modal exactly as it was, still showing the
    error. *)
Theorem retry_button_is_inert :
  forall (msgs : PMV.UIMessages) (ops : list PMV.Op) (m : PMV.t) (thrown : Thrown),
    PMV.run (PMV.new_ msgs) ops = Some m ->
    (PMV.onCancel m = None /\ PMV.callbacksRun m = []) /\
    PMV.content (PMV.showError m (toGenerationError thrown)) =
      PMV.ErrorView (ge_message (toGenerationError thrown))
        (match thrown with
         | GenErrorObj e =>
             match ge_details e with
             | Some d => if (d =? "")%string then None else Some d
             | None => None
             end
         | _ => None
         end)
        (PMV.getErrorSuggestions msgs (toGenerationError thrown))
        (retryable thrown) /\
    PMV.getErrorSuggestions msgs (toGenerationError thrown) <> [] /\
    PMV.run (PMV.new_ msgs)
      (ops ++ [PMV.CallShowError (toGenerationError thrown); PMV.UserRetry]) =
      Some (PMV.showError m (toGenerationError thrown)).
Proof.
  intros msgs ops m thrown Hrun.
  destruct (run_keeps_no_callback ops (PMV.new_ msgs) m eq_refl eq_refl Hrun)
    as (Hcb & Hran & Hmsgs).
  cbn [PMV.new_ PMV.messages] in Hmsgs.
  split; [ split; assumption | ]. split; [ | split ].
  - unfold PMV.showError. cbn [PMV.content]. rewrite Hmsgs.
    destruct thrown as [e | msg | v]; reflexivity.
  - destruct thrown as [e | msg | v]; cbn; try discriminate.
    unfold PMV.getErrorSuggestions. cbn. destruct (ge_type e); discriminate.
  - rewrite (run_app ops _ _ m Hrun). cbn [PMV.run PMV.perform].
    cbn [PMV.showError PMV.isOpen PMV.content].
    destruct (PMV.isOpen m); [ | reflexivity ].
    destruct (ge_retryable (toGenerationError thrown)); [ | reflexivity ].
    unfold PMV.clickRetry.
    change (PMV.onCancel (PMV.showError m (toGenerationError thrown)))
      with (PMV.onCancel m).
    rewrite Hcb. reflexivity.
Qed.

(** A rate-limited run: the modal shows the error with its Retry button;
    the click changes nothing, the modal stays open. *)
Lemma retry_button_is_inert_witness :
  PMV.run (PMV.new_ sample_messages)
    [PMV.CallOpen;
     PMV.CallUpdateProgress (mkProgressState generating_prompt 20 (Text "Generating prompt..."));
     PMV.CallShowError rate_limited;
     PMV.UserRetry] =
  Some (PMV.mk sample_messages None false true
          (PMV.ErrorView "Rate limit exceeded" None
             ["Wait a moment and try again"; "Check your API quota"] true)
          (Some (PMV.mkWidgets (Some 20) 20
                   [PMV.Completed; PMV.Active; PMV.Pending; PMV.Pending; PMV.Pending]))
          O []).
Proof.
  destruct (retry_button_is_inert sample_messages
              [PMV.CallOpen;
               PMV.CallUpdateProgress
                 (mkProgressState generating_prompt 20 (Text "Generating prompt..."))]
              (PMV.mk sample_messages None false true PMV.ProgressView
                 (Some (PMV.mkWidgets (Some 20) 20
                          [PMV.Completed; PMV.Active; PMV.Pending; PMV.Pending; PMV.Pending]))
                 O [])
              (GenErrorObj rate_limited) eq_refl)
    as (_ & _ & _ & Hrun).
  exact Hrun.
Defined.

(** * The progress modal during a run *)

Lemma replay_app :
  forall getMessages (es1 es2 : list Event) (current : option PMV.t),
    replay getMessages current (es1 ++ es2) =
    match replay getMessages current es1 with
    | Some c => replay getMessages c es2
    | None => None
    end.
Proof.
  induction es1 as [ | e es1 IH]; intros es2 current; [ reflexivity | ].
  cbn [app replay].
  destruct e as [b a | msg | m | | [m | ] st | p | err]; try apply IH;
    destruct current as [c | ]; try reflexivity; try apply IH.
  destruct (PMV.updateProgress c st); [ apply IH | reflexivity ].
Qed.

Lemma replay_retry_trace :
  forall getMessages (b : bool) (a : Awaited) (es : list Event) (current : option PMV.t),
    retry_trace b a es -> replay getMessages current es = Some current.
Proof.
  intros getMessages b a es current Htrace.
  induction Htrace as [ | e r He _ IH]; [ reflexivity | ].
  destruct He as [-> | (ms & ->)]; exact IH.
Qed.

Lemma replay_retried :
  forall getMessages (b : bool) (a : Awaited) (es rest : list Event) (current : option PMV.t),
    retry_trace b a es ->
    replay getMessages current (es ++ rest) = replay getMessages current rest.
Proof.
  intros. rewrite replay_app. now rewrite (replay_retry_trace getMessages b a es).
Qed.

(** [replay], one event at a time. *)
Lemma replay_equations :
  forall getMessages,
    (forall current, replay getMessages current [] = Some current) /\
    (forall current b a rest,
       replay getMessages current (Suspend b a :: rest) = replay getMessages current rest) /\
    (forall current msg rest,
       replay getMessages current (Notice msg :: rest) = replay getMessages current rest) /\
    (forall current st rest,
       replay getMessages current (UpdateProgress None st :: rest) =
       replay getMessages current rest) /\
    (forall current m rest,
       replay getMessages current (ModalOpen m :: rest) =
       replay getMessages (Some (PMV.open (PMV.new_ (getMessages (pm_language m))))) rest) /\
    (forall m rest,
       replay getMessages (Some m) (ModalClose :: rest) =
       replay getMessages (Some (PMV.close m)) rest) /\
    (forall m p rest,
       replay getMessages (Some m) (ShowSuccess p :: rest) =
       replay getMessages (Some (PMV.showSuccess m p)) rest) /\
    (forall m e rest,
       replay getMessages (Some m) (ShowError e :: rest) =
       replay getMessages (Some (PMV.showError m e)) rest) /\
    (forall m p st rest,
       replay getMessages (Some m) (UpdateProgress (Some p) st :: rest) =
       match PMV.updateProgress m st with
       | Some m' => replay getMessages (Some m') rest
       | None => None
       end).
Proof. intro getMessages. repeat split. Qed.

(** Runs a replay over the trace in the goal.  [E] gives the equations of
    the replay, [R] says that it passes over a retried call, [modal]
    computes the modal. *)
Ltac replay_run E R modal :=
  repeat first
    [ rewrite (proj1 (E _))
    | rewrite (proj1 (proj2 (E _)))
    | rewrite (proj1 (proj2 (proj2 (E _))))
    | rewrite (proj1 (proj2 (proj2 (proj2 (E _)))))
    | rewrite (proj1 (proj2 (proj2 (proj2 (proj2 (E _))))))
    | rewrite (proj1 (proj2 (proj2 (proj2 (proj2 (proj2 (E _)))))))
    | rewrite (proj1 (proj2 (proj2 (proj2 (proj2 (proj2 (proj2 (E _))))))))
    | rewrite (proj1 (proj2 (proj2 (proj2 (proj2 (proj2 (proj2 (proj2 (E _)))))))))
    | rewrite (proj2 (proj2 (proj2 (proj2 (proj2 (proj2 (proj2 (proj2 (E _)))))))))
    | progress rewrite <- ?app_assoc
    | progress modal
    | match goal with
      | Htr : retry_trace _ _ ?es |- context [?f ?g ?c (?es ++ ?rest)] =>
          rewrite (R g _ _ es rest c Htr)
      | Htr : retry_trace _ _ ?es |- context [?f ?g ?c ?es] =>
          rewrite <- (app_nil_r es); rewrite (R g _ _ es [] c Htr)
      end ].

(** Uses what is known of a sub-run ([posterImageSteps] or the next round
    of the loop) that the replay has reached.  [A] splits a replay at an
    append, [D] is the invariant to unfold, [Hin] what is known of the
    modal at the start. *)
Ltac replay_sub_run A D Hin :=
  try match goal with
    | H : forall g c, _ -> exists final, ?f g c ?l = Some final /\ _
      |- context [?f ?g0 ?c0 (?l ++ ?rest)] =>
        rewrite (A g0 l rest c0)
    end;
  match goal with
  | H : forall g c, _ -> exists final, ?f g c ?l = Some final /\ _
    |- context [?f ?g0 ?c0 ?l] =>
      let final := fresh "final" in
      let Hrep := fresh "Hrep" in
      let Hpost := fresh "Hpost" in
      let Hd := fresh "Hd" in
      destruct (H g0 c0) as (final & Hrep & Hpost & Hd);
      [ unfold D; cbn;
        repeat match goal with
          | E : progressModal ?w = _ |- context [progressModal ?w] => rewrite E
          end;
        first
          [ exact Hin
          | do 2 eexists; split; [ reflexivity | split; reflexivity ]
          | let m := fresh "m" in
            let Hm := fresh "Hm" in
            intros m Hm; first [ discriminate Hm | injection Hm as <-; discriminate ] ]
      | rewrite Hrep; clear Hrep; unfold D in Hpost; cbn in Hpost, Hd;
        repeat match goal with
          | E : progressModal ?w = _, H' : context [progressModal ?w] |- _ =>
              rewrite E in H'
          end ]
  end.

Lemma posterImageSteps_modal :
  forall env noteFile fp style size cuts w getMessages current,
    modal_in_step w current ->
    exists final,
      replay getMessages current
        (events_of (posterImageSteps env noteFile fp style size cuts w)) = Some final /\
      modal_in_step (world_of (posterImageSteps env noteFile fp style size cuts w)) final /\
      (forall u, outcome_of (posterImageSteps env noteFile fp style size cuts w) = Done u ->
       forall m, final = Some m -> PMV.content m <> PMV.ProgressView).
Proof.
  intros env noteFile fp style size cuts w getMessages current Hin.
  unfold modal_in_step in *.
  destruct (progressModal w) as [pm | ] eqn:Hpm.
  - destruct Hin as (m & wd & -> & Hc & Hw).
    destruct m as [msgs cb c o ct wdg pt cr]. cbn in Hc, Hw. subst c wdg.
    remember (replay getMessages) as rp eqn:Hrp.
    unfold posterImageSteps. unfold_steps. cbn. rewrite ?Hpm.
    exec retried_calls.
    all: try discriminate.
    all: subst rp.
    all: replay_run replay_equations replay_retried
           ltac:(cbn [PMV.updateProgress PMV.open PMV.close PMV.new_ PMV.showSuccess
                        PMV.showError PMV.messages PMV.onCancel PMV.isCancelled
                        PMV.isOpen PMV.content PMV.widgets PMV.pendingTimers
                        PMV.callbacksRun PMV.stepMarks PMV.barWidth PMV.progressText
                        app]).
    all: eexists; (split; [ reflexivity | split ]).
    all: try (do 2 eexists; split; [ reflexivity | split; reflexivity ]).
    all: intros u Hu m Hm; try discriminate Hu; injection Hm as <-; discriminate.
  - unfold posterImageSteps. unfold_steps. cbn. rewrite ?Hpm.
    exec retried_calls.
    all: try discriminate.
    all: replay_run replay_equations replay_retried
           ltac:(cbn [PMV.updateProgress PMV.open PMV.close PMV.new_ PMV.showSuccess
                        PMV.showError PMV.messages PMV.onCancel PMV.isCancelled
                        PMV.isOpen PMV.content PMV.widgets PMV.pendingTimers
                        PMV.callbacksRun PMV.stepMarks PMV.barWidth PMV.progressText
                        app]).
    all: eexists; (split; [ reflexivity | split ]); [ exact Hin | ].
    all: intros u Hu; try discriminate Hu; exact Hin.
Qed.

Lemma posterLoop_modal :
  forall env fuel noteFile nc pk style size cuts w getMessages current,
    modal_in_step w current ->
    exists final,
      replay getMessages current
        (events_of (posterLoop env fuel noteFile nc pk style size cuts w)) = Some final /\
      modal_in_step (world_of (posterLoop env fuel noteFile nc pk style size cuts w)) final /\
      (forall u, outcome_of (posterLoop env fuel noteFile nc pk style size cuts w) = Done u ->
       forall m, final = Some m -> PMV.content m <> PMV.ProgressView).
Proof.
  induction fuel as [ | fuel IH];
    intros noteFile nc pk style size cuts w getMessages current Hin.
  - exists current. split; [ reflexivity | ]. split; [ exact Hin | discriminate ].
  - unfold modal_in_step in *.
    destruct (progressModal w) as [pm | ] eqn:Hpm.
    + destruct Hin as (m & wd & -> & Hc & Hw).
      destruct m as [msgs cb c o ct wdg pt cr]. cbn in Hc, Hw. subst c wdg.
      remember (replay getMessages) as rp eqn:Hrp.
      cbn [posterLoop]. unfold_steps. cbn. rewrite ?Hpm.
      exec_loop retried_calls posterImageSteps_modal IH.
      all: try discriminate.
      all: rewrite ?Hpm; cbn.
      all: subst rp.
      all: replay_run replay_equations replay_retried
             ltac:(cbn [PMV.updateProgress PMV.open PMV.close PMV.new_ PMV.showSuccess
                          PMV.showError PMV.messages PMV.onCancel PMV.isCancelled
                          PMV.isOpen PMV.content PMV.widgets PMV.pendingTimers
                          PMV.callbacksRun PMV.stepMarks PMV.barWidth PMV.progressText
                          app]).
      all: try replay_sub_run replay_app modal_in_step I.
      all: eexists; (split; [ reflexivity | split ]).
      all: try assumption.
      all: try (do 2 eexists; split; [ reflexivity | split; reflexivity ]).
      all: try (intros m Hm; injection Hm as <-; discriminate).
      all: try (intros u Hu; discriminate Hu).
      all: try (intros u Hu m Hm; injection Hm as <-; discriminate).
      all: repeat match goal with
             | E : progressModal ?w = _, H : context [progressModal ?w] |- _ =>
                 rewrite E in H
             end; assumption.
    + cbn [posterLoop]. unfold_steps. cbn. rewrite ?Hpm.
      exec_loop retried_calls posterImageSteps_modal IH.
      all: try discriminate.
      all: rewrite ?Hpm; cbn.
      all: replay_run replay_equations replay_retried
             ltac:(cbn [PMV.updateProgress PMV.open PMV.close PMV.new_ PMV.showSuccess
                          PMV.showError PMV.messages PMV.onCancel PMV.isCancelled
                          PMV.isOpen PMV.content PMV.widgets PMV.pendingTimers
                          PMV.callbacksRun PMV.stepMarks PMV.barWidth PMV.progressText
                          app]).
      all: try replay_sub_run replay_app modal_in_step Hin.
      all: eexists; (split; [ reflexivity | split ]).
      all: try assumption.
      all: try (do 2 eexists; split; [ reflexivity | split; reflexivity ]).
      all: try (intros m Hm; injection Hm as <-; discriminate).
      all: try (intros u Hu; discriminate Hu).
      all: try (intros u Hu m Hm; injection Hm as <-; discriminate).
      all: try (intros u Hu; exact Hin).
      all: repeat match goal with
             | E : progressModal ?w = _, H : context [progressModal ?w] |- _ =>
                 rewrite E in H
             end; assumption.
Qed.

(** X24. Either generating entry point drives its progress modal in the
    way [progressModal.ts] needs.  No method is called on a modal that is
    not there, and [updateProgress] is only called on a modal that has been
    opened, so it never fails on the progress bar.  And when the entry
    point has returned, no modal is left showing the progress view: the
    last modal shows the success or the error, or was closed before the
    preview in which the user cancelled.  ([getMessages] is the function of
    [i18n.ts]; the user does not touch the modal.) *)
Theorem progress_modal_is_driven_safely :
  forall (getMessages : string -> PMV.UIMessages) (env : Env) (fuel : nat) (w : World),
    (exists final,
       replay getMessages None (events_of (generatePoster env fuel w)) = Some final /\
       (outcome_of (generatePoster env fuel w) = Done tt ->
        forall m, final = Some m -> PMV.content m <> PMV.ProgressView)) /\
    (exists final,
       replay getMessages None (events_of (regenerateLastPoster env w)) = Some final /\
       forall m, final = Some m -> PMV.content m <> PMV.ProgressView).
Proof.
  intros getMessages env fuel w. split.
  - remember (replay getMessages) as rp eqn:Hrp.
    unfold generatePoster. unfold_steps.
    exec_loop retried_calls posterImageSteps_modal (posterLoop_modal env fuel).
    all: subst rp.
    all: replay_run replay_equations replay_retried
           ltac:(cbn [PMV.updateProgress PMV.open PMV.close PMV.new_ PMV.showSuccess
                        PMV.showError PMV.messages PMV.onCancel PMV.isCancelled
                        PMV.isOpen PMV.content PMV.widgets PMV.pendingTimers
                        PMV.callbacksRun PMV.stepMarks PMV.barWidth PMV.progressText
                        app]).
    all: try replay_sub_run replay_app modal_in_step I.
    all: repeat match goal with
           | H : exists (m : PMV.t) (wd : PMV.Widgets), _ |- _ =>
               destruct H as (? & ? & -> & ? & ?)
           end.
    all: replay_run replay_equations replay_retried
           ltac:(cbn [PMV.updateProgress PMV.open PMV.close PMV.new_ PMV.showSuccess
                        PMV.showError PMV.messages PMV.onCancel PMV.isCancelled
                        PMV.isOpen PMV.content PMV.widgets PMV.pendingTimers
                        PMV.callbacksRun PMV.stepMarks PMV.barWidth PMV.progressText
                        app]).
    all: eexists; (split; [ reflexivity | ]).
    all: try discriminate.
    all: try (intros _ m Hm; discriminate Hm).
    all: try (intros _ m Hm; injection Hm as <-; discriminate).
    all: try (intro Hu; apply (Hd _ Hu)).
    all: intros _; assumption.
  - remember (replay getMessages) as rp eqn:Hrp.
    unfold regenerateLastPoster. unfold_steps. exec retried_calls.
    all: subst rp.
    all: replay_run replay_equations replay_retried
           ltac:(cbn [PMV.updateProgress PMV.open PMV.close PMV.new_ PMV.showSuccess
                        PMV.showError PMV.messages PMV.onCancel PMV.isCancelled
                        PMV.isOpen PMV.content PMV.widgets PMV.pendingTimers
                        PMV.callbacksRun PMV.stepMarks PMV.barWidth PMV.progressText
                        app]).
    all: eexists; (split; [ reflexivity | ]).
    all: intros m Hm; first [ discriminate Hm | injection Hm as <-; discriminate ].
Qed.
